(** * collect_info: a shallow embedding of [collect_info.py]

    The program fetches release information for a fixed set of operating
    systems and browsers and prints one JSON document.  This file embeds
    its text processing (wikitext field extraction, reference removal,
    date parsing, the Opera listing parser), its per-source fetchers, the
    aggregator and the serializer, and proves properties of them.

    Modelling conventions.
    - A Python [str] is a [string]; each character stands for the code
      point of the same number (0..255).  On this range [\d] is [0-9] and
      [\s] / [str.strip] whitespace is 9..13, 28..32, 133 and 160.
    - Python exceptions are the [Raise] branch of [result].
    - Values decoded from JSON are the type [json]; numbers are the
      integers.
    - [int] on a text raises beyond 4300 digits, the default of
      [sys.int_max_str_digits].
    - The third-party parsers (mwparserfromhell, BeautifulSoup's HTML
      parser) and the builtin ordering and [repr] of containers are
      fields of the class [Library]; the regular expressions of the source
      are written with the backtracking combinators of [Module Re]. *)

From Stdlib Require Import String Ascii List ZArith Lia Bool Arith.
From Stdlib Require Import Sorting.Permutation Sorting.Sorted.
From Stdlib Require Decimal DecimalString DecimalZ DecimalPos DecimalFacts.
Import ListNotations.
#[local] Set Warnings "-register-all".
Local Open Scope string_scope.
Local Open Scope list_scope.

(** ** Characters and strings *)

Definition is_digit (c : ascii) : bool :=
  let n := nat_of_ascii c in ((48 <=? n) && (n <=? 57))%nat.

Definition is_space (c : ascii) : bool :=
  let n := nat_of_ascii c in
  (((9 <=? n) && (n <=? 13)) || ((28 <=? n) && (n <=? 32))
   || (n =? 133) || (n =? 160))%nat.

Definition newline : ascii := ascii_of_nat 10.

Definition not_char (a c : ascii) : bool := negb (Ascii.eqb a c).
Definition any_char (c : ascii) : bool := true.

(** [s.startswith(p)], returning what follows the prefix. *)
Fixpoint strip_prefix (p s : string) : option string :=
  match p with
  | EmptyString => Some s
  | String a p' =>
      match s with
      | String b s' => if Ascii.eqb a b then strip_prefix p' s' else None
      | EmptyString => None
      end
  end.

(** [p in s] *)
Fixpoint contains (p s : string) : bool :=
  match strip_prefix p s with
  | Some _ => true
  | None => match s with
            | String _ s' => contains p s'
            | EmptyString => false
            end
  end.

Fixpoint string_forall (f : ascii -> bool) (s : string) : bool :=
  match s with
  | EmptyString => true
  | String c s' => f c && string_forall f s'
  end.

Fixpoint lstrip (s : string) : string :=
  match s with
  | String c s' => if is_space c then lstrip s' else s
  | EmptyString => EmptyString
  end.

Fixpoint rstrip (s : string) : string :=
  match s with
  | EmptyString => EmptyString
  | String c s' =>
      match rstrip s' with
      | EmptyString => if is_space c then EmptyString else String c EmptyString
      | r => String c r
      end
  end.

(** [s.strip()] *)
Definition strip (s : string) : string := rstrip (lstrip s).

(** The value of a run of decimal digits, most significant first. *)
Fixpoint digits_value (acc : Z) (s : string) : Z :=
  match s with
  | EmptyString => acc
  | String c s' => digits_value (10 * acc + Z.of_nat (nat_of_ascii c - 48)) s'
  end.

(** ** Exceptions *)

Inductive exn : Type :=
| HTTPError | JSONDecodeError | IndexError | KeyError
| TypeError | AttributeError | ValueError.

Inductive result (A : Type) : Type :=
| Ok (a : A)
| Raise (e : exn).
Arguments Ok {A} a.
Arguments Raise {A} e.

Definition bind {A B} (r : result A) (k : A -> result B) : result B :=
  match r with
  | Ok a => k a
  | Raise e => Raise e
  end.

Notation "x <- r ;; k" := (bind r (fun x => k))
  (at level 61, r at next level, right associativity).

(** The number of digits [int] accepts in a text,
    [sys.int_max_str_digits]: 4300 unless the interpreter is told
    otherwise. *)
Definition INT_MAX_STR_DIGITS : nat := 4300.

(** [int(s)] on the strings the program passes to it: runs of digits.
    Anything else is a [ValueError], and so is a run of more than
    [INT_MAX_STR_DIGITS] digits, leading zeros counted. *)
Definition py_int (s : string) : result Z :=
  match s with
  | EmptyString => Raise ValueError
  | _ => if string_forall is_digit s
            && (String.length s <=? INT_MAX_STR_DIGITS)%nat
         then Ok (digits_value 0 s)
         else Raise ValueError
  end.

(** ** Regular expressions

    Each combinator is one construct of Python's [re], in
    continuation-passing style: a pattern takes the continuation that
    matches the rest of the expression and the text at the current
    position.  Alternatives are tried in the order of the backtracking
    matcher, so the first success is the match [re] reports.  A
    repetition hands the text it consumed to its continuation, which is
    how groups are captured. *)

Module Re.
Section Combinators.
Context {A : Type}.

Definition cont := string -> option A.

(** A literal string. *)
Definition lit (p : string) (k : cont) : cont :=
  fun s => match strip_prefix p s with
           | Some r => k r
           | None => None
           end.

(** [cls{lo,hi}], greedy. *)
Fixpoint greedy (cls : ascii -> bool) (lo hi : nat)
    (k : string -> cont) (s : string) : option A :=
  let stop := match lo with O => k EmptyString s | S _ => None end in
  match hi, s with
  | S hi', String c s' =>
      if cls c then
        match greedy cls (pred lo) hi' (fun cap => k (String c cap)) s' with
        | Some r => Some r
        | None => stop
        end
      else stop
  | _, _ => stop
  end.

(** [cls{lo,hi}?], lazy. *)
Fixpoint lazy (cls : ascii -> bool) (lo hi : nat)
    (k : string -> cont) (s : string) : option A :=
  match (match lo with O => k EmptyString s | S _ => None end) with
  | Some r => Some r
  | None =>
      match hi, s with
      | S hi', String c s' =>
          if cls c then lazy cls (pred lo) hi' (fun cap => k (String c cap)) s'
          else None
      | _, _ => None
      end
  end.

(** [cls*], [cls+], [cls*?]: the upper bound is the length of the
    text, which no repetition can exceed. *)
Definition star (cls : ascii -> bool) (k : string -> cont) : cont :=
  fun s => greedy cls 0 (String.length s) k s.
Definition plus (cls : ascii -> bool) (k : string -> cont) : cont :=
  fun s => greedy cls 1 (String.length s) k s.
Definition lazy_star (cls : ascii -> bool) (k : string -> cont) : cont :=
  fun s => lazy cls 0 (String.length s) k s.

(** [$] with [re.MULTILINE]: the end of the text or just before a
    newline. *)
Definition eol (k : cont) : cont :=
  fun s => match s with
           | EmptyString => k s
           | String c _ => if Ascii.eqb c newline then k s else None
           end.

(** [^] with [re.MULTILINE]: [bol] tells whether the current position
    is the start of the text or follows a newline. *)
Definition bol_anchor (bol : bool) (k : cont) : cont :=
  fun s => if bol then k s else None.

(** [re.search]: the leftmost position at which the pattern matches. *)
Fixpoint search_from (bol : bool) (p : bool -> cont) (s : string) : option A :=
  match p bol s with
  | Some r => Some r
  | None =>
      match s with
      | String c s' => search_from (Ascii.eqb c newline) p s'
      | EmptyString => None
      end
  end.

Definition search (p : bool -> cont) (s : string) : option A :=
  search_from true p s.

(** [re.match]: the pattern at the start of the text only. *)
Definition match_ (p : bool -> cont) (s : string) : option A := p true s.
End Combinators.

(** [re.sub(p, "", s)] for a pattern without anchors whose matches are
    never empty: the pattern reports the text left after the match;
    [skip] counts the characters of the current match still to drop. *)
Fixpoint sub_from (p : string -> option string) (skip : nat) (s : string)
  : string :=
  match s with
  | EmptyString => EmptyString
  | String c s' =>
      match skip with
      | S n => sub_from p n s'
      | O =>
          match p s with
          | Some rest =>
              match String.length s - String.length rest with
              | S n => sub_from p n s'
              | O => String c (sub_from p 0 s')
              end
          | None => String c (sub_from p 0 s')
          end
      end
  end.

Definition sub (p : string -> option string) (s : string) : string :=
  sub_from p 0 s.
End Re.

(** ** Wikitext: the patterns of the source *)

(** [<ref[^>]*?>.*?</ref>] with [re.DOTALL] *)
Definition ref_block_re : string -> option string :=
  Re.lit "<ref"
    (Re.lazy_star (not_char ">") (fun _ =>
       Re.lit ">"
         (Re.lazy_star any_char (fun _ =>
            Re.lit "</ref>" (fun rest => Some rest))))).

(** [<ref[^/>]*/>] *)
Definition ref_selfclosing_re : string -> option string :=
  Re.lit "<ref"
    (Re.star (fun c => not_char "/" c && not_char ">" c) (fun _ =>
       Re.lit "/>" (fun rest => Some rest))).

(** [\{\{Start date\|(\d{4})\|(\d{1,2})\|(\d{1,2})] *)
Definition start_date_re (bol : bool) : string -> option (string * string * string) :=
  Re.lit "{{Start date|"
    (Re.greedy is_digit 4 4 (fun year =>
       Re.lit "|"
         (Re.greedy is_digit 1 2 (fun month =>
            Re.lit "|"
              (Re.greedy is_digit 1 2 (fun day _ =>
                 Some (year, month, day))))))).

(** [^\|\s*KEY\s*=\s*(.+)$] with [re.MULTILINE], where [KEY] is
    [re.escape(key)], that is the key taken literally. *)
Definition field_re (key : string) (bol : bool) : string -> option string :=
  Re.bol_anchor bol
    (Re.lit "|"
       (Re.star is_space (fun _ =>
          Re.lit key
            (Re.star is_space (fun _ =>
               Re.lit "="
                 (Re.star is_space (fun _ =>
                    Re.plus (not_char newline) (fun group1 =>
                      Re.eol (fun _ => Some group1))))))))).

(** [(\d+\.\d+(?:\.\d+){1,2})/?], the version link of a listing page.
    The group [(?:\.\d+){1,2}] is unrolled: one [\.\d+] and, when the
    text allows it, a second one (greedy); group 1 is what was read
    before the optional slash. *)
Definition version_re (bol : bool) : string -> option string :=
  Re.plus is_digit (fun d1 =>
    Re.lit "."
      (Re.plus is_digit (fun d2 =>
         Re.lit "."
           (Re.plus is_digit (fun d3 s =>
              let three := d1 ++ "." ++ d2 ++ "." ++ d3 in
              match
                Re.lit "."
                  (Re.plus is_digit (fun d4 _ => Some (three ++ "." ++ d4))) s
              with
              | Some r => Some r
              | None => Some three
              end)))))%string.

(** [(\d{4}-\d{2}-\d{2})] *)
Definition iso_date_re (bol : bool) : string -> option string :=
  Re.greedy is_digit 4 4 (fun y =>
    Re.lit "-"
      (Re.greedy is_digit 2 2 (fun m =>
         Re.lit "-"
           (Re.greedy is_digit 2 2 (fun d _ =>
              Some (y ++ "-" ++ m ++ "-" ++ d))))))%string.

(** ** Values *)

(** What [response.json()] returns: [None], [bool], [int], [str], [list]
    and [dict] with [str] keys, in insertion order. *)
Inductive json : Type :=
| JNull
| JBool (b : bool)
| JInt (n : Z)
| JStr (s : string)
| JList (items : list json)
| JDict (entries : list (string * json)).

(** The tree BeautifulSoup builds: [Text] is a [NavigableString],
    [Hidden] a string [get_text] leaves out (a comment, a doctype, the
    content of a script), [Tag] an element with its attributes and
    children.  The document itself is a [Tag]. *)
Inductive node : Type :=
| Text (s : string)
| Hidden (s : string)
| Tag (name : string) (attrs : list (string * string)) (children : list node).

(** What the program takes from outside its own source. *)
Class Library : Type := {
  (** [mwparserfromhell.parse(value).strip_code()] *)
  strip_code : string -> string;
  (** [BeautifulSoup(text, "html.parser")], which raises on markup the
      parser rejects *)
  html_parser : string -> result node;
  (** [repr] of a list or a dict *)
  py_repr : json -> string;
  (** [a > b] on decoded values, a [TypeError] where Python has no order *)
  py_gt : json -> json -> result bool
}.

(** The responses of the network, and the clock.  Every URL is requested
    once in a run. *)
Record World : Type := {
  (** [datetime.utcnow().isoformat()] *)
  utcnow_isoformat : string;
  (** [requests.get(url)], [raise_for_status()], [.json()] *)
  get_json : string -> result json;
  (** [requests.get(url)], [raise_for_status()], [.text] *)
  get_text : string -> result string;
  (** the same for [api.php] with [action=parse] and the given page *)
  get_wikipedia : string -> result json
}.

Record ReleaseInfo : Type := {
  version : json;
  version_code : json;
  release_date : json;
  source : string
}.

(** A Python object of the snapshot before serialization: a
    [ReleaseInfo], a [dict] or anything else. *)
Inductive item : Type :=
| Release (r : ReleaseInfo)
| Dict (entries : list (string * item))
| Plain (j : json).

Definition opt_str (o : option string) : json :=
  match o with
  | Some s => JStr s
  | None => JNull
  end.

(** ** Operations of Python on decoded values *)

(** The value of a key in a dict. *)
Fixpoint assoc {V : Type} (k : string) (l : list (string * V)) : option V :=
  match l with
  | [] => None
  | (k', v) :: l' => if String.eqb k k' then Some v else assoc k l'
  end.

(** [d[k] = v] on a dict: the key keeps its place when present. *)
Fixpoint dict_set {V : Type} (k : string) (v : V) (l : list (string * V))
  : list (string * V) :=
  match l with
  | [] => [(k, v)]
  | (k', v') :: l' =>
      if String.eqb k k' then (k, v) :: l' else (k', v') :: dict_set k v l'
  end.

(** [d.get(k, default)] with a [str] key *)
Definition py_get (d : json) (k : string) (default : json) : result json :=
  match d with
  | JDict entries =>
      Ok (match assoc k entries with Some v => v | None => default end)
  | _ => Raise AttributeError
  end.

(** [d.get(k)] with any decoded value as key: lists and dicts are not
    hashable, and no other value equals a [str] key. *)
Definition py_get_dyn (d : json) (k : json) : result json :=
  match d with
  | JDict entries =>
      match k with
      | JStr s => Ok (match assoc s entries with Some v => v | None => JNull end)
      | JList _ | JDict _ => Raise TypeError
      | _ => Ok JNull
      end
  | _ => Raise AttributeError
  end.

(** [d[k]] with a [str] key *)
Definition subscript_key (d : json) (k : string) : result json :=
  match d with
  | JDict entries =>
      match assoc k entries with
      | Some v => Ok v
      | None => Raise KeyError
      end
  | _ => Raise TypeError
  end.

(** [d[0]] *)
Definition subscript_0 (d : json) : result json :=
  match d with
  | JList (x :: _) => Ok x
  | JList [] => Raise IndexError
  | JStr (String c _) => Ok (JStr (String c EmptyString))
  | JStr EmptyString => Raise IndexError
  | JDict _ => Raise KeyError
  | _ => Raise TypeError
  end.

(** The characters of a [str], each a [str]. *)
Fixpoint chars (s : string) : list json :=
  match s with
  | EmptyString => []
  | String c s' => JStr (String c EmptyString) :: chars s'
  end.

(** [iter(d)] *)
Definition py_iter (d : json) : result (list json) :=
  match d with
  | JList l => Ok l
  | JDict entries => Ok (map (fun kv => JStr (fst kv)) entries)
  | JStr s => Ok (chars s)
  | _ => Raise TypeError
  end.

(** [str(n)] of an [int] *)
Definition str_of_Z (n : Z) : string :=
  DecimalString.NilZero.string_of_int (Z.to_int n).

(** [str(v)] *)
Definition py_str `{Library} (v : json) : string :=
  match v with
  | JNull => "None"
  | JBool true => "True"
  | JBool false => "False"
  | JInt n => str_of_Z n
  | JStr s => s
  | _ => py_repr v
  end.

(** [f"{n:02d}"] *)
Definition format_02d (n : Z) : string :=
  let s := str_of_Z n in
  match String.length s with
  | 0 | 1 => ("0" ++ s)%string
  | _ => s
  end.

(** [max(items, key=key)]: the first item whose key no later key
    exceeds; [best] and [best_key] are the item kept so far. *)
Fixpoint max_loop `{Library} (key : json -> result json)
    (best best_key : json) (items : list json) : result json :=
  match items with
  | [] => Ok best
  | x :: rest =>
      kx <- key x ;;
      gt <- py_gt kx best_key ;;
      if (gt : bool) then max_loop key x kx rest
      else max_loop key best best_key rest
  end.

Definition py_max `{Library} (iterable : json) (key : json -> result json)
  : result json :=
  items <- py_iter iterable ;;
  match items with
  | [] => Raise ValueError
  | x :: rest => kx <- key x ;; max_loop key x kx rest
  end.

(** [s.lower()] *)
Definition lower_char (c : ascii) : ascii :=
  let n := nat_of_ascii c in
  if (((65 <=? n) && (n <=? 90))
      || ((192 <=? n) && (n <=? 222) && negb (n =? 215)))%nat
  then ascii_of_nat (n + 32) else c.

Fixpoint lower (s : string) : string :=
  match s with
  | EmptyString => EmptyString
  | String c s' => String (lower_char c) (lower s')
  end.

(** [s.split(sep)] for a one-character separator *)
Fixpoint split (sep : ascii) (s : string) : list string :=
  match s with
  | EmptyString => [EmptyString]
  | String c s' =>
      if Ascii.eqb c sep then EmptyString :: split sep s'
      else match split sep s' with
           | part :: parts => String c part :: parts
           | [] => [String c EmptyString]
           end
  end.

(** [a < b] on lists of integers *)
Fixpoint list_ltb (a b : list Z) : bool :=
  match a, b with
  | [], [] => false
  | [], _ :: _ => true
  | _ :: _, [] => false
  | x :: a', y :: b' => if (x =? y)%Z then list_ltb a' b' else (x <? y)%Z
  end.

(** A list comprehension whose body may raise. *)
Fixpoint mapM {A B : Type} (f : A -> result B) (l : list A) : result (list B) :=
  match l with
  | [] => Ok []
  | x :: l' => y <- f x ;; ys <- mapM f l' ;; Ok (y :: ys)
  end.

(** [l.sort(key=..., reverse=True)] once the keys are computed: the
    order is descending and stable, an element stays before the later
    elements with the same key. *)
Fixpoint insert_desc {A : Type} (x : list Z * A) (l : list (list Z * A))
  : list (list Z * A) :=
  match l with
  | [] => [x]
  | y :: l' => if list_ltb (fst x) (fst y) then y :: insert_desc x l'
               else x :: l
  end.

Fixpoint sort_desc {A : Type} (l : list (list Z * A)) : list (list Z * A) :=
  match l with
  | [] => []
  | x :: l' => insert_desc x (sort_desc l')
  end.

Definition py_sort_reverse {A : Type} (key : A -> result (list Z)) (l : list A)
  : result (list A) :=
  keys <- mapM key l ;;
  Ok (map snd (sort_desc (combine keys l))).

(** [bool(v)] *)
Definition py_truthy (v : json) : bool :=
  match v with
  | JNull => false
  | JBool b => b
  | JInt n => negb (n =? 0)%Z
  | JStr s => negb (String.eqb s EmptyString)
  | JList l => match l with [] => false | _ => true end
  | JDict l => match l with [] => false | _ => true end
  end.

(** [v == s] for a [str] [s] *)
Definition eq_str (v : json) (s : string) : bool :=
  match v with
  | JStr t => String.eqb t s
  | _ => false
  end.

(** ** The program *)

Definition USER_AGENT : string := "scrap_os_browser_info/1.0 (+https://example.com)".

Definition _request_json (w : World) (url : string) : result json :=
  get_json w url.

Definition _request_text (w : World) (url : string) : result string :=
  get_text w url.

(** The two substitutions at the head of [_clean_wikitext]. *)
Definition remove_refs (value : string) : string :=
  let value := Re.sub ref_block_re value in
  Re.sub ref_selfclosing_re value.

Definition _clean_wikitext `{Library} (value : string) : string :=
  let value := remove_refs value in
  let cleaned := strip_code value in
  strip cleaned.

Definition _parse_wiki_date `{Library} (value : string) : result (option string) :=
  match Re.search start_date_re value with
  | Some (year, month, day) =>
      m <- py_int month ;;
      d <- py_int day ;;
      Ok (Some (year ++ "-" ++ format_02d m ++ "-" ++ format_02d d)%string)
  | None =>
      let cleaned := _clean_wikitext value in
      Ok (match cleaned with
          | EmptyString => None
          | _ => Some cleaned
          end)
  end.

Fixpoint _extract_wikitext_field (wikitext : string) (keys : list string)
  : option string :=
  match keys with
  | [] => None
  | key :: keys' =>
      match Re.search (field_re key) wikitext with
      | Some group1 => Some (strip group1)
      | None => _extract_wikitext_field wikitext keys'
      end
  end.

(** [_extract_wikitext_field] on what [_fetch_wikipedia_wikitext]
    returned: [re.search] raises a [TypeError] on anything but a [str]. *)
Definition extract_checked (wikitext : json) (keys : list string)
  : result (option string) :=
  match keys with
  | [] => Ok None
  | _ => match wikitext with
         | JStr text => Ok (_extract_wikitext_field text keys)
         | _ => Raise TypeError
         end
  end.

Definition _fetch_wikipedia_wikitext (w : World) (page : string) : result json :=
  data <- get_wikipedia w page ;;
  parse <- subscript_key data "parse" ;;
  wikitext <- subscript_key parse "wikitext" ;;
  subscript_key wikitext "*".

(** [f(raw) if raw else default] *)
Definition if_truthy {A : Type} (raw : option string) (f : string -> A)
    (default : A) : A :=
  match raw with
  | Some (String c s) => f (String c s)
  | _ => default
  end.

(** [keys or []] *)
Definition or_empty (keys : option (list string)) : list string :=
  match keys with
  | Some (k :: ks) => k :: ks
  | _ => []
  end.

(** The [ReleaseInfo(...)] of one channel in [_from_wikipedia]. *)
Definition wikipedia_release `{Library} (page : string)
    (version_raw date_raw code_raw : option string) : result ReleaseInfo :=
  let v := if_truthy version_raw (fun r => JStr (_clean_wikitext r)) JNull in
  let code :=
    if_truthy code_raw (fun r => JStr (_clean_wikitext r))
      (if_truthy version_raw (fun r => JStr (_clean_wikitext r)) JNull) in
  date <- if_truthy date_raw _parse_wiki_date (Ok None) ;;
  Ok {| version := v;
        version_code := code;
        release_date := opt_str date;
        source := "https://en.wikipedia.org/wiki/" ++ page |}%string.

Definition _from_wikipedia `{Library} (w : World) (page : string)
    (stable_version_keys stable_date_keys : list string)
    (beta_version_keys beta_date_keys : list string)
    (stable_code_keys beta_code_keys : option (list string)) : result item :=
  wikitext <- _fetch_wikipedia_wikitext w page ;;
  stable_version_raw <- extract_checked wikitext stable_version_keys ;;
  stable_date_raw <- extract_checked wikitext stable_date_keys ;;
  stable_code_raw <- extract_checked wikitext (or_empty stable_code_keys) ;;
  beta_version_raw <- extract_checked wikitext beta_version_keys ;;
  beta_date_raw <- extract_checked wikitext beta_date_keys ;;
  beta_code_raw <- extract_checked wikitext (or_empty beta_code_keys) ;;
  stable <- wikipedia_release page stable_version_raw stable_date_raw stable_code_raw ;;
  beta <- wikipedia_release page beta_version_raw beta_date_raw beta_code_raw ;;
  Ok (Dict [("stable", Release stable); ("beta", Release beta)]).

(** The function [_fetch] inside [fetch_chrome]. *)
Definition _fetch `{Library} (w : World) (channel : string)
  : result ReleaseInfo :=
  data <- _request_json w
    ("https://chromiumdash.appspot.com/fetch_milestones?channel=" ++ channel)%string ;;
  entry <- subscript_0 data ;;
  let date_key := if String.eqb channel "Stable" then "stable_date" else "beta_date" in
  v <- py_get entry "version" JNull ;;
  milestone <- py_get entry "milestone" JNull ;;
  date <- py_get entry date_key JNull ;;
  Ok {| version := v;
        version_code := JStr (py_str milestone);
        release_date := date;
        source := "https://chromiumdash.appspot.com/fetch_milestones" |}.

Definition fetch_chrome `{Library} (w : World) : result item :=
  stable <- _fetch w "Stable" ;;
  beta <- _fetch w "Beta" ;;
  Ok (Dict [("stable", Release stable); ("beta", Release beta)]).

Definition fetch_firefox (w : World) : result item :=
  versions <- _request_json w
    "https://product-details.mozilla.org/1.0/firefox_versions.json" ;;
  history_stable <- _request_json w
    "https://product-details.mozilla.org/1.0/firefox_history_major_releases.json" ;;
  history_dev <- _request_json w
    "https://product-details.mozilla.org/1.0/firefox_history_development_releases.json" ;;
  stable_version <- py_get versions "LATEST_FIREFOX_VERSION" JNull ;;
  beta_version <- py_get versions "LATEST_FIREFOX_RELEASED_DEVEL_VERSION" JNull ;;
  stable_date <- py_get_dyn history_stable stable_version ;;
  beta_date <- py_get_dyn history_dev beta_version ;;
  Ok (Dict
        [("stable", Release
            {| version := stable_version;
               version_code := stable_version;
               release_date := stable_date;
               source := "https://product-details.mozilla.org/1.0/firefox_versions.json" |});
         ("beta", Release
            {| version := beta_version;
               version_code := beta_version;
               release_date := beta_date;
               source := "https://product-details.mozilla.org/1.0/firefox_versions.json" |})]).

Definition EDGE_URL : string :=
  "https://edgeupdates.microsoft.com/api/products?view=enterprise".

(** [next((product for product in data if product.get("Product") == name), None)]
    once [iter(data)] has succeeded *)
Fixpoint find_product (name : string) (products : list json) : result json :=
  match products with
  | [] => Ok JNull
  | product :: rest =>
      p <- py_get product "Product" JNull ;;
      if eq_str p name then Ok product else find_product name rest
  end.

(** The body of the loop of [fetch_edge]. *)
Definition edge_channel `{Library} (data : json) (channel_name : string)
  : result ReleaseInfo :=
  products <- py_iter data ;;
  channel_data <- find_product ("Microsoft Edge " ++ channel_name)%string products ;;
  if negb (py_truthy channel_data) then
    Ok {| version := JNull; version_code := JNull; release_date := JNull;
          source := EDGE_URL |}
  else
    releases <- py_get channel_data "Releases" (JList []) ;;
    release <- py_max releases
                 (fun item => py_get item "PublishedTime" (JStr EmptyString)) ;;
    v <- py_get release "ProductVersion" JNull ;;
    release_id <- py_get release "ReleaseId" JNull ;;
    published <- py_get release "PublishedTime" JNull ;;
    Ok {| version := v;
          version_code := JStr (py_str release_id);
          release_date := published;
          source := EDGE_URL |}.

(** The loop of [fetch_edge] over the names of the channels. *)
Fixpoint edge_loop `{Library} (data : json) (names : list string)
    (channels : list (string * ReleaseInfo))
  : result (list (string * ReleaseInfo)) :=
  match names with
  | [] => Ok channels
  | channel_name :: rest =>
      info <- edge_channel data channel_name ;;
      edge_loop data rest (dict_set (lower channel_name) info channels)
  end.

(** [d[k]] on the dict of channels *)
Definition dict_item {V : Type} (d : list (string * V)) (k : string) : result V :=
  match assoc k d with
  | Some v => Ok v
  | None => Raise KeyError
  end.

Definition fetch_edge `{Library} (w : World) : result item :=
  data <- _request_json w EDGE_URL ;;
  channels <- edge_loop data ["Stable"; "Beta"] [] ;;
  stable <- dict_item channels "stable" ;;
  beta <- dict_item channels "beta" ;;
  Ok (Dict [("stable", Release stable); ("beta", Release beta)]).

(** *** The Opera listing *)

(** [soup.find_all("a")]: the [a] elements below [n] in document order,
    each with its parent. *)
Fixpoint find_all_a (n : node) : list (node * node) :=
  match n with
  | Tag _ _ children =>
      (fix below (cs : list node) : list (node * node) :=
         match cs with
         | [] => []
         | c :: cs' =>
             match c with
             | Tag name _ _ =>
                 (if String.eqb name "a" then [(c, n)] else []) ++ find_all_a c
             | _ => []
             end ++ below cs'
         end) children
  | _ => []
  end.

(** [tag.get(name, default)] *)
Definition tag_get (n : node) (name default : string) : string :=
  match n with
  | Tag _ attrs _ =>
      match assoc name attrs with
      | Some v => v
      | None => default
      end
  | _ => default
  end.

(** The strings below [n] that [get_text] joins. *)
Fixpoint all_strings (n : node) : list string :=
  match n with
  | Text s => [s]
  | Hidden _ => []
  | Tag _ _ children =>
      (fix below (cs : list node) : list string :=
         match cs with
         | [] => []
         | c :: cs' => all_strings c ++ below cs'
         end) children
  end.

Definition nonempty (s : string) : bool :=
  match s with
  | EmptyString => false
  | _ => true
  end.

(** [tag.get_text(separator, strip=True)] *)
Definition get_text_strip (separator : string) (n : node) : string :=
  String.concat separator (filter nonempty (map strip (all_strings n))).

(** The body of the loop of [_parse_opera_listing]. *)
Definition listing_entry (link_parent : node * node)
  : list (string * option string) :=
  let (link, parent) := link_parent in
  let href := tag_get link "href" EmptyString in
  match Re.match_ version_re href with
  | Some v =>
      let row_text := get_text_strip " " parent in
      let date := Re.search iso_date_re row_text in
      [(v, date)]
  | None => []
  end.

(** The list [versions] after the loop. *)
Definition listing_versions (soup : node) : list (string * option string) :=
  flat_map listing_entry (find_all_a soup).

(** [[int(part) for part in item[0].split(".")]] *)
Definition version_key (entry : string * option string) : result (list Z) :=
  mapM py_int (split "." (fst entry)).

(** [_parse_opera_listing] from the parsed page on. *)
Definition latest_of_listing (soup : node)
  : result (option string * option string) :=
  let versions := listing_versions soup in
  match versions with
  | [] => Ok (None, None)
  | _ =>
      sorted <- py_sort_reverse version_key versions ;;
      match sorted with
      | (v, date) :: _ => Ok (Some v, date)
      | [] => Raise IndexError
      end
  end.

Definition _parse_opera_listing `{Library} (w : World) (url : string)
  : result (option string * option string) :=
  text <- _request_text w url ;;
  soup <- html_parser text ;;
  latest_of_listing soup.

Definition fetch_opera `{Library} (w : World) : result item :=
  stable <- _parse_opera_listing w "https://get.geo.opera.com/pub/opera/desktop/" ;;
  beta <- _parse_opera_listing w "https://get.geo.opera.com/pub/opera-beta/" ;;
  Ok (Dict
        [("stable", Release
            {| version := opt_str (fst stable);
               version_code := opt_str (fst stable);
               release_date := opt_str (snd stable);
               source := "https://get.geo.opera.com/pub/opera/desktop/" |});
         ("beta", Release
            {| version := opt_str (fst beta);
               version_code := opt_str (fst beta);
               release_date := opt_str (snd beta);
               source := "https://get.geo.opera.com/pub/opera-beta/" |})]).

(** *** The Wikipedia sources *)

Definition fetch_safari `{Library} (w : World) : result item :=
  _from_wikipedia w "Safari_(web_browser)"
    ["latest_release_version"; "latest_release"]
    ["latest_release_date"; "latest_release_date"]
    ["latest_preview_version"; "latest_beta_version"; "latest_release_version"]
    ["latest_preview_date"; "latest_beta_release_date"; "latest_release_date"]
    None None.

(** The call [fetch_whale] and the five fetchers of the operating
    systems make, with the same lists of keys. *)
Definition from_wikipedia_default `{Library} (w : World) (page : string)
  : result item :=
  _from_wikipedia w page
    ["latest_release_version"; "latest_release"]
    ["latest_release_date"; "latest_release_date"]
    ["latest_preview_version"; "latest_beta_version"]
    ["latest_preview_date"; "latest_beta_release_date"]
    None None.

Definition fetch_whale `{Library} (w : World) : result item :=
  from_wikipedia_default w "Whale_(web_browser)".
Definition fetch_windows `{Library} (w : World) : result item :=
  from_wikipedia_default w "Windows_11".
Definition fetch_macos `{Library} (w : World) : result item :=
  from_wikipedia_default w "macOS".
Definition fetch_android `{Library} (w : World) : result item :=
  from_wikipedia_default w "Android_(operating_system)".
Definition fetch_ios `{Library} (w : World) : result item :=
  from_wikipedia_default w "iOS".
Definition fetch_ipados `{Library} (w : World) : result item :=
  from_wikipedia_default w "iPadOS".

(** *** The aggregator and the serializer *)

Definition collect_all `{Library} (w : World) : result item :=
  let generated_at := (utcnow_isoformat w ++ "Z")%string in
  windows <- fetch_windows w ;;
  macos <- fetch_macos w ;;
  android <- fetch_android w ;;
  ios <- fetch_ios w ;;
  ipados <- fetch_ipados w ;;
  chrome <- fetch_chrome w ;;
  firefox <- fetch_firefox w ;;
  opera <- fetch_opera w ;;
  edge <- fetch_edge w ;;
  safari <- fetch_safari w ;;
  whale <- fetch_whale w ;;
  Ok (Dict
        [("generated_at", Plain (JStr generated_at));
         ("operating_systems",
          Dict [("windows", windows); ("macos", macos); ("android", android);
                ("ios", ios); ("ipados", ipados)]);
         ("browsers",
          Dict [("chrome", chrome); ("firefox", firefox); ("opera", opera);
                ("edge", edge); ("safari", safari); ("whale", whale)])]).

(** [dataclasses.asdict] *)
Definition asdict (r : ReleaseInfo) : json :=
  JDict [("version", version r);
         ("version_code", version_code r);
         ("release_date", release_date r);
         ("source", JStr (source r))].

Fixpoint _convert (i : item) : json :=
  match i with
  | Release r => asdict r
  | Dict entries =>
      JDict ((fix each (l : list (string * item)) : list (string * json) :=
                match l with
                | [] => []
                | (key, value) :: l' => (key, _convert value) :: each l'
                end) entries)
  | Plain j => j
  end.

Definition _serialize (data : item) : json := _convert data.

(** ** [json.dumps(payload, ensure_ascii=False, indent=2)] *)

Definition quote : ascii := ascii_of_nat 34.

Definition hex_digit (n : nat) : ascii :=
  if (n <? 10)%nat then ascii_of_nat (48 + n) else ascii_of_nat (87 + n).

(** One character of a string literal: the short escapes, [\u00xx] for
    the other control characters, anything else as it is. *)
Definition escape_char (c : ascii) : string :=
  let n := nat_of_ascii c in
  if (n =? 34)%nat then String "\" (String quote EmptyString)
  else if (n =? 92)%nat then "\\"
  else if (n =? 10)%nat then "\n"
  else if (n =? 13)%nat then "\r"
  else if (n =? 9)%nat then "\t"
  else if (n =? 8)%nat then "\b"
  else if (n =? 12)%nat then "\f"
  else if (n <? 32)%nat then
    String "\" (String "u" (String "0" (String "0"
      (String (hex_digit (n / 16)) (String (hex_digit (n mod 16)) EmptyString)))))
  else String c EmptyString.

Fixpoint escape (s : string) : string :=
  match s with
  | EmptyString => EmptyString
  | String c s' => (escape_char c ++ escape s')%string
  end.

Definition encode_str (s : string) : string :=
  String quote (escape s ++ String quote EmptyString).

Fixpoint spaces (n : nat) : string :=
  match n with
  | O => EmptyString
  | S n' => String " " (String " " (spaces n'))
  end.

(** A newline and the indentation of the given level. *)
Definition newline_indent (level : nat) : string :=
  String newline (spaces level).

Fixpoint encode (level : nat) (v : json) : string :=
  match v with
  | JNull => "null"
  | JBool true => "true"
  | JBool false => "false"
  | JInt n => str_of_Z n
  | JStr s => encode_str s
  | JList [] => "[]"
  | JList items =>
      ("[" ++ newline_indent (S level)
       ++ String.concat ("," ++ newline_indent (S level))
            (map (encode (S level)) items)
       ++ newline_indent level ++ "]")%string
  | JDict [] => "{}"
  | JDict entries =>
      ("{" ++ newline_indent (S level)
       ++ String.concat ("," ++ newline_indent (S level))
            (map (fun kv => encode_str (fst kv) ++ ": " ++ encode (S level) (snd kv))
               entries)
       ++ newline_indent level ++ "}")%string
  end.

Definition dumps (payload : json) : string := encode 0 payload.

(** ** [json.loads] *)

Definition is_json_space (c : ascii) : bool :=
  let n := nat_of_ascii c in
  ((n =? 32) || (n =? 9) || (n =? 10) || (n =? 13))%nat.

Fixpoint skip_ws (s : string) : string :=
  match s with
  | String c s' => if is_json_space c then skip_ws s' else s
  | EmptyString => EmptyString
  end.

Definition hex_value (c : ascii) : option nat :=
  let n := nat_of_ascii c in
  if ((48 <=? n) && (n <=? 57))%nat then Some (n - 48)
  else if ((97 <=? n) && (n <=? 102))%nat then Some (n - 87)
  else if ((65 <=? n) && (n <=? 70))%nat then Some (n - 55)
  else None.

(** The character after a backslash.  An escape [\uXXXX] beyond 255 has
    no character in the model. *)
Definition unescape (s : string) : option (ascii * string) :=
  match s with
  | String c s' =>
      let n := nat_of_ascii c in
      if (n =? 34)%nat then Some (c, s')
      else if (n =? 92)%nat then Some (c, s')
      else if (n =? 47)%nat then Some (c, s')
      else if (n =? 98)%nat then Some (ascii_of_nat 8, s')
      else if (n =? 102)%nat then Some (ascii_of_nat 12, s')
      else if (n =? 110)%nat then Some (ascii_of_nat 10, s')
      else if (n =? 114)%nat then Some (ascii_of_nat 13, s')
      else if (n =? 116)%nat then Some (ascii_of_nat 9, s')
      else if (n =? 117)%nat then
        match s' with
        | String h1 (String h2 (String h3 (String h4 s''))) =>
            match hex_value h1, hex_value h2, hex_value h3, hex_value h4 with
            | Some a, Some b, Some c', Some d =>
                let code := (((a * 16 + b) * 16 + c') * 16 + d)%nat in
                if (code <? 256)%nat then Some (ascii_of_nat code, s'') else None
            | _, _, _, _ => None
            end
        | _ => None
        end
      else None
  | EmptyString => None
  end.

(** The text after an opening quote, up to the closing one. *)
Fixpoint scan_string (fuel : nat) (s : string) : option (string * string) :=
  match fuel with
  | O => None
  | S fuel' =>
      match s with
      | EmptyString => None
      | String c s' =>
          let n := nat_of_ascii c in
          if (n =? 34)%nat then Some (EmptyString, s')
          else if (n =? 92)%nat then
            match unescape s' with
            | Some (d, s'') =>
                match scan_string fuel' s'' with
                | Some (t, r) => Some (String d t, r)
                | None => None
                end
            | None => None
            end
          else if (n <? 32)%nat then None
          else
            match scan_string fuel' s' with
            | Some (t, r) => Some (String c t, r)
            | None => None
            end
      end
  end.

Fixpoint span (cls : ascii -> bool) (s : string) : string * string :=
  match s with
  | String c s' =>
      if cls c then let (a, b) := span cls s' in (String c a, b)
      else (EmptyString, s)
  | EmptyString => (EmptyString, EmptyString)
  end.

(** Whether a fraction or an exponent follows an integer part. *)
Definition float_tail (s : string) : bool :=
  match s with
  | String c (String d r) =>
      if Ascii.eqb c "." then is_digit d
      else if (Ascii.eqb c "e" || Ascii.eqb c "E")%bool then
        if is_digit d then true
        else if (Ascii.eqb d "+" || Ascii.eqb d "-")%bool then
          match r with
          | String d' _ => is_digit d'
          | EmptyString => false
          end
        else false
      else false
  | _ => false
  end.

(** [0] or a run of digits that does not start with [0], after the
    sign; a number with a fraction or an exponent is a float, which the
    model does not have. *)
Definition scan_unsigned (sign body : string) : option (json * string) :=
  let (digits, rest) :=
    match body with
    | String c r => if Ascii.eqb c "0" then ("0", r) else span is_digit body
    | EmptyString => (EmptyString, EmptyString)
    end in
  match digits with
  | EmptyString => None
  | _ =>
      if float_tail rest then None
      else
        match DecimalString.NilZero.int_of_string (sign ++ digits) with
        | Some d => Some (JInt (Z.of_int d), rest)
        | None => None
        end
  end%string.

(** A number: an optional minus sign and the digits. *)
Definition scan_number (s : string) : option (json * string) :=
  match s with
  | String c s' =>
      if Ascii.eqb c "-" then scan_unsigned "-" s' else scan_unsigned EmptyString s
  | EmptyString => None
  end.

Fixpoint scan_value (fuel : nat) (s : string) : option (json * string) :=
  match fuel with
  | O => None
  | S fuel' =>
      match s with
      | String c s' =>
          if Ascii.eqb c quote then
            match scan_string (String.length s') s' with
            | Some (t, r) => Some (JStr t, r)
            | None => None
            end
          else if Ascii.eqb c "{" then
            match skip_ws s' with
            | String d r =>
                if Ascii.eqb d "}" then Some (JDict [], r)
                else scan_members fuel' [] (String d r)
            | EmptyString => None
            end
          else if Ascii.eqb c "[" then
            match skip_ws s' with
            | String d r =>
                if Ascii.eqb d "]" then Some (JList [], r)
                else scan_items fuel' [] (String d r)
            | EmptyString => None
            end
          else
            match strip_prefix "null" s, strip_prefix "true" s,
                  strip_prefix "false" s with
            | Some r, _, _ => Some (JNull, r)
            | _, Some r, _ => Some (JBool true, r)
            | _, _, Some r => Some (JBool false, r)
            | _, _, _ => scan_number s
            end
      | EmptyString => None
      end
  end

(** The values of an array from the current one on; [acc] holds the
    values read so far, last first. *)
with scan_items (fuel : nat) (acc : list json) (s : string)
  : option (json * string) :=
  match fuel with
  | O => None
  | S fuel' =>
      match scan_value fuel' s with
      | Some (v, r) =>
          match skip_ws r with
          | String d r' =>
              if Ascii.eqb d "]" then Some (JList (List.rev (v :: acc)), r')
              else if Ascii.eqb d "," then scan_items fuel' (v :: acc) (skip_ws r')
              else None
          | EmptyString => None
          end
      | None => None
      end
  end

(** The pairs of an object from the current key on; a key read again
    replaces its value, as [dict(pairs)] does. *)
with scan_members (fuel : nat) (acc : list (string * json)) (s : string)
  : option (json * string) :=
  match fuel with
  | O => None
  | S fuel' =>
      match s with
      | String c s' =>
          if Ascii.eqb c quote then
            match scan_string (String.length s') s' with
            | Some (key, r) =>
                match skip_ws r with
                | String d r1 =>
                    if Ascii.eqb d ":" then
                      match scan_value fuel' (skip_ws r1) with
                      | Some (v, r2) =>
                          match skip_ws r2 with
                          | String e r3 =>
                              if Ascii.eqb e "}" then
                                Some (JDict (dict_set key v acc), r3)
                              else if Ascii.eqb e "," then
                                scan_members fuel' (dict_set key v acc) (skip_ws r3)
                              else None
                          | EmptyString => None
                          end
                      | None => None
                      end
                    else None
                | EmptyString => None
                end
            | None => None
            end
          else None
      | EmptyString => None
      end
  end.

(** [json.loads(text)]: [None] is a [JSONDecodeError], or a text whose
    value the model does not have. *)
Definition loads (text : string) : option json :=
  match scan_value (S (String.length text)) (skip_ws text) with
  | Some (v, r) =>
      match skip_ws r with
      | EmptyString => Some v
      | _ => None
      end
  | None => None
  end.

(** [main]: what is printed or written to the output file. *)
Definition main `{Library} (w : World) : result string :=
  data <- collect_all w ;;
  let payload := _serialize data in
  let output := dumps payload in
  Ok output.

(** ** Inputs for evaluating the program

    [plain_library] treats every text as free of markup and every page
    as empty, and orders only strings and integers; it serves where a
    statement needs one concrete instance of [Library]. *)

Definition plain_gt (a b : json) : result bool :=
  match a, b with
  | JStr x, JStr y => Ok (String.ltb y x)
  | JInt x, JInt y => Ok (y <? x)%Z
  | _, _ => Raise TypeError
  end.

Definition plain_library : Library :=
  {| strip_code := fun s => s;
     html_parser := fun _ => Ok (Tag "[document]" [] []);
     py_repr := fun _ => EmptyString;
     py_gt := plain_gt |}.

Definition wikipedia_response (wikitext : string) : json :=
  JDict [("parse", JDict [("wikitext", JDict [("*", JStr wikitext)])])].

(** A run in which every source answers with little data: Wikipedia
    pages of one field, one Chrome milestone without a [milestone] key,
    empty Firefox tables, no Edge product, empty Opera listings. *)
Definition quiet_world : World :=
  {| utcnow_isoformat := "2024-01-01T00:00:00";
     get_json := fun url =>
       match strip_prefix "https://product-details.mozilla.org/" url with
       | Some _ => Ok (JDict [])
       | None =>
           match strip_prefix "https://chromiumdash.appspot.com/" url with
           | Some _ => Ok (JList [JDict [("version", JStr "120.0.6099.71")]])
           | None => Ok (JList [])
           end
       end;
     get_text := fun _ => Ok EmptyString;
     get_wikipedia := fun _ =>
       Ok (wikipedia_response "| latest_release_version = 17.2") |}.

(** Edge answers with its two products; the stable one has a release
    without [ReleaseId], the beta one has no [Releases]. *)
Definition edge_products : json :=
  JList
    [JDict [("Product", JStr "Microsoft Edge Stable");
            ("Releases",
             JList [JDict [("ProductVersion", JStr "120.0.2210.61");
                           ("PublishedTime", JStr "2023-12-07T18:00:00")]])];
     JDict [("Product", JStr "Microsoft Edge Beta")]].

Definition edge_world : World :=
  {| utcnow_isoformat := "2024-01-01T00:00:00";
     get_json := fun _ => Ok edge_products;
     get_text := fun _ => Ok EmptyString;
     get_wikipedia := fun _ => Raise HTTPError |}.

(** A listing page with one row per version, the link and the date in
    the same element. *)
Definition opera_row (href date : string) : node :=
  Tag "li" []
    [Tag "a" [("href", href)] [Text href]; Text ("  " ++ date ++ " 10:00  -")%string].

Definition opera_listing : node :=
  Tag "[document]" []
    [Tag "ul" []
       [Tag "li" [] [Tag "a" [("href", "../")] [Text "../"]];
        opera_row "90.0.4480.84/" "2023-08-01";
        opera_row "91.0.4516.20/" "2023-09-10"]].

(** ** Notions used in the statements *)

(** A [{stable, beta}] pair of release records. *)
Definition channel_pair (i : item) : Prop :=
  exists stable beta,
    i = Dict [("stable", Release stable); ("beta", Release beta)].

(** The keys of a dict, in order. *)
Definition dict_keys (i : item) : list string :=
  match i with
  | Dict entries => map fst entries
  | _ => []
  end.

Definition dict_values (i : item) : list item :=
  match i with
  | Dict entries => map snd entries
  | _ => []
  end.

(** The shape of a snapshot: the three top-level keys, the five
    operating systems and the six browsers, each a [{stable, beta}]
    pair. *)
Definition snapshot_shape (snapshot : item) : Prop :=
  exists generated_at operating_systems browsers,
    snapshot = Dict [("generated_at", Plain (JStr generated_at));
                     ("operating_systems", operating_systems);
                     ("browsers", browsers)]
    /\ dict_keys operating_systems
       = ["windows"; "macos"; "android"; "ios"; "ipados"]
    /\ dict_keys browsers
       = ["chrome"; "firefox"; "opera"; "edge"; "safari"; "whale"]
    /\ Forall channel_pair (dict_values operating_systems)
    /\ Forall channel_pair (dict_values browsers)
    /\ Forall (fun i => dict_keys i = ["stable"; "beta"])
         (dict_values operating_systems ++ dict_values browsers).

(** What [collect_all] returns in [quiet_world]. *)
Definition quiet_snapshot : item :=
  Eval vm_compute in
    match @collect_all plain_library quiet_world with
    | Ok snapshot => snapshot
    | Raise _ => Dict []
    end.

(** A non-empty run of decimal digits. *)
Definition digits (s : string) : Prop :=
  s <> EmptyString /\ string_forall is_digit s = true.

(** A listing whose only link has a version of two components. *)
Definition two_component_listing : node :=
  Tag "[document]" []
    [Tag "li" [] [Tag "a" [("href", "90.1/")] [Text "90.1/"];
                  Text " 2023-08-01"]].

(** [a >= b] for the order of [list_ltb]. *)
Definition list_geb (a b : list Z) : bool := negb (list_ltb a b).

(** Descending by key. *)
Definition descending {A : Type} (key : A -> list Z) (l : list A) : Prop :=
  StronglySorted (fun a b => list_geb (key a) (key b) = true) l.

(** [h] is the first element of [l] with the highest key. *)
Definition first_highest {A : Type} (key : A -> list Z) (h : A) (l : list A)
  : Prop :=
  exists before after,
    l = before ++ h :: after
    /\ (forall e, In e before -> list_ltb (key e) (key h) = true)
    /\ (forall e, In e after -> list_geb (key h) (key e) = true).

(** [d] padded with a zero on the left to two characters. *)
Definition zero_pad2 (d : string) : string :=
  match d with
  | String c EmptyString => String "0" d
  | _ => d
  end.

(** One or two decimal digits. *)
Definition digits_1_2 (d : string) : Prop :=
  digits d /\ String.length d <= 2.

(** The text holds an invocation of the [Start date] template with a
    year of four digits and a month and a day of one or two. *)
Definition start_date_invocation (value : string) : Prop :=
  exists before year month day after,
    value = (before ++ "{{Start date|" ++ year ++ "|" ++ month ++ "|" ++ day
             ++ after)%string
    /\ digits year /\ String.length year = 4
    /\ digits_1_2 month /\ digits_1_2 day.

(** [cleaned or None] *)
Definition or_none (cleaned : string) : option string :=
  match cleaned with
  | EmptyString => None
  | _ => Some cleaned
  end.

(** An infobox whose first field is empty. *)
Definition infobox_empty_field : string :=
  ("| latest_release_version =" ++ String newline
   "| latest_release_date = 2023-09-18")%string.

(** An infobox whose last field holds only a space. *)
Definition infobox_blank_field : string :=
  ("| latest_release = 17.0" ++ String newline
   "| latest_release_version = ")%string.

(** A Wikipedia page whose stable version is only a reference. *)
Definition reference_only_world : World :=
  {| utcnow_isoformat := "2024-01-01T00:00:00";
     get_json := fun _ => Raise HTTPError;
     get_text := fun _ => Raise HTTPError;
     get_wikipedia := fun _ =>
       Ok (wikipedia_response "| latest_release_version = <ref>x</ref>") |}.

(** [c not in s] *)
Definition no_char (c : ascii) (s : string) : bool :=
  string_forall (not_char c) s.

(** What follows the first occurrence of [p] in [s]. *)
Fixpoint after_first (p s : string) : option string :=
  match strip_prefix p s with
  | Some r => Some r
  | None => match s with
            | String _ s' => after_first p s'
            | EmptyString => None
            end
  end.

(** [u] starts with [<ref], or is a beginning of [<ref]. *)
Definition opens_ref (u : string) : bool :=
  match strip_prefix "<ref" u, strip_prefix u "<ref" with
  | None, None => false
  | _, _ => true
  end.

(** No [<ref] starts in [t], whatever follows [t]: [t] holds no
    [<ref] and does not end with [<], [<r] or [<re]. *)
Fixpoint ref_free (t : string) : bool :=
  match t with
  | EmptyString => true
  | String _ t' => negb (opens_ref t) && ref_free t'
  end.

(** A value whose every [<ref] starts a reference: text in which no
    [<ref] starts (other tags are allowed), blocks [<ref ...>...</ref>]
    whose attributes have no [<] or [>] and whose body, which may hold
    other tags, has no [</ref>], and tags [<ref .../>] whose attributes
    have no [<], [>] or [/]. *)
Inductive ref_marked : string -> Prop :=
| marked_text (t : string) :
    ref_free t = true -> ref_marked t
| marked_block (t attrs body rest : string) :
    ref_free t = true ->
    no_char "<" attrs = true -> no_char ">" attrs = true ->
    contains "</ref>" body = false ->
    ref_marked rest ->
    ref_marked (t ++ "<ref" ++ attrs ++ ">" ++ body ++ "</ref>" ++ rest)
| marked_selfclosing (t attrs rest : string) :
    ref_free t = true ->
    no_char "<" attrs = true -> no_char ">" attrs = true ->
    no_char "/" attrs = true ->
    ref_marked rest ->
    ref_marked (t ++ "<ref" ++ attrs ++ "/>" ++ rest).

(** Text in which no [<ref] starts and tags [<ref .../>] only. *)
Inductive self_marked : string -> Prop :=
| self_text (t : string) :
    ref_free t = true -> self_marked t
| self_tag (t attrs rest : string) :
    ref_free t = true ->
    no_char "<" attrs = true -> no_char ">" attrs = true ->
    no_char "/" attrs = true ->
    self_marked rest ->
    self_marked (t ++ "<ref" ++ attrs ++ "/>" ++ rest).

(** The value holds a reference block or a self-closing reference tag. *)
Definition has_reference (value : string) : Prop :=
  Re.search (fun _ => ref_block_re) value <> None
  \/ Re.search (fun _ => ref_selfclosing_re) value <> None.

(** A value with a reference block, a self-closing tag and other
    tags, around the references and inside the block. *)
Definition value_with_markup : string :=
  "17.2<br><ref name=a>Release <i>notes</i></ref> (21C62)<ref name=b />".

(** A bound on the depth of the calls that read [v] back. *)
Fixpoint size (v : json) : nat :=
  match v with
  | JList items => S (list_sum (map (fun x => S (size x)) items))
  | JDict entries => S (list_sum (map (fun kv => S (size (snd kv))) entries))
  | _ => 0
  end.

Fixpoint distinct (keys : list string) : bool :=
  match keys with
  | [] => true
  | k :: keys' => negb (existsb (String.eqb k) keys') && distinct keys'
  end.

(** No dict of [v] has a key twice, as for every Python dict. *)
Fixpoint unique_keys (v : json) : bool :=
  match v with
  | JList items => forallb unique_keys items
  | JDict entries =>
      distinct (map fst entries)
      && forallb (fun kv => unique_keys (snd kv)) entries
  | _ => true
  end.

(** What follows a value in a document: nothing, a comma or a newline. *)
Definition delimited (rest : string) : bool :=
  match rest with
  | EmptyString => true
  | String c _ => (Ascii.eqb c "," || Ascii.eqb c newline)%bool
  end.

(** [v] is read back from what [encode] writes for it, at any level of
    indentation and before any delimiter, once there is enough fuel. *)
Definition reads_back (v : json) : Prop :=
  forall level rest fuel,
    unique_keys v = true -> size v < fuel -> delimited rest = true ->
    scan_value fuel (encode level v ++ rest) = Some (v, rest).

(** The text of one member of an object. *)
Definition encode_member (level : nat) (kv : string * json) : string :=
  (encode_str (fst kv) ++ ": " ++ encode level (snd kv))%string.

(** The fields of a record have no dict with a key twice. *)
Definition release_unique (r : ReleaseInfo) : bool :=
  unique_keys (version r) && unique_keys (version_code r)
  && unique_keys (release_date r).

(** A [{stable, beta}] pair of such records. *)
Definition unique_pair (i : item) : Prop :=
  exists stable beta,
    i = Dict [("stable", Release stable); ("beta", Release beta)]
    /\ release_unique stable = true /\ release_unique beta = true.

(** The JSON responses are Python values: no dict has a key twice. *)
Definition world_unique (w : World) : Prop :=
  forall url v, get_json w url = Ok v -> unique_keys v = true.

(** Whether the position after [before] starts a line, [bol] telling it
    for the position before. *)
Fixpoint line_start (bol : bool) (before : string) : bool :=
  match before with
  | EmptyString => bol
  | String c before' => line_start (Ascii.eqb c newline) before'
  end.

(** The first character of [s], if any, is not whitespace. *)
Definition head_not_space (s : string) : bool :=
  match s with
  | String c _ => negb (is_space c)
  | EmptyString => false
  end.

(** [s] is empty or starts with a newline. *)
Definition at_line_end (s : string) : bool :=
  match s with
  | String c _ => Ascii.eqb c newline
  | EmptyString => true
  end.

(** ** Notions used in the further properties *)

(** The pages the seven Wikipedia fetchers ask for. *)
Definition wikipedia_pages : list string :=
  ["Windows_11"; "macOS"; "Android_(operating_system)"; "iOS"; "iPadOS";
   "Safari_(web_browser)"; "Whale_(web_browser)"].

(** The addresses [_request_json] is called with. *)
Definition json_urls : list string :=
  ["https://chromiumdash.appspot.com/fetch_milestones?channel=Stable";
   "https://chromiumdash.appspot.com/fetch_milestones?channel=Beta";
   "https://product-details.mozilla.org/1.0/firefox_versions.json";
   "https://product-details.mozilla.org/1.0/firefox_history_major_releases.json";
   "https://product-details.mozilla.org/1.0/firefox_history_development_releases.json";
   EDGE_URL].

(** The addresses [_request_text] is called with. *)
Definition listing_urls : list string :=
  ["https://get.geo.opera.com/pub/opera/desktop/";
   "https://get.geo.opera.com/pub/opera-beta/"].

(** A release record in the document: the four fields in the order of
    the dataclass, the source a text. *)
Definition record_object (j : json) : Prop :=
  exists v code date origin,
    j = JDict [("version", v); ("version_code", code);
               ("release_date", date); ("source", JStr origin)].

(** A [{stable, beta}] object of two release records. *)
Definition pair_object (j : json) : Prop :=
  exists stable beta,
    j = JDict [("stable", stable); ("beta", beta)]
    /\ record_object stable /\ record_object beta.

(** [None] or a [str]. *)
Definition text_or_null (v : json) : Prop :=
  v = JNull \/ exists s, v = JStr s.

(** The seven fetchers that read a Wikipedia infobox, each with the
    page it asks for. *)
Definition wikipedia_sources `{Library}
  : list ((World -> result item) * string) :=
  [(fetch_windows, "Windows_11"); (fetch_macos, "macOS");
   (fetch_android, "Android_(operating_system)"); (fetch_ios, "iOS");
   (fetch_ipados, "iPadOS"); (fetch_safari, "Safari_(web_browser)");
   (fetch_whale, "Whale_(web_browser)")].

(** The answer of the API holds the wikitext under [parse], [wikitext]
    and [*], whatever else it holds. *)
Definition holds_wikitext (data : json) (wikitext : string) : Prop :=
  exists top parse inner,
    data = JDict top
    /\ assoc "parse" top = Some (JDict parse)
    /\ assoc "wikitext" parse = Some (JDict inner)
    /\ assoc "*" inner = Some (JStr wikitext).

(** An answer of the API as it is sent: the title and the identifier of
    the page beside the wikitext. *)
Definition api_response (title wikitext : string) : json :=
  JDict [("parse", JDict [("title", JStr title);
                          ("pageid", JInt 20640);
                          ("wikitext", JDict [("*", JStr wikitext)])])].

(** Wikipedia answers every request with the same infobox, which
    names no preview or beta release. *)
Definition api_world : World :=
  {| utcnow_isoformat := "2024-01-01T00:00:00";
     get_json := fun _ => Raise HTTPError;
     get_text := fun _ => Raise HTTPError;
     get_wikipedia := fun page =>
       Ok (api_response page
             ("{{Infobox" ++ String newline
              ("| latest_release_version = 17.2" ++ String newline
               ("| latest_release_date = {{Start date|2023|12|11}}"
                ++ String newline "}}")))) |}.

(** Wikipedia answers every request with an error object, as it does
    for a page that does not exist. *)
Definition error_page_world : World :=
  {| utcnow_isoformat := "2024-01-01T00:00:00";
     get_json := fun _ => Ok (JList []);
     get_text := fun _ => Ok EmptyString;
     get_wikipedia := fun _ =>
       Ok (JDict [("error", JDict [("code", JStr "missingtitle")])]) |}.

(** [a] is [b] with some of its characters left out. *)
Inductive subsequence : string -> string -> Prop :=
| subsequence_empty : subsequence EmptyString EmptyString
| subsequence_skip (c : ascii) (a b : string) :
    subsequence a b -> subsequence a (String c b)
| subsequence_keep (c : ascii) (a b : string) :
    subsequence a b -> subsequence (String c a) (String c b).

(** [d.get(k)] on the entries of a dict. *)
Definition field (entries : list (string * json)) (k : string) : json :=
  match assoc k entries with
  | Some v => v
  | None => JNull
  end.

(** A value that can be the key of a dict lookup. *)
Definition hashable (v : json) : bool :=
  match v with
  | JList _ | JDict _ => false
  | _ => true
  end.

(** The entry of a history table for a version: the table is keyed by
    the text of the versions. *)
Definition history_date (history : list (string * json)) (v : json) : json :=
  match v with
  | JStr s => field history s
  | _ => JNull
  end.

Definition FIREFOX_URL : string :=
  "https://product-details.mozilla.org/1.0/firefox_versions.json".

Definition CHROME_URL : string :=
  "https://chromiumdash.appspot.com/fetch_milestones".

(** The record [_fetch] builds from the first milestone of a channel. *)
Definition chrome_record `{Library} (entry : list (string * json))
    (date_key : string) : ReleaseInfo :=
  {| version := field entry "version";
     version_code := JStr (py_str (field entry "milestone"));
     release_date := field entry date_key;
     source := CHROME_URL |}.

(** The record of an Edge channel without a product. *)
Definition edge_null_record : ReleaseInfo :=
  {| version := JNull; version_code := JNull; release_date := JNull;
     source := EDGE_URL |}.

(** The key [max] compares the releases of Edge by. *)
Definition published_time (item : json) : result json :=
  py_get item "PublishedTime" (JStr EmptyString).

(** The product is an object with another name than [name]. *)
Definition other_product (name : string) (product : json) : Prop :=
  exists entries,
    product = JDict entries /\ eq_str (field entries "Product") name = false.

(** Edge answers with products of other names only. *)
Definition edge_other_world : World :=
  {| utcnow_isoformat := "2024-01-01T00:00:00";
     get_json := fun _ =>
       Ok (JList [JDict [("Product", JStr "Microsoft Edge Dev")];
                  JDict [("Name", JStr "Microsoft Edge Stable")]]);
     get_text := fun _ => Ok EmptyString;
     get_wikipedia := fun _ => Raise HTTPError |}.

(** Firefox answers with its versions and a history of the stable
    releases that lacks the current one. *)
Definition firefox_world : World :=
  {| utcnow_isoformat := "2024-01-01T00:00:00";
     get_json := fun url =>
       if String.eqb url FIREFOX_URL then
         Ok (JDict [("LATEST_FIREFOX_VERSION", JStr "121.0");
                    ("LATEST_FIREFOX_RELEASED_DEVEL_VERSION", JStr "122.0b3")])
       else Ok (JDict [("120.0", JStr "2023-11-21");
                       ("122.0b3", JStr "2023-12-22")]);
     get_text := fun _ => Ok EmptyString;
     get_wikipedia := fun _ => Raise HTTPError |}.

(** Chrome answers with two milestones for each channel. *)
Definition chrome_world : World :=
  {| utcnow_isoformat := "2024-01-01T00:00:00";
     get_json := fun _ =>
       Ok (JList [JDict [("milestone", JInt 121);
                         ("version", JStr "121.0.6167.85");
                         ("stable_date", JStr "2024-01-23T00:00:00");
                         ("beta_date", JStr "2023-12-13T00:00:00")];
                  JDict [("milestone", JInt 120)]]);
     get_text := fun _ => Ok EmptyString;
     get_wikipedia := fun _ => Raise HTTPError |}.

(** The stable product of Edge with three releases, the last two
    published at the same time. *)
Definition edge_releases : json :=
  JList
    [JDict [("Product", JStr "Microsoft Edge Stable");
            ("Releases",
             JList [JDict [("ReleaseId", JInt 1);
                           ("ProductVersion", JStr "119.0.2151.97");
                           ("PublishedTime", JStr "2023-11-28T18:00:00")];
                    JDict [("ReleaseId", JInt 2);
                           ("ProductVersion", JStr "120.0.2210.61");
                           ("PublishedTime", JStr "2023-12-07T18:00:00")];
                    JDict [("ReleaseId", JInt 3);
                           ("ProductVersion", JStr "120.0.2210.61");
                           ("PublishedTime", JStr "2023-12-07T18:00:00")]])]].

(** ** Notions of the statements on the order of versions *)

(** The integers of the dot-separated components of a version, read
    character by character. *)
Fixpoint version_tuple_from (acc : Z) (s : string) : list Z :=
  match s with
  | EmptyString => [acc]
  | String c s' =>
      if Ascii.eqb c "." then acc :: version_tuple_from 0 s'
      else version_tuple_from (10 * acc + Z.of_nat (nat_of_ascii c - 48)) s'
  end.

(** The order of tuples of integers: by the first component in which
    they differ, a tuple being below the tuples that extend it. *)
Inductive tuple_lt : list Z -> list Z -> Prop :=
| tuple_lt_nil (y : Z) (b : list Z) : tuple_lt [] (y :: b)
| tuple_lt_head (x y : Z) (a b : list Z) :
    (x < y)%Z -> tuple_lt (x :: a) (y :: b)
| tuple_lt_tail (x : Z) (a b : list Z) :
    tuple_lt a b -> tuple_lt (x :: a) (x :: b).

(** The version of an entry of the listing as a tuple of integers. *)
Definition version_tuple (entry : string * option string) : list Z :=
  version_tuple_from 0 (fst entry).

(** No component of the version has more digits than [int] accepts. *)
Definition parts_within_limit (v : string) : bool :=
  forallb (fun part => (String.length part <=? INT_MAX_STR_DIGITS)%nat)
    (split "." v).

Definition components_within_limit (entries : list (string * option string))
  : bool :=
  forallb (fun e => parts_within_limit (fst e)) entries.

(** [n] times the character [c]. *)
Fixpoint replicate (n : nat) (c : ascii) : string :=
  match n with
  | O => EmptyString
  | S n' => String c (replicate n' c)
  end.

(** A listing whose only link has a component of one digit more than
    [int] accepts. *)
Definition long_component_listing : node :=
  Tag "[document]" []
    [Tag "li" []
       [Tag "a"
          [("href",
            ("91.0." ++ replicate (S INT_MAX_STR_DIGITS) "9" ++ "/")%string)]
          [];
        Text " 2023-08-01"]].

(** ** Notions of the statement on the date parser *)

(** The first character of [s], if there is one, is not a digit. *)
Definition head_not_digit (s : string) : bool :=
  match s with
  | String c _ => negb (is_digit c)
  | EmptyString => true
  end.

(** [s] starts with an invocation of the [Start date] template. *)
Definition invocation_at (s : string) : Prop :=
  exists year month day after,
    s = ("{{Start date|" ++ year ++ "|" ++ month ++ "|" ++ day ++ after)%string
    /\ digits year /\ String.length year = 4
    /\ digits_1_2 month /\ digits_1_2 day.

(** The leftmost invocation of the template in [value] and its
    parameters: no invocation starts in [before], and the day has two
    digits where two are there. *)
Definition leftmost_invocation (value before year month day after : string)
  : Prop :=
  let found :=
    ("{{Start date|" ++ year ++ "|" ++ month ++ "|" ++ day ++ after)%string in
  value = (before ++ found)%string
  /\ digits year /\ String.length year = 4
  /\ digits_1_2 month /\ digits_1_2 day
  /\ (String.length day = 2 \/ head_not_digit after = true)
  /\ (forall b1 b2, before = (b1 ++ b2)%string -> b2 <> EmptyString ->
                    ~ invocation_at (b2 ++ found)).

(** [s] starts with a dot that a digit follows. *)
Definition dot_digit_head (s : string) : bool :=
  match s with
  | String c (String d _) => Ascii.eqb c "." && is_digit d
  | _ => false
  end.

(** A listing whose link carries a date of its own in its text, before
    the date of the row. *)
Definition dated_link_listing : node :=
  Tag "[document]" []
    [Tag "li" []
       [Tag "a" [("href", "91.0.4516.20/")] [Text "build 2020-01-01"];
        Text " 2023-09-10 10:00"]].

(** [a > b] on two texts is the order of the texts, character by
    character, as in Python. *)
Definition orders_texts `{Library} : Prop :=
  forall a b, py_gt (JStr a) (JStr b) = Ok (String.ltb b a).

(** The time a release is compared by when it is a text: the entry
    [PublishedTime], the empty text without one. *)
Definition release_time (item : json) : option string :=
  match item with
  | JDict entries =>
      match assoc "PublishedTime" entries with
      | Some (JStr t) => Some t
      | Some _ => None
      | None => Some EmptyString
      end
  | _ => None
  end.

(** What [fetch_edge] stores for a channel of the answer [data]: the
    null record when every product has another name; otherwise the
    fields of a release of the first product of the channel, which, when
    the times of all releases of that product are texts, is the first of
    the releases with the greatest time. *)
Definition edge_release_of `{Library} (data : json) (channel_name : string)
    (r : ReleaseInfo) : Prop :=
  let name := ("Microsoft Edge " ++ channel_name)%string in
  (r = edge_null_record
   /\ exists products,
        py_iter data = Ok products /\ Forall (other_product name) products)
  \/ exists skipped product others releases before release after,
       py_iter data = Ok (skipped ++ JDict product :: others)
       /\ Forall (other_product name) skipped
       /\ assoc "Product" product = Some (JStr name)
       /\ assoc "Releases" product = Some (JList releases)
       /\ releases = before ++ JDict release :: after
       /\ r = {| version := field release "ProductVersion";
                 version_code := JStr (py_str (field release "ReleaseId"));
                 release_date := field release "PublishedTime";
                 source := EDGE_URL |}
       /\ (Forall (fun x => release_time x <> None) releases ->
           exists time,
             release_time (JDict release) = Some time
             /\ Forall (fun x => exists t, release_time x = Some t
                                           /\ String.ltb t time = true)
                  before
             /\ Forall (fun x => exists t, release_time x = Some t
                                           /\ String.ltb time t = false)
                  after).


(** * Properties *)

(** ** The error monad *)

Lemma bind_ok {A B : Type} (r : result A) (k : A -> result B) (b : B) :
  bind r k = Ok b -> exists a, r = Ok a /\ k a = Ok b.
Proof.
  destruct r as [a|e]; simpl; intros E; [eauto | discriminate].
Qed.

Ltac inv_bind H :=
  let x := fresh "x" in
  let Hx := fresh "Hx" in
  apply bind_ok in H; destruct H as [x [Hx H]].

Ltac inv_binds H :=
  repeat (let x := fresh "x" in
          let Hx := fresh "Hx" in
          apply bind_ok in H; destruct H as [x [Hx H]]).

(** ** The shape of what the fetchers return *)

Lemma from_wikipedia_pair `{Library} w page sv sd bv bd sc bc i :
  _from_wikipedia w page sv sd bv bd sc bc = Ok i -> channel_pair i.
Proof.
  unfold _from_wikipedia. intros E. inv_binds E.
  injection E as <-. red; eauto.
Qed.

Lemma fetch_chrome_pair `{Library} w i : fetch_chrome w = Ok i -> channel_pair i.
Proof.
  unfold fetch_chrome. intros E. inv_binds E. injection E as <-. red; eauto.
Qed.

Lemma fetch_firefox_pair w i : fetch_firefox w = Ok i -> channel_pair i.
Proof.
  unfold fetch_firefox. intros E. inv_binds E. injection E as <-. red; eauto.
Qed.

Lemma fetch_opera_pair `{Library} w i : fetch_opera w = Ok i -> channel_pair i.
Proof.
  unfold fetch_opera. intros E. inv_binds E. injection E as <-. red; eauto.
Qed.

Lemma fetch_edge_pair `{Library} w i : fetch_edge w = Ok i -> channel_pair i.
Proof.
  unfold fetch_edge. intros E. inv_binds E. injection E as <-. red; eauto.
Qed.

(** C1. Whenever the aggregator returns, the snapshot has the keys
    [generated_at], [operating_systems] and [browsers]; the operating
    systems are exactly [windows], [macos], [android], [ios] and
    [ipados], the browsers exactly [chrome], [firefox], [opera], [edge],
    [safari] and [whale]; and each of them is a dict with exactly the
    keys [stable] and [beta], whatever the fields of the records hold. *)
Theorem collect_all_shape `{Library} (w : World) (snapshot : item) :
  collect_all w = Ok snapshot -> snapshot_shape snapshot.
Proof.
  unfold collect_all. intros E. inv_binds E. injection E as <-.
  unfold fetch_windows, fetch_macos, fetch_android, fetch_ios, fetch_ipados,
    fetch_safari, fetch_whale, from_wikipedia_default in *.
  repeat match goal with
         | Hf : _from_wikipedia _ _ _ _ _ _ _ _ = Ok _ |- _ =>
             apply from_wikipedia_pair in Hf
         | Hf : fetch_chrome _ = Ok _ |- _ => apply fetch_chrome_pair in Hf
         | Hf : fetch_firefox _ = Ok _ |- _ => apply fetch_firefox_pair in Hf
         | Hf : fetch_opera _ = Ok _ |- _ => apply fetch_opera_pair in Hf
         | Hf : fetch_edge _ = Ok _ |- _ => apply fetch_edge_pair in Hf
         end.
  do 3 eexists. split; [reflexivity|].
  split; [reflexivity|]. split; [reflexivity|].
  split; [simpl; repeat constructor; assumption|].
  split; [simpl; repeat constructor; assumption|].
  simpl.
  repeat match goal with
         | Hp : channel_pair _ |- _ => destruct Hp as [? [? ->]]
         end.
  repeat constructor.
Qed.

Lemma collect_all_shape_witness :
  @collect_all plain_library quiet_world = Ok quiet_snapshot
  /\ snapshot_shape quiet_snapshot.
Proof.
  split; [reflexivity|].
  apply (@collect_all_shape plain_library quiet_world quiet_snapshot).
  reflexivity.
Defined.

(** ** The JSON fetchers and missing fields *)

Lemma find_product_found name products found :
  find_product name products = Ok found ->
  found = JNull
  \/ exists entries, found = JDict entries
                     /\ assoc "Product" entries = Some (JStr name).
Proof.
  induction products as [|p rest IH]; simpl; intros E.
  - injection E as <-. now left.
  - inv_bind E. destruct (eq_str x name) eqn:Ex.
    + injection E as <-. right.
      destruct p; simpl in Hx; try discriminate.
      exists entries. split; [reflexivity|].
      destruct (assoc "Product" entries) as [v|]; injection Hx as <-.
      * destruct v; simpl in Ex; try discriminate.
        apply String.eqb_eq in Ex. now subst.
      * discriminate.
    + auto.
Qed.

(** C6, on the code.  With a Chrome milestone that has no [milestone]
    key the record holds the text [None] as its version code, not a
    null field; with an Edge product that has no [Releases] key the
    fetcher raises a [ValueError]. *)
Theorem missing_fields_of_json_sources `{Library} :
  _fetch quiet_world "Stable"
  = Ok {| version := JStr "120.0.6099.71";
          version_code := JStr "None";
          release_date := JNull;
          source := "https://chromiumdash.appspot.com/fetch_milestones" |}
  /\ edge_channel edge_products "Beta" = Raise ValueError
  /\ fetch_edge edge_world = Raise ValueError.
Proof.
  repeat split; reflexivity.
Qed.

(** C10, as stated, fails: when the response of Edge has no product for
    a channel the version code of that channel is null. *)
Lemma version_code_absent_counterexample :
  ~ (forall (L : Library) (w : World) (stable beta : ReleaseInfo),
        fetch_edge w = Ok (Dict [("stable", Release stable);
                                 ("beta", Release beta)]) ->
        version_code stable <> JNull /\ version_code beta <> JNull).
Proof.
  intros claim.
  destruct (claim plain_library quiet_world
              {| version := JNull; version_code := JNull;
                 release_date := JNull; source := EDGE_URL |}
              {| version := JNull; version_code := JNull;
                 release_date := JNull; source := EDGE_URL |}
              eq_refl) as [Hs _].
  now apply Hs.
Qed.

(** C10, amended.  The version code Chrome's fetcher produces is always
    a text, [str] of the [milestone] of the first entry, hence the text
    [None] when the entry has no such key.  The version code Edge's
    fetcher produces for a channel is null when the response has no
    product of that channel; otherwise it is a text, [str] of the
    [ReleaseId] of the selected release, hence the text [None] when the
    release has no such key. *)
Theorem version_code_of_json_sources `{Library} :
  (forall w channel r,
      _fetch w channel = Ok r ->
      exists data entry milestone,
        _request_json w
          ("https://chromiumdash.appspot.com/fetch_milestones?channel="
             ++ channel)%string = Ok data
        /\ subscript_0 data = Ok entry
        /\ py_get entry "milestone" JNull = Ok milestone
        /\ version_code r = JStr (py_str milestone)
        /\ (forall entries,
               entry = JDict entries -> assoc "milestone" entries = None ->
               version_code r = JStr "None"))
  /\ (forall data channel_name r,
         edge_channel data channel_name = Ok r ->
         exists products channel_data,
           py_iter data = Ok products
           /\ find_product ("Microsoft Edge " ++ channel_name)%string products
              = Ok channel_data
           /\ ((channel_data = JNull /\ version_code r = JNull)
               \/ (channel_data <> JNull
                   /\ exists releases release release_id,
                       py_get channel_data "Releases" (JList []) = Ok releases
                       /\ py_max releases
                            (fun item => py_get item "PublishedTime"
                                           (JStr EmptyString)) = Ok release
                       /\ py_get release "ReleaseId" JNull = Ok release_id
                       /\ version_code r = JStr (py_str release_id)
                       /\ (forall entries,
                              release = JDict entries ->
                              assoc "ReleaseId" entries = None ->
                              version_code r = JStr "None")))).
Proof.
  split.
  - intros w channel r E. unfold _fetch in E. inv_binds E.
    injection E as <-. simpl.
    exists x, x0, x2. repeat split; auto.
    intros entries -> Hm. simpl in Hx2. rewrite Hm in Hx2.
    injection Hx2 as <-. reflexivity.
  - intros data channel_name r E. unfold edge_channel in E.
    inv_bind E. inv_bind E. exists x, x0. split; [assumption|].
    split; [assumption|].
    destruct (find_product_found _ _ _ Hx0) as [-> | [entries [-> Hp]]].
    + left. simpl in E. injection E as <-. auto.
    + right. split; [discriminate|].
      assert (Ht : py_truthy (JDict entries) = true).
      { destruct entries; [discriminate | reflexivity]. }
      rewrite Ht in E. simpl negb in E. cbv iota in E.
      inv_binds E. injection E as <-. simpl version_code.
      exists x0, x1, x3. repeat split; auto.
      intros entries' -> Hm. simpl in Hx4. rewrite Hm in Hx4.
      injection Hx4 as <-. reflexivity.
Qed.

Lemma version_code_of_json_sources_witness :
  (exists r, @_fetch plain_library quiet_world "Stable" = Ok r
             /\ version_code r = JStr "None")
  /\ (exists r, @edge_channel plain_library edge_products "Stable" = Ok r
                /\ version_code r = JStr "None").
Proof.
  split.
  - eexists. split; [reflexivity|].
    destruct (proj1 (@version_code_of_json_sources plain_library)
                quiet_world "Stable" _ eq_refl)
      as [data [entry [m [Hd [He [Hm [Hv Hnone]]]]]]].
    injection Hd as <-. injection He as <-.
    exact (Hnone _ eq_refl eq_refl).
  - eexists. split; [reflexivity|].
    destruct (proj2 (@version_code_of_json_sources plain_library)
                edge_products "Stable" _ eq_refl)
      as [products [cd [Hi [Hf [[Hc _] | [_ [rels [rel [rid [Hr [Hm [Hg [Hv Hnone]]]]]]]]]]]]].
    + injection Hi as <-. vm_compute in Hf. injection Hf as <-. discriminate.
    + injection Hi as <-. vm_compute in Hf. injection Hf as <-.
      injection Hr as <-. vm_compute in Hm. injection Hm as <-.
      exact (Hnone _ eq_refl eq_refl).
Defined.

(** ** Strings *)

Lemma append_nil_r (s : string) : (s ++ EmptyString)%string = s.
Proof. induction s; simpl; congruence. Qed.

Lemma append_assoc (a b c : string) :
  ((a ++ b) ++ c)%string = (a ++ (b ++ c))%string.
Proof. induction a; simpl; congruence. Qed.

Ltac norm_append :=
  repeat first [rewrite append_assoc | progress simpl].

Lemma length_append (a b : string) :
  String.length (a ++ b) = String.length a + String.length b.
Proof. induction a; simpl; congruence. Qed.

Lemma string_forall_append f (a b : string) :
  string_forall f (a ++ b) = string_forall f a && string_forall f b.
Proof.
  induction a; simpl; [reflexivity|]. rewrite IHa. now rewrite andb_assoc.
Qed.

Lemma strip_prefix_append (p s : string) : strip_prefix p (p ++ s) = Some s.
Proof.
  induction p; simpl; [reflexivity|]. now rewrite Ascii.eqb_refl.
Qed.

Lemma strip_prefix_inv (p s r : string) :
  strip_prefix p s = Some r -> s = (p ++ r)%string.
Proof.
  revert s. induction p as [|a p IH]; simpl; intros s E.
  - congruence.
  - destruct s as [|b s]; [discriminate|].
    destruct (Ascii.eqb a b) eqn:Eab; [|discriminate].
    apply Ascii.eqb_eq in Eab. subst b. f_equal. auto.
Qed.

Lemma span_spec cls (s run rest : string) :
  span cls s = (run, rest) ->
  s = (run ++ rest)%string
  /\ string_forall cls run = true
  /\ match rest with
     | String c _ => cls c = false
     | EmptyString => True
     end.
Proof.
  revert run rest. induction s as [|c s IH]; simpl; intros run rest E.
  - injection E as <- <-. auto.
  - destruct (cls c) eqn:Ec.
    + destruct (span cls s) as [a b]. injection E as <- <-.
      destruct (IH a b eq_refl) as [-> [Ha Hb]]. simpl. rewrite Ec. auto.
    + injection E as <- <-. simpl. rewrite Ec. auto.
Qed.

Lemma span_append cls (run rest : string) :
  string_forall cls run = true ->
  match rest with
  | String c _ => cls c = false
  | EmptyString => True
  end ->
  span cls (run ++ rest) = (run, rest).
Proof.
  induction run as [|c run IH]; simpl; intros Hr Hrest.
  - destruct rest as [|c r]; [reflexivity|]. simpl. now rewrite Hrest.
  - apply andb_true_iff in Hr. destruct Hr as [Hc Hr].
    rewrite Hc, IH; auto.
Qed.

(** ** The repetitions of [Re] *)

Section Repetition.
Context {A : Type}.
Implicit Types (k : string -> string -> option A) (s : string).

(** A greedy repetition that matched consumed a run of the class within
    its bounds, and its continuation matched after it. *)
Lemma greedy_inv cls lo hi k s r :
  Re.greedy cls lo hi k s = Some r ->
  exists cap rest,
    s = (cap ++ rest)%string /\ string_forall cls cap = true
    /\ lo <= String.length cap <= hi /\ k cap rest = Some r.
Proof.
  revert lo k s. induction hi as [|hi IH]; intros lo k s E.
  - simpl in E. destruct lo; [|discriminate].
    exists EmptyString, s. simpl. repeat split; auto.
  - simpl in E.
    assert (Hstop : match lo with O => k EmptyString s | S _ => None end = Some r ->
                    exists cap rest,
                      s = (cap ++ rest)%string /\ string_forall cls cap = true
                      /\ lo <= String.length cap <= S hi /\ k cap rest = Some r).
    { intros E'. destruct lo; [|discriminate].
      exists EmptyString, s. simpl. repeat split; auto. lia. }
    destruct s as [|c s]; [auto|].
    destruct (cls c) eqn:Ec; [|auto].
    destruct (Re.greedy cls (pred lo) hi (fun cap => k (String c cap)) s)
      as [r'|] eqn:Erec; [|auto].
    injection E as <-.
    destruct (IH _ _ _ Erec) as [cap [rest [-> [Hcap [Hlen Hk]]]]].
    exists (String c cap), rest. simpl. rewrite Ec, Hcap.
    repeat split; auto; lia.
Qed.

(** When the continuation matches after the longest run, that is the
    match. *)
Lemma greedy_longest cls lo hi k s run rest r :
  span cls s = (run, rest) ->
  lo <= String.length run <= hi ->
  k run rest = Some r ->
  Re.greedy cls lo hi k s = Some r.
Proof.
  revert lo hi k run. induction s as [|c s IH]; intros lo hi k run Hspan Hlen Hk.
  - simpl in Hspan. injection Hspan as <- <-. simpl in Hlen.
    assert (lo = 0) by lia. subst lo. destruct hi; simpl; assumption.
  - simpl in Hspan. destruct (cls c) eqn:Ec.
    + destruct (span cls s) as [a b] eqn:Es. injection Hspan as <- <-.
      simpl in Hlen. destruct hi as [|hi]; [lia|]. simpl. rewrite Ec.
      rewrite (IH (pred lo) hi (fun cap => k (String c cap)) a eq_refl);
        [reflexivity | lia | assumption].
    + injection Hspan as <- <-. simpl in Hlen.
      assert (lo = 0) by lia. subst lo.
      destruct hi; simpl; [assumption|]. now rewrite Ec.
Qed.

(** When the continuation cannot match before a character of the class,
    only the longest run is a candidate. *)
Lemma greedy_det cls lo hi k s run rest :
  (forall cap c r, cls c = true -> k cap (String c r) = None) ->
  span cls s = (run, rest) ->
  String.length run <= hi ->
  Re.greedy cls lo hi k s
  = if (lo <=? String.length run)%nat then k run rest else None.
Proof.
  revert lo hi k run. induction s as [|c s IH]; intros lo hi k run Hk Hspan Hlen.
  - simpl in Hspan. injection Hspan as <- <-.
    destruct hi, lo; reflexivity.
  - simpl in Hspan. destruct (cls c) eqn:Ec.
    + destruct (span cls s) as [a b] eqn:Es. injection Hspan as <- <-.
      simpl in Hlen. destruct hi as [|hi]; [lia|].
      cbn [Re.greedy]. rewrite Ec.
      rewrite (IH (pred lo) hi (fun cap => k (String c cap)) a);
        [ | intros; apply Hk; assumption | reflexivity | lia].
      cbn [String.length].
      replace (lo <=? S (String.length a))%nat
        with (pred lo <=? String.length a)%nat
        by (destruct lo; simpl; reflexivity).
      destruct (pred lo <=? String.length a)%nat.
      * destruct (k (String c a) b); [reflexivity|].
        destruct lo; [apply Hk; assumption | reflexivity].
      * destruct lo; [apply Hk; assumption | reflexivity].
    + injection Hspan as <- <-. destruct hi, lo; simpl; try rewrite Ec; reflexivity.
Qed.

Lemma plus_inv cls k s r :
  Re.plus cls k s = Some r ->
  exists cap rest,
    s = (cap ++ rest)%string /\ string_forall cls cap = true
    /\ cap <> EmptyString /\ k cap rest = Some r.
Proof.
  unfold Re.plus. intros E.
  destruct (greedy_inv _ _ _ _ _ _ E) as [cap [rest [-> [Hc [Hl Hk]]]]].
  exists cap, rest. repeat split; auto.
  intros ->. simpl in Hl. lia.
Qed.

Lemma span_length cls s run rest :
  span cls s = (run, rest) -> String.length run <= String.length s.
Proof.
  intros E. apply span_spec in E. destruct E as [-> _].
  rewrite length_append. lia.
Qed.

Lemma plus_det cls k s run rest :
  (forall cap c r, cls c = true -> k cap (String c r) = None) ->
  span cls s = (run, rest) ->
  Re.plus cls k s
  = match run with EmptyString => None | _ => k run rest end.
Proof.
  intros Hk Hs. unfold Re.plus.
  rewrite (greedy_det cls 1 _ k s run rest Hk Hs (span_length _ _ _ _ Hs)).
  destruct run; reflexivity.
Qed.

Lemma plus_longest cls k s run rest r :
  span cls s = (run, rest) -> run <> EmptyString ->
  k run rest = Some r -> Re.plus cls k s = Some r.
Proof.
  intros Hs Hne Hk. unfold Re.plus.
  apply (greedy_longest cls 1 _ k s run rest r Hs); [|assumption].
  split; [destruct run; [congruence | simpl; lia] | eapply span_length; eauto].
Qed.

Lemma star_det cls k s run rest :
  (forall cap c r, cls c = true -> k cap (String c r) = None) ->
  span cls s = (run, rest) ->
  Re.star cls k s = k run rest.
Proof.
  intros Hk Hs. unfold Re.star.
  now rewrite (greedy_det cls 0 _ k s run rest Hk Hs (span_length _ _ _ _ Hs)).
Qed.
End Repetition.

Lemma lit_append {A : Type} (p : string) (k : string -> option A) (s : string) :
  Re.lit p k (p ++ s)%string = k s.
Proof. unfold Re.lit. now rewrite strip_prefix_append. Qed.

Lemma lit_inv {A : Type} (p : string) (k : string -> option A) (s : string) r :
  Re.lit p k s = Some r -> exists rest, s = (p ++ rest)%string /\ k rest = Some r.
Proof.
  unfold Re.lit. destruct (strip_prefix p s) as [rest|] eqn:E; [|discriminate].
  intros Hk. exists rest. split; [now apply strip_prefix_inv | assumption].
Qed.

Lemma lit_one {A : Type} (a : ascii) (k : string -> option A) (s : string) :
  Re.lit (String a EmptyString) k (String a s) = k s.
Proof. unfold Re.lit. simpl. now rewrite Ascii.eqb_refl. Qed.

Lemma lit_char_mismatch {A : Type} (a : ascii) (p : string)
    (k : string -> option A) (c : ascii) (r : string) :
  Ascii.eqb a c = false -> Re.lit (String a p) k (String c r) = None.
Proof. unfold Re.lit. simpl. now intros ->. Qed.

(** ** The version link of the Opera listing *)

Lemma digit_not_dot (c : ascii) : is_digit c = true -> Ascii.eqb "." c = false.
Proof.
  destruct c as [[] [] [] [] [] [] [] []]; simpl; intros E;
    try reflexivity; discriminate.
Qed.

Lemma lit_dot_digit {A : Type} (k : string -> option A) (c : ascii) (r : string) :
  is_digit c = true -> Re.lit "." k (String c r) = None.
Proof. intros E. apply lit_char_mismatch. now apply digit_not_dot. Qed.

Lemma span_digits_dot (d rest : string) :
  string_forall is_digit d = true ->
  span is_digit (d ++ String "." rest) = (d, String "." rest).
Proof. intros Hd. now apply span_append. Qed.

Lemma version_re_inv (bol : bool) (href v : string) :
  version_re bol href = Some v ->
  exists d1 d2 d3 tail,
    digits d1 /\ digits d2 /\ digits d3
    /\ href = (d1 ++ "." ++ d2 ++ "." ++ d3 ++ tail)%string
    /\ (v = (d1 ++ "." ++ d2 ++ "." ++ d3)%string
        \/ exists d4 rest,
             digits d4 /\ tail = ("." ++ d4 ++ rest)%string
             /\ v = (d1 ++ "." ++ d2 ++ "." ++ d3 ++ "." ++ d4)%string).
Proof.
  unfold version_re. intros E.
  apply plus_inv in E. destruct E as [d1 [r1 [-> [H1 [N1 E]]]]].
  apply lit_inv in E. destruct E as [r2 [-> E]].
  apply plus_inv in E. destruct E as [d2 [r3 [-> [H2 [N2 E]]]]].
  apply lit_inv in E. destruct E as [r4 [-> E]].
  apply plus_inv in E. destruct E as [d3 [tail [-> [H3 [N3 E]]]]].
  exists d1, d2, d3, tail. repeat split; auto.
  destruct (Re.lit "." _ tail) as [r|] eqn:E4.
  - injection E as <-. right.
    apply lit_inv in E4. destruct E4 as [r5 [-> E4]].
    apply plus_inv in E4. destruct E4 as [d4 [rest [-> [H4 [N4 E4]]]]].
    injection E4 as <-. exists d4, rest.
    repeat split; auto. now norm_append.
  - injection E as <-. left. reflexivity.
Qed.

Lemma version_re_complete (bol : bool) (d1 d2 d3 rest : string) :
  digits d1 -> digits d2 -> digits d3 ->
  exists v, version_re bol (d1 ++ "." ++ d2 ++ "." ++ d3 ++ rest)%string = Some v.
Proof.
  intros [N1 H1] [N2 H2] [N3 H3]. unfold version_re.
  rewrite (plus_det _ _ _ d1 ("." ++ d2 ++ "." ++ d3 ++ rest)%string);
    [ | intros; now apply lit_dot_digit | now apply span_digits_dot ].
  destruct d1 as [|c1 d1]; [congruence|].
  rewrite lit_append.
  rewrite (plus_det _ _ _ d2 ("." ++ d3 ++ rest)%string);
    [ | intros; now apply lit_dot_digit | now apply span_digits_dot ].
  destruct d2 as [|c2 d2]; [congruence|].
  rewrite lit_append.
  destruct (span is_digit (d3 ++ rest)%string) as [run tail] eqn:Es.
  assert (Hrun : run <> EmptyString).
  { destruct d3 as [|c3 d3]; [congruence|]. simpl in Es, H3.
    apply andb_true_iff in H3. destruct H3 as [Hc _]. rewrite Hc in Es.
    destruct (span is_digit (d3 ++ rest)%string). injection Es as <- _.
    discriminate. }
  match goal with
  | |- exists v, Re.plus _ ?k _ = Some v =>
      destruct (k run tail) as [v|] eqn:Ek
  end.
  - exists v. eapply plus_longest; eauto.
  - destruct (Re.lit "." _ tail); discriminate.
Qed.

(** A repetition whose continuation always matches takes the whole
    run. *)
Lemma plus_span_total {A : Type} cls (k : string -> string -> option A)
    (s run rest : string) :
  (forall c t, k c t <> None) ->
  span cls s = (run, rest) ->
  Re.plus cls k s = match run with
                    | EmptyString => None
                    | _ => k run rest
                    end.
Proof.
  intros Hk S. destruct run as [|c run].
  - destruct (Re.plus cls k s) as [r|] eqn:E; [|reflexivity]. exfalso.
    apply plus_inv in E. destruct E as (cap & rest' & -> & Hc & Hne & _).
    destruct cap as [|a cap]; [congruence|].
    simpl in Hc. apply andb_true_iff in Hc. destruct Hc as [Ha _].
    simpl in S. rewrite Ha in S. destruct (span cls (cap ++ rest')).
    discriminate.
  - destruct (k (String c run) rest) as [r|] eqn:K; [|now apply Hk in K].
    apply (plus_longest _ _ _ (String c run) rest); auto. discriminate.
Qed.

Lemma span_head_not_digit (s run rest : string) :
  span is_digit s = (run, rest) -> head_not_digit rest = true.
Proof.
  intros S. apply span_spec in S. destruct S as (_ & _ & H).
  destruct rest as [|c rest]; [reflexivity|]. simpl. now rewrite H.
Qed.

(** What a match of the pattern of a version link is made of, every
    component read as far as it goes. *)
Lemma version_re_inv_max (bol : bool) (href v : string) :
  version_re bol href = Some v ->
  exists d1 d2 d3 tail,
    digits d1 /\ digits d2 /\ digits d3
    /\ href = (d1 ++ "." ++ d2 ++ "." ++ d3 ++ tail)%string
    /\ head_not_digit tail = true
    /\ ((exists d4 rest,
            digits d4 /\ tail = ("." ++ d4 ++ rest)%string
            /\ head_not_digit rest = true
            /\ v = (d1 ++ "." ++ d2 ++ "." ++ d3 ++ "." ++ d4)%string)
        \/ (dot_digit_head tail = false
            /\ v = (d1 ++ "." ++ d2 ++ "." ++ d3)%string)).
Proof.
  unfold version_re. intros E.
  assert (D : forall run rest s, span is_digit s = (run, rest) ->
                                 run <> EmptyString -> digits run).
  { intros run rest s S Hne. split; [exact Hne|].
    apply span_spec in S. tauto. }
  destruct (span is_digit href) as [d1 r1] eqn:S1.
  rewrite (plus_det _ _ _ d1 r1) in E;
    [|intros; now apply lit_dot_digit | exact S1].
  destruct d1 as [|c1 d1]; [discriminate|].
  apply lit_inv in E. destruct E as (r1' & -> & E).
  destruct (span is_digit r1') as [d2 r2] eqn:S2.
  rewrite (plus_det _ _ _ d2 r2) in E;
    [|intros; now apply lit_dot_digit | exact S2].
  destruct d2 as [|c2 d2]; [discriminate|].
  apply lit_inv in E. destruct E as (r2' & -> & E).
  destruct (span is_digit r2') as [d3 r3] eqn:S3.
  rewrite (plus_span_total _ _ _ d3 r3) in E;
    [|intros c t; destruct (Re.lit _ _ t); discriminate | exact S3].
  destruct d3 as [|c3 d3]; [discriminate|].
  pose proof (D _ _ _ S1 ltac:(discriminate)) as D1.
  pose proof (D _ _ _ S2 ltac:(discriminate)) as D2.
  pose proof (D _ _ _ S3 ltac:(discriminate)) as D3.
  pose proof (span_head_not_digit _ _ _ S3) as H3.
  apply span_spec in S1, S2, S3.
  destruct S1 as (E1 & _), S2 as (E2 & _), S3 as (E3 & _).
  exists (String c1 d1), (String c2 d2), (String c3 d3), r3.
  split; [exact D1|]. split; [exact D2|]. split; [exact D3|].
  split; [rewrite E1, E2, E3; now norm_append|].
  split; [exact H3|].
  destruct r3 as [|c r3].
  - right. split; [reflexivity|]. simpl in E. now injection E as <-.
  - unfold Re.lit in E. cbn [strip_prefix] in E.
    destruct (Ascii.eqb "." c) eqn:Q.
    + apply Ascii.eqb_eq in Q. subst c.
      destruct (span is_digit r3) as [d4 r4] eqn:S4.
      rewrite (plus_span_total _ _ _ d4 r4) in E;
        [|intros; discriminate | exact S4].
      destruct d4 as [|c4 d4].
      * right. split; [|now injection E as <-].
        apply span_spec in S4. destruct S4 as (E4 & _ & H4).
        simpl in E4. subst r4. destruct r3 as [|a r3]; [reflexivity|].
        simpl. exact H4.
      * left. exists (String c4 d4), r4.
        split; [apply (D _ _ _ S4); discriminate|].
        split; [apply span_spec in S4; destruct S4 as (-> & _); reflexivity|].
        split; [exact (span_head_not_digit _ _ _ S4)|].
        injection E as <-. now norm_append.
    + right. split; [|now injection E as <-].
      simpl. destruct r3; [reflexivity|].
      rewrite Ascii.eqb_sym, Q. reflexivity.
Qed.

Lemma listing_entry_cases (link parent : node) :
  match Re.match_ version_re (tag_get link "href" EmptyString) with
  | Some v => exists date, listing_entry (link, parent) = [(v, date)]
  | None => listing_entry (link, parent) = []
  end.
Proof.
  unfold listing_entry.
  destruct (Re.match_ version_re (tag_get link "href" EmptyString)); eauto.
Qed.

(** C7, as stated, fails: a link whose target has two components is not
    collected. *)
Lemma two_component_link_counterexample :
  listing_versions two_component_listing = []
  /\ Re.match_ version_re "90.1/" = None.
Proof. split; reflexivity. Qed.

(** C7, amended.  A link is collected exactly when its target begins
    with a dotted version of three components, each a non-empty run of
    digits; every other link is skipped.  The version collected is
    read as far as it goes: each of the three components is a whole run
    of digits, and when a dot and a digit follow the third, the whole
    run of digits after that dot is the fourth component of the
    version; otherwise the version has the three components. *)
Theorem version_link_collected (link parent : node) :
  let href := tag_get link "href" EmptyString in
  (listing_entry (link, parent) = []
   \/ exists d1 d2 d3 tail date,
        digits d1 /\ digits d2 /\ digits d3
        /\ href = (d1 ++ "." ++ d2 ++ "." ++ d3 ++ tail)%string
        /\ head_not_digit tail = true
        /\ ((exists d4 rest,
                digits d4 /\ tail = ("." ++ d4 ++ rest)%string
                /\ head_not_digit rest = true
                /\ listing_entry (link, parent)
                   = [((d1 ++ "." ++ d2 ++ "." ++ d3 ++ "." ++ d4)%string,
                       date)])
            \/ (dot_digit_head tail = false
                /\ listing_entry (link, parent)
                   = [((d1 ++ "." ++ d2 ++ "." ++ d3)%string, date)])))
  /\ (listing_entry (link, parent) <> []
      <-> exists d1 d2 d3 rest,
            digits d1 /\ digits d2 /\ digits d3
            /\ href = (d1 ++ "." ++ d2 ++ "." ++ d3 ++ rest)%string).
Proof.
  intros href. pose proof (listing_entry_cases link parent) as Hc.
  fold href in Hc. unfold Re.match_ in Hc.
  destruct (version_re true href) as [v|] eqn:E.
  - destruct Hc as [date Hc].
    destruct (version_re_inv_max _ _ _ E)
      as (d1 & d2 & d3 & tail & D1 & D2 & D3 & Hh & Ht
          & [(d4 & rest & D4 & Hd & Hr & Hv) | (Hd & Hv)]).
    + split.
      * right. exists d1, d2, d3, tail, date.
        repeat (split; [assumption|]). left. exists d4, rest.
        repeat (split; [assumption|]). now rewrite <- Hv.
      * split; [|rewrite Hc; discriminate].
        intros _. exists d1, d2, d3, tail. auto.
    + split.
      * right. exists d1, d2, d3, tail, date.
        repeat (split; [assumption|]). right.
        split; [assumption|]. now rewrite <- Hv.
      * split; [|rewrite Hc; discriminate].
        intros _. exists d1, d2, d3, tail. auto.
  - split; [now left|]. split; [congruence|].
    intros (d1 & d2 & d3 & rest & D1 & D2 & D3 & Hh).
    destruct (version_re_complete true d1 d2 d3 rest D1 D2 D3) as [v Hv].
    rewrite <- Hh in Hv. congruence.
Qed.

Lemma version_link_collected_witness :
  listing_entry (Tag "a" [("href", "90.0.4480.84/")] [], Text "2023-08-01")
  <> [].
Proof.
  apply (proj2 (version_link_collected
                  (Tag "a" [("href", "90.0.4480.84/")] []) (Text "2023-08-01"))).
  exists "90", "0", "4480", ".84/".
  repeat split; try discriminate; reflexivity.
Defined.

(** ** The order on versions *)

Lemma list_ltb_irrefl (a : list Z) : list_ltb a a = false.
Proof.
  induction a as [|x a IH]; simpl; [reflexivity|]. now rewrite Z.eqb_refl.
Qed.

Lemma list_ltb_asym (a b : list Z) :
  list_ltb a b = true -> list_ltb b a = false.
Proof.
  revert b. induction a as [|x a IH]; intros [|y b]; simpl; auto.
  destruct (Z.eqb_spec x y) as [->|Hne].
  - rewrite Z.eqb_refl. auto.
  - destruct (Z.eqb_spec y x); [congruence|].
    intros Hlt. apply Z.ltb_lt in Hlt. apply Z.ltb_ge. lia.
Qed.

(** If [a < c] then any [b] is above [a] or below [c]. *)
Lemma list_ltb_cotrans (a b c : list Z) :
  list_ltb a c = true -> list_ltb a b = true \/ list_ltb b c = true.
Proof.
  revert b c. induction a as [|x a IH]; intros [|y b] [|z c]; simpl; auto;
    try discriminate.
  destruct (Z.eqb_spec x z) as [->|Hxz].
  - intros Hac. destruct (Z.eqb_spec z y) as [->|Hzy].
    + rewrite Z.eqb_refl. auto.
    + destruct (Z.eqb_spec y z); [congruence|].
      destruct (Z.ltb_spec z y); [now left|]. right. apply Z.ltb_lt. lia.
  - intros Hac. apply Z.ltb_lt in Hac.
    destruct (Z.eqb_spec x y) as [->|Hxy].
    + right. destruct (Z.eqb_spec y z); [congruence|]. now apply Z.ltb_lt.
    + destruct (Z.ltb_spec x y); [now left|]. right.
      destruct (Z.eqb_spec y z); [lia|]. apply Z.ltb_lt. lia.
Qed.

Lemma list_geb_trans (a b c : list Z) :
  list_geb a b = true -> list_geb b c = true -> list_geb a c = true.
Proof.
  unfold list_geb. rewrite !negb_true_iff. intros Hab Hbc.
  destruct (list_ltb a c) eqn:Hac; [|reflexivity].
  destruct (list_ltb_cotrans a b c Hac); congruence.
Qed.

Lemma list_ltb_geb (a b : list Z) : list_ltb a b = true -> list_geb b a = true.
Proof. intros H. unfold list_geb. now rewrite (list_ltb_asym _ _ H). Qed.

(** ** The descending stable sort *)

Section Sort.
Context {A : Type}.
Implicit Types (x : list Z * A) (l : list (list Z * A)).

Lemma insert_desc_perm x l : Permutation (x :: l) (insert_desc x l).
Proof.
  induction l as [|y l IH]; simpl; [apply Permutation_refl|].
  destruct (list_ltb (fst x) (fst y)); [|apply Permutation_refl].
  eapply perm_trans; [apply perm_swap|]. now apply perm_skip.
Qed.

Lemma sort_desc_perm l : Permutation l (sort_desc l).
Proof.
  induction l as [|x l IH]; simpl; [constructor|].
  eapply perm_trans; [|apply insert_desc_perm]. now apply perm_skip.
Qed.

Lemma insert_desc_sorted x l :
  descending fst l -> descending fst (insert_desc x l).
Proof.
  unfold descending. induction l as [|y l IH]; simpl; intros Hs.
  - repeat constructor.
  - apply StronglySorted_inv in Hs. destruct Hs as [Hl Hy].
    destruct (list_ltb (fst x) (fst y)) eqn:Hxy.
    + constructor; [auto|].
      apply Forall_forall. intros z Hz.
      apply (Permutation_in _ (Permutation_sym (insert_desc_perm x l))) in Hz.
      destruct Hz as [<- | Hz]; [now apply list_ltb_geb|].
      rewrite Forall_forall in Hy. auto.
    + constructor; [constructor; assumption|].
      constructor; [unfold list_geb; now rewrite Hxy|].
      apply Forall_forall. intros z Hz. rewrite Forall_forall in Hy.
      apply list_geb_trans with (fst y); [unfold list_geb; now rewrite Hxy | auto].
Qed.

Lemma sort_desc_sorted l : descending fst (sort_desc l).
Proof.
  induction l as [|x l IH]; simpl; [constructor|].
  now apply insert_desc_sorted.
Qed.

(** The head of the sorted list is the first element with the highest
    key: the sort is stable. *)
Lemma sort_desc_head x l :
  exists h t, sort_desc (x :: l) = h :: t /\ first_highest fst h (x :: l).
Proof.
  revert x. induction l as [|y l IH]; intros x.
  - exists x, []. split; [reflexivity|].
    exists [], []. repeat split; intros e [].
  - destruct (IH y) as (h & t & Hs & before & after & Hl & Hb & Ha).
    change (sort_desc (x :: y :: l)) with (insert_desc x (sort_desc (y :: l))).
    rewrite Hs. simpl. destruct (list_ltb (fst x) (fst h)) eqn:Hxh.
    + exists h, (insert_desc x t). split; [reflexivity|].
      exists (x :: before), after. rewrite Hl. repeat split; auto.
      intros e [<- | He]; auto.
    + exists x, (h :: t). split; [reflexivity|].
      exists [], (y :: l). repeat split; [intros e [] |].
      intros e He. rewrite Hl in He. apply in_app_or in He.
      assert (Hxh' : list_geb (fst x) (fst h) = true)
        by (unfold list_geb; now rewrite Hxh).
      destruct He as [He | [<- | He]].
      * apply list_geb_trans with (fst h); [assumption|].
        apply list_ltb_geb. auto.
      * assumption.
      * apply list_geb_trans with (fst h); auto.
Qed.
End Sort.

Lemma mapM_total {A B : Type} (f : A -> result B) (g : A -> B) (l : list A) :
  (forall e, In e l -> f e = Ok (g e)) -> mapM f l = Ok (map g l).
Proof.
  induction l as [|x l IH]; simpl; intros Hf; [reflexivity|].
  rewrite (Hf x) by auto. simpl. rewrite IH by auto. reflexivity.
Qed.

Lemma combine_map {A B : Type} (g : A -> B) (l : list A) :
  combine (map g l) l = map (fun e => (g e, e)) l.
Proof. induction l; simpl; congruence. Qed.

Lemma descending_map {A B : Type} (key : B -> list Z) (f : A -> B) (l : list A) :
  descending key (map f l) <-> descending (fun a => key (f a)) l.
Proof.
  unfold descending. induction l as [|x l IH]; simpl.
  - split; constructor.
  - split; intros Hs; apply StronglySorted_inv in Hs; destruct Hs as [Hl Hx];
      constructor; try (apply IH; assumption).
    + rewrite Forall_forall in *. intros y Hy. apply Hx. now apply in_map.
    + rewrite Forall_forall in *. intros y Hy.
      apply in_map_iff in Hy. destruct Hy as [a [<- Ha]]. auto.
Qed.

(** [l.sort(key=key, reverse=True)] on a non-empty list whose keys are
    all computed: a permutation, descending, whose head is the first
    element with the highest key. *)
Lemma py_sort_reverse_spec {A : Type} (key : A -> result (list Z))
    (total : A -> list Z) (x : A) (l : list A) :
  (forall e, In e (x :: l) -> key e = Ok (total e)) ->
  exists h t,
    py_sort_reverse key (x :: l) = Ok (h :: t)
    /\ Permutation (x :: l) (h :: t)
    /\ descending total (h :: t)
    /\ first_highest total h (x :: l).
Proof.
  intros Hkey. unfold py_sort_reverse.
  rewrite (mapM_total key total _ Hkey). cbn [bind].
  rewrite combine_map.
  set (dec := fun e : A => (total e, e)).
  change (map dec (x :: l)) with (dec x :: map dec l).
  destruct (sort_desc_head (dec x) (map dec l))
    as (h & t & Hs & before & after & Hl & Hb & Ha).
  change (dec x :: map dec l) with (map dec (x :: l)) in *.
  assert (Hsnd : forall m, map snd (map dec m) = m).
  { intros m. rewrite map_map. simpl. apply map_id. }
  assert (Hperm : Permutation (x :: l) (map snd (h :: t))).
  { rewrite <- Hs. rewrite <- (Hsnd (x :: l)) at 1.
    apply Permutation_map, sort_desc_perm. }
  assert (Hdec : forall e, In e (h :: t) -> e = dec (snd e)).
  { intros e He. rewrite <- Hs in He.
    apply (Permutation_in _ (Permutation_sym (sort_desc_perm _))) in He.
    apply in_map_iff in He. destruct He as [a [<- _]]. reflexivity. }
  rewrite Hs. exists (snd h), (map snd t). split; [reflexivity|].
  split; [exact Hperm|]. split.
  - pose proof (sort_desc_sorted (map dec (x :: l))) as Hsorted.
    rewrite Hs in Hsorted. change (snd h :: map snd t) with (map snd (h :: t)).
    apply descending_map.
    unfold descending in *. revert Hsorted Hdec.
    generalize (h :: t). intros m Hm Hd. induction Hm as [|a m Hm IH Ha'].
    + constructor.
    + constructor.
      * apply IH. intros e He. apply Hd. now right.
      * rewrite Forall_forall in *. intros b Hb'.
        specialize (Ha' b Hb').
        rewrite (Hd a (or_introl eq_refl)), (Hd b (or_intror Hb')) in Ha'.
        exact Ha'.
  - apply map_eq_app in Hl. destruct Hl as (b' & r' & Hxl & Hb' & Hr').
    apply map_eq_cons in Hr'. destruct Hr' as (h' & a' & -> & Hh' & Ha'').
    subst before after h. rewrite Hxl. simpl.
    exists b', a'. split; [reflexivity|]. split.
    + intros e He. apply (Hb (dec e)). now apply in_map.
    + intros e He. apply (Ha (dec e)). now apply in_map.
Qed.

(** ** The keys of the versions of a listing *)

Lemma digit_is_not_dot (c : ascii) : is_digit c = true -> Ascii.eqb c "." = false.
Proof.
  destruct c as [[] [] [] [] [] [] [] []]; simpl; intros E;
    try reflexivity; discriminate.
Qed.

Lemma split_digits (d : string) :
  string_forall is_digit d = true -> split "." d = [d].
Proof.
  induction d as [|c d IH]; simpl; intros Hd; [reflexivity|].
  apply andb_true_iff in Hd. destruct Hd as [Hc Hd].
  rewrite (digit_is_not_dot c Hc), (IH Hd). reflexivity.
Qed.

Lemma split_digits_dot (d s : string) :
  string_forall is_digit d = true ->
  split "." (d ++ String "." s) = d :: split "." s.
Proof.
  induction d as [|c d IH]; simpl; intros Hd; [reflexivity|].
  apply andb_true_iff in Hd. destruct Hd as [Hc Hd].
  rewrite (digit_is_not_dot c Hc), (IH Hd). reflexivity.
Qed.

Lemma py_int_digits (d : string) :
  digits d -> String.length d <= INT_MAX_STR_DIGITS ->
  py_int d = Ok (digits_value 0 d).
Proof.
  intros [Hne Hd] Hl. unfold py_int. destruct d; [congruence|].
  apply Nat.leb_le in Hl. now rewrite Hd, Hl.
Qed.

Lemma py_int_long (d : string) :
  INT_MAX_STR_DIGITS < String.length d -> py_int d = Raise ValueError.
Proof.
  intros Hl. unfold py_int. destruct d; [reflexivity|].
  apply Nat.leb_gt in Hl. rewrite Hl. now rewrite andb_false_r.
Qed.

Lemma split_concat_digits (parts : list string) :
  parts <> [] -> Forall digits parts ->
  split "." (String.concat "." parts) = parts.
Proof.
  intros Hne Hd. induction Hd as [|d parts [_ Hd] Hp IH]; [congruence|].
  destruct parts as [|d' parts].
  - simpl. now apply split_digits.
  - change (String.concat "." (d :: d' :: parts))
      with (d ++ String "." (String.concat "." (d' :: parts)))%string.
    rewrite split_digits_dot by exact Hd.
    rewrite IH; [reflexivity | discriminate].
Qed.

(** The key the sort computes for a dotted version whose parts [int]
    accepts. *)
Lemma version_key_concat (parts : list string) (date : option string) :
  parts <> [] -> Forall digits parts ->
  Forall (fun part => String.length part <= INT_MAX_STR_DIGITS) parts ->
  version_key (String.concat "." parts, date)
  = Ok (map (digits_value 0) parts).
Proof.
  intros Hne Hd Hl. unfold version_key. cbn [fst].
  rewrite split_concat_digits by assumption.
  apply mapM_total. intros e Hin. rewrite Forall_forall in Hd, Hl.
  apply py_int_digits; auto.
Qed.

Lemma version_tuple_run (d : string) (acc : Z) :
  string_forall is_digit d = true ->
  version_tuple_from acc d = [digits_value acc d].
Proof.
  revert acc. induction d as [|c d IH]; intros acc Hd; [reflexivity|].
  simpl in Hd. apply andb_true_iff in Hd. destruct Hd as [Hc Hd].
  cbn [version_tuple_from digits_value].
  rewrite (digit_is_not_dot c Hc). now apply IH.
Qed.

Lemma version_tuple_run_dot (d s : string) (acc : Z) :
  string_forall is_digit d = true ->
  version_tuple_from acc (d ++ String "." s)
  = digits_value acc d :: version_tuple_from 0 s.
Proof.
  revert acc. induction d as [|c d IH]; intros acc Hd; [reflexivity|].
  simpl in Hd. apply andb_true_iff in Hd. destruct Hd as [Hc Hd].
  cbn [String.append version_tuple_from digits_value].
  rewrite (digit_is_not_dot c Hc). now apply IH.
Qed.

(** The tuple of a dotted version is the list of the numbers its parts
    denote. *)
Lemma version_tuple_concat (parts : list string) :
  parts <> [] -> Forall digits parts ->
  version_tuple_from 0 (String.concat "." parts)
  = map (digits_value 0) parts.
Proof.
  intros Hne Hd. induction Hd as [|d parts [_ Hd] Hp IH]; [congruence|].
  destruct parts as [|d' parts].
  - simpl. now apply version_tuple_run.
  - change (String.concat "." (d :: d' :: parts))
      with (d ++ String "." (String.concat "." (d' :: parts)))%string.
    rewrite version_tuple_run_dot by exact Hd.
    rewrite IH; [reflexivity | discriminate].
Qed.

(** A collected version is a dotted list of runs of digits. *)
Lemma listing_versions_parts (soup : node) (e : string * option string) :
  In e (listing_versions soup) ->
  exists parts,
    parts <> [] /\ Forall digits parts /\ fst e = String.concat "." parts.
Proof.
  unfold listing_versions. intros He. apply in_flat_map in He.
  destruct He as [[link parent] [_ He]].
  pose proof (listing_entry_cases link parent) as Hc.
  unfold Re.match_ in Hc.
  destruct (version_re true (tag_get link "href" EmptyString)) as [v|] eqn:E.
  - destruct Hc as [date Hc]. rewrite Hc in He. destruct He as [<- | []].
    destruct (version_re_inv _ _ _ E)
      as (d1 & d2 & d3 & tail & D1 & D2 & D3 & _
          & [-> | (d4 & rest & D4 & _ & ->)]).
    + exists [d1; d2; d3]. split; [discriminate|].
      split; [|reflexivity].
      repeat (apply Forall_cons; [assumption|]). apply Forall_nil.
    + exists [d1; d2; d3; d4]. split; [discriminate|].
      split; [|reflexivity].
      repeat (apply Forall_cons; [assumption|]). apply Forall_nil.
  - rewrite Hc in He. destruct He.
Qed.

(** For a collected version whose components [int] accepts, the key
    the sort computes is the tuple of integers of the version. *)
Lemma listing_versions_keys (soup : node) (e : string * option string) :
  In e (listing_versions soup) -> parts_within_limit (fst e) = true ->
  version_key e = Ok (version_tuple e).
Proof.
  intros He Hl. destruct (listing_versions_parts soup e He)
    as (parts & Hne & Hd & Hv).
  destruct e as [v date]. cbn [fst] in Hv, Hl. subst v.
  unfold version_tuple. cbn [fst].
  rewrite version_tuple_concat by assumption.
  apply version_key_concat; try assumption.
  unfold parts_within_limit in Hl.
  rewrite split_concat_digits in Hl by assumption.
  rewrite forallb_forall in Hl. apply Forall_forall.
  intros part Hin. apply Nat.leb_le. now apply Hl.
Qed.

(** A collected version with a component longer than [int] accepts has
    no key. *)
Lemma listing_versions_long (soup : node) (e : string * option string) :
  In e (listing_versions soup) -> parts_within_limit (fst e) = false ->
  version_key e = Raise ValueError.
Proof.
  intros He Hl. destruct (listing_versions_parts soup e He)
    as (parts & Hne & Hd & Hv).
  unfold version_key. unfold parts_within_limit in Hl.
  rewrite Hv in *. rewrite split_concat_digits in * by assumption.
  clear Hv Hne He. induction Hd as [|d parts Hd Hp IH]; [discriminate|].
  cbn [forallb mapM] in *.
  destruct (String.length d <=? INT_MAX_STR_DIGITS)%nat eqn:L.
  - apply Nat.leb_le in L. rewrite (py_int_digits d Hd L). cbn [bind].
    now rewrite (IH Hl).
  - apply Nat.leb_gt in L. now rewrite (py_int_long d L).
Qed.

(** The parser is [latest_of_listing] on the tree the HTML parser builds
    from the page. *)
Lemma parse_opera_listing_page `{Library} (w : World) (url text : string)
    (soup : node) :
  _request_text w url = Ok text -> html_parser text = Ok soup ->
  _parse_opera_listing w url = latest_of_listing soup.
Proof.
  intros E P. unfold _parse_opera_listing. rewrite E. cbn [bind].
  now rewrite P.
Qed.

(** [list_ltb] decides the order of tuples. *)
Lemma list_ltb_spec (a b : list Z) : list_ltb a b = true <-> tuple_lt a b.
Proof.
  split.
  - revert b. induction a as [|x a IH]; intros [|y b]; simpl;
      try discriminate.
    + intros _. constructor.
    + destruct (Z.eqb_spec x y) as [->|Hne]; intros H.
      * apply tuple_lt_tail. now apply IH.
      * apply tuple_lt_head. now apply Z.ltb_lt.
  - induction 1 as [y b | x y a b Hxy | x a b Hab IH]; simpl.
    + reflexivity.
    + destruct (Z.eqb_spec x y); [lia|]. now apply Z.ltb_lt.
    + now rewrite Z.eqb_refl.
Qed.

(** No element of the list is above the first element with the highest
    key. *)
Lemma first_highest_top {A : Type} (key : A -> list Z) (h : A) (l : list A) :
  first_highest key h l ->
  forall e, In e l -> ~ tuple_lt (key h) (key e).
Proof.
  intros (before & after & -> & Hb & Ha) e He T.
  apply list_ltb_spec in T.
  apply in_app_or in He. destruct He as [He | [<- | He]].
  - apply Hb in He. apply list_ltb_asym in He. congruence.
  - rewrite list_ltb_irrefl in T. discriminate.
  - apply Ha in He. unfold list_geb in He. rewrite T in He. discriminate.
Qed.

(** C2, the claim as it stands: a version link with a component of
    4301 digits is collected, and the parser raises a [ValueError] where
    the sort calls [int] on that component, so it returns no pair. *)
Lemma long_component_counterexample :
  listing_versions long_component_listing <> []
  /\ latest_of_listing long_component_listing = Raise ValueError.
Proof.
  split.
  - vm_compute. discriminate.
  - vm_compute. reflexivity.
Qed.

(** C2, amended.  When the listing has version links and no component
    of a collected version has more digits than [int] accepts, the pairs
    are sorted by the version read as a tuple of integers, one for each
    dot-separated component, in descending order (a permutation of what
    was collected, each tuple at least the tuples after it) and the
    parser returns the head of the sorted list, which is the first pair
    with the highest tuple: no collected version is above it in the
    order of tuples.  On the listing with the links
    [90.0.4480.84/] (2023-08-01) and [91.0.4516.20/] (2023-09-10) that
    is [91.0.4516.20] with [2023-09-10]. *)
Theorem latest_of_listing_highest (soup : node) :
  listing_versions soup <> [] ->
  components_within_limit (listing_versions soup) = true ->
  exists v date rest,
    py_sort_reverse version_key (listing_versions soup) = Ok ((v, date) :: rest)
    /\ Permutation (listing_versions soup) ((v, date) :: rest)
    /\ descending version_tuple ((v, date) :: rest)
    /\ first_highest version_tuple (v, date) (listing_versions soup)
    /\ (forall e, In e (listing_versions soup) ->
                  ~ tuple_lt (version_tuple (v, date)) (version_tuple e))
    /\ latest_of_listing soup = Ok (Some v, date)
    /\ latest_of_listing opera_listing
       = Ok (Some "91.0.4516.20", Some "2023-09-10").
Proof.
  intros Hne Hl. unfold latest_of_listing.
  assert (Hk : forall e, In e (listing_versions soup) ->
                         version_key e = Ok (version_tuple e)).
  { intros e He. apply (listing_versions_keys soup e He).
    unfold components_within_limit in Hl. rewrite forallb_forall in Hl.
    now apply Hl. }
  destruct (listing_versions soup) as [|x l] eqn:El; [congruence|].
  destruct (py_sort_reverse_spec version_key version_tuple x l Hk)
    as ([v date] & t & Hs & Hp & Hd & Hf).
  exists v, date, t. rewrite Hs. cbn [bind].
  split; [reflexivity|]. split; [exact Hp|]. split; [exact Hd|].
  split; [exact Hf|]. split; [now apply first_highest_top|].
  split; reflexivity.
Qed.

Lemma latest_of_listing_highest_witness :
  exists v date rest,
    py_sort_reverse version_key (listing_versions opera_listing)
    = Ok ((v, date) :: rest)
    /\ first_highest version_tuple (v, date) (listing_versions opera_listing)
    /\ latest_of_listing opera_listing = Ok (Some v, date).
Proof.
  destruct (latest_of_listing_highest opera_listing)
    as (v & date & rest & Hs & _ & _ & Hf & _ & Hl & _).
  - vm_compute. discriminate.
  - vm_compute. reflexivity.
  - exists v, date, rest. auto.
Defined.

(** ** Searching *)

Section Search.
Context {A : Type}.
Implicit Types (p : bool -> string -> option A) (s : string).

Lemma search_from_inv p bol s r :
  Re.search_from bol p s = Some r ->
  exists before after bol',
    s = (before ++ after)%string /\ p bol' after = Some r.
Proof.
  revert bol. induction s as [|c s IH]; intros bol; simpl.
  - destruct (p bol EmptyString) eqn:E; [|discriminate].
    intros [= <-]. exists EmptyString, EmptyString, bol. auto.
  - destruct (p bol (String c s)) eqn:E.
    + intros [= <-]. exists EmptyString, (String c s), bol. auto.
    + intros Hs. destruct (IH _ Hs) as (before & after & bol' & -> & Hp).
      exists (String c before), after, bol'. auto.
Qed.

Lemma search_from_here p bol s r :
  p bol s = Some r -> Re.search_from bol p s = Some r.
Proof. intros E. destruct s; simpl; now rewrite E. Qed.

(** A pattern without anchors is found as soon as it matches
    somewhere. *)
Lemma search_from_found p bol before after :
  (forall b1 b2 s, p b1 s = p b2 s) ->
  p true after <> None ->
  Re.search_from bol p (before ++ after) <> None.
Proof.
  intros Hp Hm. revert bol. induction before as [|c before IH]; intros bol; simpl.
  - destruct after as [|c after]; simpl; rewrite (Hp bol true);
      destruct (p true _); congruence.
  - destruct (p bol (String c (before ++ after))); [discriminate | apply IH].
Qed.
End Search.

(** ** The date parser *)

Lemma is_digit_cases (c : ascii) :
  is_digit c = true ->
  c = "0"%char \/ c = "1"%char \/ c = "2"%char \/ c = "3"%char
  \/ c = "4"%char \/ c = "5"%char \/ c = "6"%char \/ c = "7"%char
  \/ c = "8"%char \/ c = "9"%char.
Proof.
  destruct c as [[] [] [] [] [] [] [] []]; simpl; intros E;
    try discriminate; auto 12.
Qed.

Lemma digit_not_bar (c : ascii) : is_digit c = true -> Ascii.eqb "|" c = false.
Proof.
  destruct c as [[] [] [] [] [] [] [] []]; simpl; intros E;
    try reflexivity; discriminate.
Qed.

Lemma span_digits_bar (d rest : string) :
  string_forall is_digit d = true ->
  span is_digit (d ++ String "|" rest) = (d, String "|" rest).
Proof. intros Hd. now apply span_append. Qed.

(** A bounded greedy repetition whose continuation always matches,
    matches when enough characters of the class are there. *)
Lemma greedy_total {A : Type} cls lo hi (k : string -> string -> option A)
    (cap rest : string) :
  (forall c r, k c r <> None) ->
  string_forall cls cap = true -> lo <= String.length cap -> lo <= hi ->
  Re.greedy cls lo hi k (cap ++ rest) <> None.
Proof.
  revert lo k cap. induction hi as [|hi IH]; intros lo k cap Hk Hc Hlo Hhi.
  - assert (lo = 0) by lia. subst lo. simpl. apply Hk.
  - destruct cap as [|c cap].
    + simpl in Hlo. assert (lo = 0) by lia. subst lo. simpl.
      destruct rest as [|c rest]; [apply Hk|].
      destruct (cls c); [|apply Hk].
      destruct (Re.greedy cls 0 hi _ rest); [discriminate | apply Hk].
    + simpl in Hc, Hlo. apply andb_true_iff in Hc. destruct Hc as [Hc Hcap].
      cbn [String.append Re.greedy]. rewrite Hc.
      specialize (IH (pred lo) (fun cap' => k (String c cap')) cap).
      destruct (Re.greedy cls (pred lo) hi _ (cap ++ rest));
        [discriminate|].
      exfalso. apply IH; [intros; apply Hk | assumption | lia | lia | reflexivity].
Qed.

Lemma start_date_re_inv (bol : bool) (s year month day : string) :
  start_date_re bol s = Some (year, month, day) ->
  exists after,
    s = ("{{Start date|" ++ year ++ "|" ++ month ++ "|" ++ day ++ after)%string
    /\ digits year /\ String.length year = 4
    /\ digits_1_2 month /\ digits_1_2 day.
Proof.
  unfold start_date_re. intros E.
  apply lit_inv in E. destruct E as [r0 [-> E]].
  apply greedy_inv in E. destruct E as (y & r1 & -> & Hy & Ly & E).
  apply lit_inv in E. destruct E as [r2 [-> E]].
  apply greedy_inv in E. destruct E as (m & r3 & -> & Hm & Lm & E).
  apply lit_inv in E. destruct E as [r4 [-> E]].
  apply greedy_inv in E. destruct E as (d & after & -> & Hd & Ld & E).
  injection E as <- <- <-. exists after.
  assert (Hne : forall t, 1 <= String.length t -> t <> EmptyString).
  { intros t Ht ->. simpl in Ht. lia. }
  split; [now norm_append|].
  unfold digits_1_2, digits. repeat split; auto; try lia; apply Hne; lia.
Qed.

Lemma start_date_re_complete (bol : bool) (year month day after : string) :
  digits year -> String.length year = 4 ->
  digits_1_2 month -> digits_1_2 day ->
  start_date_re bol
    ("{{Start date|" ++ year ++ "|" ++ month ++ "|" ++ day ++ after)%string
  <> None.
Proof.
  intros [_ Hy] Ly [[Nm Hm] Lm] [[Nd Hd] Ld]. unfold start_date_re.
  rewrite lit_append.
  rewrite (greedy_det _ _ _ _ _ year ("|" ++ month ++ "|" ++ day ++ after)%string);
    [ | intros; apply lit_char_mismatch; now apply digit_not_bar
      | now apply span_digits_bar | lia ].
  rewrite Ly. cbn [Nat.leb]. rewrite lit_append.
  rewrite (greedy_det _ _ _ _ _ month ("|" ++ day ++ after)%string);
    [ | intros; apply lit_char_mismatch; now apply digit_not_bar
      | now apply span_digits_bar | lia ].
  assert (Hlm : (1 <=? String.length month)%nat = true).
  { destruct month; [congruence | reflexivity]. }
  rewrite Hlm, lit_append.
  apply greedy_total; auto; try lia.
  - intros; discriminate.
  - destruct day; [congruence | simpl; lia].
Qed.

Lemma format_two_digits (d : string) :
  digits_1_2 d ->
  py_int d = Ok (digits_value 0 d)
  /\ format_02d (digits_value 0 d) = zero_pad2 d.
Proof.
  intros [Hd Hl].
  split; [apply py_int_digits; [exact Hd | unfold INT_MAX_STR_DIGITS; lia]|].
  destruct Hd as [Hne Hd].
  destruct d as [|a [|b [|c d]]]; [congruence | | | simpl in Hl; lia].
  - simpl in Hd. rewrite andb_true_r in Hd.
    destruct (is_digit_cases a Hd) as [->|[->|[->|[->|[->|[->|[->|[->|[->| ->]]]]]]]]];
      reflexivity.
  - simpl in Hd. rewrite andb_true_r in Hd.
    apply andb_true_iff in Hd. destruct Hd as [Ha Hb].
    destruct (is_digit_cases a Ha) as [->|[->|[->|[->|[->|[->|[->|[->|[->| ->]]]]]]]]];
      destruct (is_digit_cases b Hb) as [->|[->|[->|[->|[->|[->|[->|[->|[->| ->]]]]]]]]];
      reflexivity.
Qed.

(** A greedy repetition whose continuation always matches stops only
    at its upper bound or before a character that is not of the
    class. *)
Lemma greedy_total_inv {A : Type} cls lo hi (k : string -> string -> option A)
    (s : string) (r : A) :
  (forall c t, k c t <> None) ->
  Re.greedy cls lo hi k s = Some r ->
  exists cap rest,
    s = (cap ++ rest)%string /\ string_forall cls cap = true
    /\ lo <= String.length cap <= hi /\ k cap rest = Some r
    /\ (String.length cap = hi
        \/ match rest with
           | String c _ => cls c = false
           | EmptyString => True
           end).
Proof.
  revert lo k s. induction hi as [|hi IH]; intros lo k s Hk E.
  - simpl in E. destruct lo; [|destruct s; discriminate].
    exists EmptyString, s. simpl.
    assert (E' : k EmptyString s = Some r) by (destruct s; exact E).
    repeat split; auto.
  - destruct s as [|c s].
    + simpl in E. destruct lo; [|discriminate].
      exists EmptyString, EmptyString. simpl. repeat split; auto; lia.
    + cbn [Re.greedy] in E. destruct (cls c) eqn:Hc.
      * destruct (Re.greedy cls (pred lo) hi (fun cap => k (String c cap)) s)
          as [r'|] eqn:G.
        -- injection E as ->.
           apply IH in G; [|intros; apply Hk].
           destruct G as (cap & rest & -> & Hcap & Hl & Hr & Hmax).
           exists (String c cap), rest. simpl. rewrite Hc, Hcap.
           repeat split; auto; try lia. destruct Hmax; [left; lia | now right].
        -- destruct lo; [|discriminate]. exfalso.
           apply (greedy_total cls 0 hi (fun cap => k (String c cap))
                    EmptyString s); auto; try (simpl; lia).
      * destruct lo; [|discriminate].
        exists EmptyString, (String c s). simpl.
        repeat split; auto; lia.
Qed.

(** A repetition that is given as many characters of the class as its
    upper bound takes them all. *)
Lemma greedy_exact {A : Type} cls lo (k : string -> string -> option A)
    (cap rest : string) (r : A) :
  string_forall cls cap = true -> lo <= String.length cap ->
  k cap rest = Some r ->
  Re.greedy cls lo (String.length cap) k (cap ++ rest) = Some r.
Proof.
  revert lo k. induction cap as [|c cap IH]; intros lo k Hc Hl Hk.
  - simpl in Hl. assert (lo = 0) by lia. subst lo.
    simpl. destruct rest; exact Hk.
  - simpl in Hc, Hl. apply andb_true_iff in Hc. destruct Hc as [Hc Hcap].
    cbn [String.length String.append Re.greedy]. rewrite Hc.
    rewrite (IH (pred lo) (fun cap' => k (String c cap'))); auto. lia.
Qed.

Lemma head_not_digit_spec (s : string) :
  head_not_digit s = true
  <-> match s with
      | String c _ => is_digit c = false
      | EmptyString => True
      end.
Proof.
  destruct s as [|c s]; simpl; [tauto|]. apply negb_true_iff.
Qed.

(** What a match of the pattern of the template is made of; the day
    is read as far as it goes. *)
Lemma start_date_re_inv_max (bol : bool) (s year month day : string) :
  start_date_re bol s = Some (year, month, day) ->
  exists after,
    s = ("{{Start date|" ++ year ++ "|" ++ month ++ "|" ++ day ++ after)%string
    /\ digits year /\ String.length year = 4
    /\ digits_1_2 month /\ digits_1_2 day
    /\ (String.length day = 2 \/ head_not_digit after = true).
Proof.
  unfold start_date_re. intros E.
  apply lit_inv in E. destruct E as [r0 [-> E]].
  apply greedy_inv in E. destruct E as (y & r1 & -> & Hy & Ly & E).
  apply lit_inv in E. destruct E as [r2 [-> E]].
  apply greedy_inv in E. destruct E as (m & r3 & -> & Hm & Lm & E).
  apply lit_inv in E. destruct E as [r4 [-> E]].
  apply greedy_total_inv in E; [|intros; discriminate].
  destruct E as (d & after & -> & Hd & Ld & E & Hmax).
  injection E as <- <- <-. exists after.
  assert (Hne : forall t, 1 <= String.length t -> t <> EmptyString).
  { intros t Ht ->. simpl in Ht. lia. }
  split; [now norm_append|].
  split; [split; [apply Hne; lia | exact Hy]|].
  split; [lia|].
  split; [split; [split; [apply Hne; lia | exact Hm] | lia]|].
  split; [split; [split; [apply Hne; lia | exact Hd] | lia]|].
  destruct Hmax as [H2 | Hh]; [now left | right].
  now apply head_not_digit_spec.
Qed.

(** The pattern on an invocation whose day is read as far as it
    goes. *)
Lemma start_date_re_exact (bol : bool) (year month day after : string) :
  digits year -> String.length year = 4 ->
  digits_1_2 month -> digits_1_2 day ->
  String.length day = 2 \/ head_not_digit after = true ->
  start_date_re bol
    ("{{Start date|" ++ year ++ "|" ++ month ++ "|" ++ day ++ after)%string
  = Some (year, month, day).
Proof.
  intros [_ Hy] Ly [[Nm Hm] Lm] [[Nd Hd] Ld] Hmax. unfold start_date_re.
  rewrite lit_append.
  rewrite (greedy_det _ _ _ _ _ year ("|" ++ month ++ "|" ++ day ++ after)%string);
    [ | intros; apply lit_char_mismatch; now apply digit_not_bar
      | now apply span_digits_bar | lia ].
  rewrite Ly. cbn [Nat.leb]. rewrite lit_append.
  rewrite (greedy_det _ _ _ _ _ month ("|" ++ day ++ after)%string);
    [ | intros; apply lit_char_mismatch; now apply digit_not_bar
      | now apply span_digits_bar | lia ].
  assert (Hlm : (1 <=? String.length month)%nat = true).
  { destruct month; [congruence | reflexivity]. }
  rewrite Hlm, lit_append.
  assert (Hld : 1 <= String.length day).
  { destruct day; [congruence | simpl; lia]. }
  destruct Hmax as [H2 | Hh].
  - rewrite <- H2. now apply greedy_exact.
  - apply (greedy_longest _ _ _ _ _ day after); [|lia|reflexivity].
    apply span_append; [exact Hd|]. now apply head_not_digit_spec.
Qed.

Section SearchFirst.
Context {A : Type}.
Implicit Types (p : bool -> string -> option A) (s : string).

(** [re.search] reports the match at the leftmost position: the
    pattern matches at no earlier one. *)
Lemma search_from_first p bol s r :
  Re.search_from bol p s = Some r ->
  exists before after,
    s = (before ++ after)%string
    /\ p (line_start bol before) after = Some r
    /\ (forall b1 b2, before = (b1 ++ b2)%string -> b2 <> EmptyString ->
                      p (line_start bol b1) (b2 ++ after)%string = None).
Proof.
  revert bol. induction s as [|c s IH]; intros bol E.
  - simpl in E. destruct (p bol EmptyString) eqn:P; [|discriminate].
    injection E as ->. exists EmptyString, EmptyString.
    split; [reflexivity|]. split; [exact P|].
    intros b1 b2 Hb Hne. destruct b1; destruct b2; simpl in Hb; congruence.
  - simpl in E. destruct (p bol (String c s)) eqn:P.
    + injection E as ->. exists EmptyString, (String c s).
      split; [reflexivity|]. split; [exact P|].
      intros b1 b2 Hb Hne. destruct b1; destruct b2; simpl in Hb; congruence.
    + apply IH in E. destruct E as (before & after & -> & E & Hf).
      exists (String c before), after.
      split; [reflexivity|]. split; [exact E|].
      intros b1 b2 Hb Hne. destruct b1 as [|c1 b1].
      * simpl in Hb. subst b2. exact P.
      * simpl in Hb. injection Hb as <- Hb. simpl. now apply Hf.
Qed.

(** Where the pattern matches at no position of [before], the search
    goes on after it. *)
Lemma search_from_skip p bol before s :
  (forall b1 b2, before = (b1 ++ b2)%string -> b2 <> EmptyString ->
                 p (line_start bol b1) (b2 ++ s)%string = None) ->
  Re.search_from bol p (before ++ s)
  = Re.search_from (line_start bol before) p s.
Proof.
  revert bol. induction before as [|c before IH]; intros bol Hf;
    [reflexivity|].
  cbn [String.append Re.search_from line_start].
  assert (P : p bol (String c (before ++ s)) = None).
  { apply (Hf EmptyString (String c before) eq_refl). discriminate. }
  rewrite P. apply IH. intros b1 b2 Hb Hne.
  apply (Hf (String c b1) b2); [simpl; now rewrite Hb | exact Hne].
Qed.
End SearchFirst.

(** The search for the template finds the leftmost invocation. *)
Lemma search_leftmost_invocation (value before year month day after : string) :
  leftmost_invocation value before year month day after ->
  Re.search start_date_re value = Some (year, month, day).
Proof.
  intros (-> & Hy & Ly & Hm & Hd & Hmax & Hfirst). unfold Re.search.
  rewrite search_from_skip.
  - apply search_from_here. now apply start_date_re_exact.
  - intros b1 b2 Hb Hne.
    destruct (start_date_re (line_start true b1) _) as [[[y m] d]|] eqn:E;
      [|reflexivity].
    exfalso. apply (Hfirst b1 b2 Hb Hne).
    apply start_date_re_inv in E.
    destruct E as (a & E & H1 & H2 & H3 & H4).
    exists y, m, d, a. auto.
Qed.

Lemma leftmost_invocation_found (value year month day : string) :
  Re.search start_date_re value = Some (year, month, day) ->
  exists before after, leftmost_invocation value before year month day after.
Proof.
  unfold Re.search. intros E. apply search_from_first in E.
  destruct E as (before & s & -> & E & Hf).
  apply start_date_re_inv_max in E.
  destruct E as (after & -> & Hy & Ly & Hm & Hd & Hmax).
  exists before, after. unfold leftmost_invocation.
  repeat (split; [assumption || reflexivity|]).
  intros b1 b2 Hb Hne (y & m & d & a & E & H1 & H2 & H3 & H4).
  specialize (Hf b1 b2 Hb Hne). rewrite E in Hf. revert Hf.
  now apply start_date_re_complete.
Qed.

(** C4. When the value holds a [Start date] invocation the parser
    returns the year, a dash, the month padded to two digits, a dash and
    the day padded to two digits, from the parameters of the leftmost
    invocation, the day with its two digits where two are there;
    [{{Start date|2023|9|5}}] gives [2023-09-05] and
    [{{Start date|2023|12|25}}] gives [2023-12-25].  Otherwise the
    parser returns the output of the cleaner, or nothing when that
    output is empty. *)
Theorem parse_wiki_date_spec `{Library} (value : string) :
  (forall before year month day after,
      leftmost_invocation value before year month day after ->
      _parse_wiki_date value
      = Ok (Some (year ++ "-" ++ zero_pad2 month ++ "-"
                  ++ zero_pad2 day)%string))
  /\ (start_date_invocation value ->
      exists before year month day after,
        leftmost_invocation value before year month day after)
  /\ (~ start_date_invocation value ->
      _parse_wiki_date value = Ok (or_none (_clean_wikitext value)))
  /\ _parse_wiki_date "{{Start date|2023|9|5}}" = Ok (Some "2023-09-05")
  /\ _parse_wiki_date "{{Start date|2023|12|25}}" = Ok (Some "2023-12-25").
Proof.
  assert (F : start_date_invocation value ->
              Re.search start_date_re value <> None).
  { intros (before & year & month & day & after & -> & Hy & Ly & Hm & Hd).
    unfold Re.search. apply search_from_found; [reflexivity|].
    now apply start_date_re_complete. }
  split; [|split; [|split; [|split; reflexivity]]].
  - intros before year month day after L.
    pose proof L as (_ & _ & _ & Hm & Hd & _).
    unfold _parse_wiki_date. rewrite (search_leftmost_invocation _ _ _ _ _ _ L).
    destruct (format_two_digits month Hm) as [Im Fm].
    destruct (format_two_digits day Hd) as [Id Fd].
    rewrite Im, Id. cbn [bind]. now rewrite Fm, Fd.
  - intros I. apply F in I.
    destruct (Re.search start_date_re value) as [[[year month] day]|] eqn:E;
      [|congruence].
    destruct (leftmost_invocation_found _ _ _ _ E) as (before & after & L).
    now exists before, year, month, day, after.
  - intros N. unfold _parse_wiki_date.
    destruct (Re.search start_date_re value) as [[[year month] day]|] eqn:E;
      [|reflexivity].
    exfalso. apply N.
    destruct (leftmost_invocation_found _ _ _ _ E)
      as (before & after & -> & Hy & Ly & Hm & Hd & _).
    now exists before, year, month, day, after.
Qed.

Lemma parse_wiki_date_spec_witness :
  @_parse_wiki_date plain_library "since {{Start date|2023|12|25}}"
  = Ok (Some "2023-12-25").
Proof.
  apply (proj1 (@parse_wiki_date_spec plain_library
                  "since {{Start date|2023|12|25}}")
           "since " "2023" "12" "25" "}}").
  unfold leftmost_invocation.
  assert (D : forall s, s <> EmptyString -> string_forall is_digit s = true ->
                        digits s) by (intros s H1 H2; now split).
  split; [reflexivity|].
  split; [apply D; [discriminate | reflexivity]|].
  split; [reflexivity|].
  split; [split; [apply D; [discriminate | reflexivity] | simpl; lia]|].
  split; [split; [apply D; [discriminate | reflexivity] | simpl; lia]|].
  split; [now left|].
  intros b1 b2 Hb Hne (y & m & d & a & E & _).
  apply (f_equal (strip_prefix "{{")) in E.
  do 6 (destruct b1 as [|? b1];
        [simpl in Hb; subst b2; simpl in E; discriminate E
        | simpl in Hb; injection Hb as <- Hb]).
  destruct b1; destruct b2; simpl in Hb; congruence.
Defined.

(** ** The field extractor *)

(** C3, on the code.  The whitespace after [=] may be a newline, so an
    empty field makes the pattern read the following line: the
    extractor returns that line, not the rest of the line of the field
    and not the value of the next alias.  A field that holds only
    spaces at the end of the text is returned as the empty text, and
    the aliases after it are not tried. *)
Theorem extract_field_across_lines :
  _extract_wikitext_field infobox_empty_field
    ["latest_release_version"; "latest_release"]
  = Some "| latest_release_date = 2023-09-18"
  /\ _extract_wikitext_field infobox_blank_field
       ["latest_release_version"; "latest_release"]
     = Some EmptyString.
Proof. split; reflexivity. Qed.

Lemma space_not_equals (c : ascii) : is_space c = true -> Ascii.eqb "=" c = false.
Proof.
  destruct c as [[] [] [] [] [] [] [] []]; simpl; intros E;
    try reflexivity; discriminate.
Qed.

Lemma field_re_skip (key before s : string) (bol : bool) :
  no_char "|" before = true ->
  Re.search_from bol (field_re key) (before ++ s)
  = Re.search_from (line_start bol before) (field_re key) s.
Proof.
  revert bol. induction before as [|c before IH]; intros bol Hb; [reflexivity|].
  cbn [no_char string_forall] in Hb. apply andb_true_iff in Hb.
  destruct Hb as [Hc Hb]. unfold not_char in Hc. apply negb_true_iff in Hc.
  cbn [String.append Re.search_from line_start].
  assert (E : field_re key bol (String c (before ++ s)) = None).
  { unfold field_re, Re.bol_anchor. destruct bol; [|reflexivity].
    now apply lit_char_mismatch. }
  rewrite E. now apply IH.
Qed.

(** On a field whose value is on the line of the field, the extractor
    does what the pattern is meant for: it returns the value, trimmed.
    The lines before hold no [|], the key does not start with
    whitespace, the value starts with a character that is not
    whitespace and runs to the end of its line. *)
Lemma extract_field_line (before key ws1 ws2 ws3 value after : string)
    (keys : list string) :
  no_char "|" before = true -> line_start true before = true ->
  head_not_space key = true ->
  string_forall is_space ws1 = true -> string_forall is_space ws2 = true ->
  string_forall is_space ws3 = true ->
  head_not_space value = true -> no_char newline value = true ->
  at_line_end after = true ->
  _extract_wikitext_field
    (before ++ "|" ++ ws1 ++ key ++ ws2 ++ "=" ++ ws3 ++ value ++ after)
    (key :: keys)
  = Some (strip value).
Proof.
  intros Hb Hl Hk H1 H2 H3 Hv Hn Ha. cbn [_extract_wikitext_field].
  unfold Re.search. rewrite field_re_skip by assumption. rewrite Hl.
  assert (E : field_re key true
                ("|" ++ ws1 ++ key ++ ws2 ++ "=" ++ ws3 ++ value ++ after)
              = Some value).
  { unfold field_re, Re.bol_anchor. rewrite lit_append.
    destruct key as [|k key]; [discriminate|]. simpl in Hk.
    apply negb_true_iff in Hk.
    rewrite (star_det _ _ _ ws1
               (String k key ++ ws2 ++ "=" ++ ws3 ++ value ++ after)%string).
    2:{ intros cap c r Hc. apply lit_char_mismatch.
        destruct (Ascii.eqb_spec k c) as [->|]; [congruence | reflexivity]. }
    2:{ apply span_append; [assumption|]. exact Hk. }
    rewrite lit_append.
    rewrite (star_det _ _ _ ws2 ("=" ++ ws3 ++ value ++ after)%string).
    2:{ intros cap c r Hc. apply lit_char_mismatch. now apply space_not_equals. }
    2:{ apply span_append; [assumption | reflexivity]. }
    rewrite lit_append.
    destruct value as [|v value]; [discriminate|]. simpl in Hv.
    apply negb_true_iff in Hv.
    unfold Re.star.
    apply (greedy_longest _ _ _ _ _ ws3 (String v value ++ after)%string).
    - apply span_append; [assumption | exact Hv].
    - split; [lia|]. rewrite length_append. lia.
    - apply (plus_longest _ _ _ (String v value) after).
      + apply span_append; [exact Hn|].
        destruct after as [|a after]; [exact I|]. simpl in Ha.
        unfold not_char. apply negb_false_iff.
        apply Ascii.eqb_eq in Ha. subst a. reflexivity.
      + discriminate.
      + unfold Re.eol. destruct after as [|a after]; [reflexivity|].
        simpl in Ha. now rewrite Ha. }
  now rewrite (search_from_here _ _ _ _ E).
Qed.

(** ** The cleaner *)

Lemma lstrip_head (s : string) :
  match lstrip s with
  | String c _ => is_space c = false
  | EmptyString => True
  end.
Proof.
  induction s as [|c s IH]; simpl; [exact I|].
  destruct (is_space c) eqn:E; [exact IH | exact E].
Qed.

Lemma lstrip_empty (s : string) :
  lstrip s = EmptyString <-> string_forall is_space s = true.
Proof.
  induction s as [|c s IH]; simpl; [tauto|].
  destruct (is_space c); simpl; [exact IH|]. split; discriminate.
Qed.

Lemma rstrip_empty (s : string) :
  rstrip s = EmptyString <-> string_forall is_space s = true.
Proof.
  induction s as [|c s IH]; simpl; [tauto|].
  destruct (rstrip s) eqn:E.
  - destruct (is_space c); simpl; [|split; discriminate].
    split; intros _; [now apply IH | reflexivity].
  - split; [discriminate|]. intros H. apply andb_true_iff in H.
    destruct H as [_ H]. apply IH in H. discriminate.
Qed.

Lemma rstrip_idem (s : string) : rstrip (rstrip s) = rstrip s.
Proof.
  induction s as [|c s IH]; simpl; [reflexivity|].
  destruct (rstrip s) as [|d r] eqn:E.
  - destruct (is_space c) eqn:Ec; simpl; [reflexivity | now rewrite Ec].
  - cbn [rstrip] in *. rewrite IH. reflexivity.
Qed.

Lemma rstrip_head (c : ascii) (s : string) :
  is_space c = false -> exists r, rstrip (String c s) = String c r.
Proof.
  intros Ec. simpl. destruct (rstrip s); [rewrite Ec|]; eauto.
Qed.

Lemma strip_idem (s : string) : strip (strip s) = strip s.
Proof.
  unfold strip. pose proof (lstrip_head s) as Hh.
  destruct (lstrip s) as [|c t]; [reflexivity|].
  destruct (rstrip_head c t Hh) as [r Hr].
  rewrite Hr. cbn [lstrip]. rewrite Hh, <- Hr. apply rstrip_idem.
Qed.

Lemma strip_empty (s : string) :
  strip s = EmptyString <-> string_forall is_space s = true.
Proof.
  unfold strip. rewrite rstrip_empty.
  induction s as [|c s IH]; simpl; [tauto|].
  destruct (is_space c) eqn:Ec; simpl; [exact IH | now rewrite Ec].
Qed.

(** C8, as stated, fails: a value that is only a reference is cleaned
    to the empty text, and the Wikipedia fetchers store that empty text
    as the version and the version code. *)
Lemma clean_wikitext_empty_counterexample :
  ~ (forall (L : Library) (value : string), _clean_wikitext value <> EmptyString)
  /\ @fetch_windows plain_library reference_only_world
     = Ok (Dict
             [("stable", Release
                 {| version := JStr EmptyString;
                    version_code := JStr EmptyString;
                    release_date := JNull;
                    source := "https://en.wikipedia.org/wiki/Windows_11" |});
              ("beta", Release
                 {| version := JNull;
                    version_code := JNull;
                    release_date := JNull;
                    source := "https://en.wikipedia.org/wiki/Windows_11" |})]).
Proof.
  split; [|reflexivity].
  intros claim. now apply (claim plain_library "<ref>x</ref>").
Qed.

(** C8, amended.  The cleaner always returns a text: what the markup
    stripper leaves of the value without its references, with the
    whitespace at both ends removed.  That text is empty exactly when
    the stripper leaves nothing but whitespace, and it is then the
    empty text, not an absent value; the date parser is where an empty
    cleaned text becomes absent. *)
Theorem clean_wikitext_text `{Library} (value : string) :
  let cleaned := _clean_wikitext value in
  strip cleaned = cleaned
  /\ (cleaned = EmptyString
      <-> string_forall is_space (strip_code (remove_refs value)) = true)
  /\ (Re.search start_date_re value = None ->
      _parse_wiki_date value = Ok (or_none cleaned))
  /\ (or_none cleaned = None <-> cleaned = EmptyString).
Proof.
  unfold _clean_wikitext. cbv zeta.
  split; [apply strip_idem|]. split; [apply strip_empty|]. split.
  - intros Es. unfold _parse_wiki_date. rewrite Es. reflexivity.
  - destruct (strip _); simpl; split; congruence.
Qed.

Lemma clean_wikitext_text_witness :
  @_parse_wiki_date plain_library "<ref>x</ref>" = Ok None
  /\ @_parse_wiki_date plain_library " 2023 " = Ok (Some "2023").
Proof.
  split.
  - exact (proj1 (proj2 (proj2 (@clean_wikitext_text plain_library "<ref>x</ref>")))
             eq_refl).
  - exact (proj1 (proj2 (proj2 (@clean_wikitext_text plain_library " 2023 ")))
             eq_refl).
Defined.

(** ** Removing the references *)

Lemma sub_from_drop (p : string -> option string) (x s : string) :
  Re.sub_from p (String.length x) (x ++ s) = Re.sub_from p 0 s.
Proof. induction x as [|c x IH]; simpl; [reflexivity | exact IH]. Qed.

Lemma sub_match (p : string -> option string) (c : ascii) (x rest : string) :
  p (String c x ++ rest)%string = Some rest ->
  Re.sub p (String c x ++ rest) = Re.sub p rest.
Proof.
  intros Hp. unfold Re.sub. cbn [String.append Re.sub_from] in *. rewrite Hp.
  replace (String.length (String c (x ++ rest)) - String.length rest)
    with (S (String.length x))
    by (cbn [String.length]; rewrite length_append; lia).
  apply sub_from_drop.
Qed.

Lemma sub_nomatch (p : string -> option string) (c : ascii) (s : string) :
  p (String c s) = None -> Re.sub p (String c s) = String c (Re.sub p s).
Proof. intros Hp. unfold Re.sub. simpl. now rewrite Hp. Qed.

(** Text without [<] is kept by a substitution whose pattern starts
    with [<]. *)
Lemma sub_text (p : string -> option string) (t s : string) :
  (forall c r, Ascii.eqb "<" c = false -> p (String c r) = None) ->
  no_char "<" t = true ->
  Re.sub p (t ++ s) = (t ++ Re.sub p s)%string.
Proof.
  intros Hp. induction t as [|c t IH]; simpl; intros Ht; [reflexivity|].
  apply andb_true_iff in Ht. destruct Ht as [Hc Ht].
  unfold not_char in Hc. apply negb_true_iff in Hc.
  rewrite sub_nomatch by (apply Hp; assumption). now rewrite IH.
Qed.

Lemma ref_block_re_other (c : ascii) (r : string) :
  Ascii.eqb "<" c = false -> ref_block_re (String c r) = None.
Proof. apply lit_char_mismatch. Qed.

Lemma ref_selfclosing_re_other (c : ascii) (r : string) :
  Ascii.eqb "<" c = false -> ref_selfclosing_re (String c r) = None.
Proof. apply lit_char_mismatch. Qed.

(** [.*?] followed by a literal finds the first occurrence of the
    literal. *)
Lemma lazy_any_after_first (p s : string) (hi : nat) :
  String.length s <= hi ->
  Re.lazy any_char 0 hi (fun _ => Re.lit p (fun rest => Some rest)) s
  = after_first p s.
Proof.
  revert hi. induction s as [|c s IH]; intros hi Hhi.
  - destruct hi; simpl; unfold Re.lit; destruct (strip_prefix p EmptyString);
      reflexivity.
  - destruct hi as [|hi]; [simpl in Hhi; lia|].
    cbn [Re.lazy after_first Nat.pred any_char]. unfold Re.lit at 1.
    destruct (strip_prefix p (String c s)); [reflexivity|].
    apply IH. simpl in Hhi. lia.
Qed.

(** [[^>]*?>] reads up to the first [>]. *)
Lemma lazy_upto_gt {A : Type} (K : string -> option A) (attrs tail : string)
    (hi : nat) :
  no_char ">" attrs = true -> String.length attrs <= hi ->
  Re.lazy (not_char ">") 0 hi (fun _ => Re.lit ">" K) (attrs ++ String ">" tail)
  = K tail.
Proof.
  revert hi. induction attrs as [|c attrs IH]; intros hi Ha Hhi.
  - cbn [String.append]. destruct hi; cbn [Re.lazy]; rewrite lit_one;
      destruct (K tail); reflexivity.
  - simpl in Ha. apply andb_true_iff in Ha. destruct Ha as [Hc Ha].
    destruct hi as [|hi]; [simpl in Hhi; lia|].
    cbn [String.append Re.lazy Nat.pred].
    rewrite lit_char_mismatch
      by (unfold not_char in Hc; now apply negb_true_iff in Hc).
    rewrite Hc. apply IH; [assumption | simpl in Hhi; lia].
Qed.

Lemma ref_block_re_open (attrs tail : string) :
  no_char ">" attrs = true ->
  ref_block_re ("<ref" ++ attrs ++ String ">" tail)
  = after_first "</ref>" tail.
Proof.
  intros Ha. unfold ref_block_re. rewrite lit_append.
  unfold Re.lazy_star at 1.
  rewrite lazy_upto_gt; [|assumption|rewrite length_append; lia].
  unfold Re.lazy_star. now apply lazy_any_after_first.
Qed.

Lemma after_first_text (p' t s : string) :
  no_char "<" t = true ->
  after_first (String "<" p') (t ++ s) = after_first (String "<" p') s.
Proof.
  induction t as [|c t IH]; intros Ht; [reflexivity|].
  cbn [no_char string_forall] in Ht.
  apply andb_true_iff in Ht. destruct Ht as [Hc Ht].
  unfold not_char in Hc. apply negb_true_iff in Hc.
  cbn [String.append after_first strip_prefix]. rewrite Hc. auto.
Qed.

Lemma after_first_none (p' t : string) :
  no_char "<" t = true -> after_first (String "<" p') t = None.
Proof.
  intros Ht. rewrite <- (append_nil_r t). now rewrite after_first_text.
Qed.

Lemma after_first_length (p s r : string) :
  after_first p s = Some r -> String.length r <= String.length s.
Proof.
  induction s as [|c s IH]; cbn [after_first].
  - destruct (strip_prefix p EmptyString) eqn:E; [|discriminate].
    intros [= <-]. apply strip_prefix_inv in E.
    destruct p; simpl in E; [subst; simpl; lia | discriminate].
  - destruct (strip_prefix p (String c s)) eqn:E.
    + intros [= <-]. apply strip_prefix_inv in E.
      rewrite E, length_append. lia.
    + intros Hr. apply IH in Hr. cbn [String.length]. lia.
Qed.

Lemma no_char_append (c : ascii) (a b : string) :
  no_char c (a ++ b) = no_char c a && no_char c b.
Proof. apply string_forall_append. Qed.

Lemma after_first_inv (p s r : string) :
  after_first p s = Some r -> exists before, s = (before ++ p ++ r)%string.
Proof.
  induction s as [|c s IH]; cbn [after_first].
  - destruct (strip_prefix p EmptyString) eqn:E; [|discriminate].
    intros [= <-]. apply strip_prefix_inv in E. exists EmptyString. exact E.
  - destruct (strip_prefix p (String c s)) eqn:E.
    + intros [= <-]. apply strip_prefix_inv in E. exists EmptyString. exact E.
    + intros Hr. destruct (IH Hr) as [before ->].
      exists (String c before). reflexivity.
Qed.

Lemma string_forall_and (f g : ascii -> bool) (s : string) :
  string_forall (fun c => f c && g c) s = string_forall f s && string_forall g s.
Proof.
  induction s as [|c s IH]; simpl; [reflexivity|]. rewrite IH.
  destruct (f c), (g c), (string_forall f s); reflexivity.
Qed.

Lemma ref_selfclosing_re_tag (attrs rest : string) :
  no_char "/" attrs = true -> no_char ">" attrs = true ->
  ref_selfclosing_re ("<ref" ++ attrs ++ "/>" ++ rest) = Some rest.
Proof.
  intros H1 H2. unfold ref_selfclosing_re. rewrite lit_append.
  rewrite (star_det _ _ _ attrs ("/>" ++ rest)%string).
  - now rewrite lit_append.
  - intros cap c r Hc. apply lit_char_mismatch.
    apply andb_true_iff in Hc. destruct Hc as [Hc _].
    unfold not_char in Hc. now apply negb_true_iff in Hc.
  - apply span_append; [|reflexivity].
    rewrite string_forall_and. unfold no_char in H1, H2. now rewrite H1, H2.
Qed.

(** ** Substrings *)

Lemma strip_prefix_extend (p s r b : string) :
  strip_prefix p s = Some r -> strip_prefix p (s ++ b) = Some (r ++ b)%string.
Proof.
  revert s. induction p as [|a p IH]; intros s; simpl.
  - now intros [= ->].
  - destruct s as [|c s]; [discriminate|]. simpl.
    destruct (Ascii.eqb a c); [apply IH | discriminate].
Qed.

Lemma contains_append_l (p s b : string) :
  contains p s = true -> contains p (s ++ b) = true.
Proof.
  induction s as [|c s IH]; cbn [contains].
  - destruct (strip_prefix p EmptyString) eqn:E; [|discriminate]. intros _.
    apply (strip_prefix_extend _ _ _ b) in E. cbn [String.append] in *.
    destruct b; cbn [contains]; now rewrite E.
  - destruct (strip_prefix p (String c s)) eqn:E.
    + intros _. apply (strip_prefix_extend _ _ _ b) in E.
      cbn [String.append contains] in *. now rewrite E.
    + intros Hs. cbn [String.append contains].
      destruct (strip_prefix p (String c (s ++ b))); [reflexivity | auto].
Qed.

Lemma contains_append_r (p a s : string) :
  contains p s = true -> contains p (a ++ s) = true.
Proof.
  intros Hs. induction a as [|c a IH]; [exact Hs|].
  cbn [String.append contains].
  destruct (strip_prefix p (String c (a ++ s))); [reflexivity | exact IH].
Qed.

Lemma lstrip_suffix (s : string) : exists a, s = (a ++ lstrip s)%string.
Proof.
  induction s as [|c s [a IH]]; [now exists EmptyString|]. simpl.
  destruct (is_space c); [|now exists EmptyString].
  exists (String c a). simpl. now rewrite <- IH.
Qed.

Lemma rstrip_prefix (s : string) : exists b, s = (rstrip s ++ b)%string.
Proof.
  induction s as [|c s [b IH]]; [now exists EmptyString|]. simpl.
  destruct (rstrip s) as [|d r] eqn:E.
  - destruct (is_space c).
    + exists (String c s). reflexivity.
    + exists b. simpl. now rewrite IH at 1.
  - exists b. simpl. now rewrite IH at 1.
Qed.

Lemma contains_strip (p s : string) :
  contains p (strip s) = true -> contains p s = true.
Proof.
  unfold strip. intros H.
  destruct (lstrip_suffix s) as [a Ha]. rewrite Ha.
  apply contains_append_r.
  destruct (rstrip_prefix (lstrip s)) as [b Hb]. rewrite Hb.
  now apply contains_append_l.
Qed.

(** ** Values whose references are well formed *)

Lemma strip_prefix_app_cases (p a s r : string) :
  strip_prefix p (a ++ s) = Some r ->
  (exists r', strip_prefix p a = Some r')
  \/ (exists p2, strip_prefix a p = Some p2).
Proof.
  revert a. induction p as [|x p IH]; intros a E.
  - left. now exists a.
  - destruct a as [|y a]; [right; now exists (String x p)|].
    cbn [String.append strip_prefix] in *.
    destruct (Ascii.eqb x y) eqn:Q; [|discriminate].
    rewrite Ascii.eqb_sym, Q. now apply IH.
Qed.

Lemma strip_prefix_of_prefix (u b p r : string) :
  strip_prefix (u ++ b) p = Some r -> exists r', strip_prefix u p = Some r'.
Proof.
  revert p. induction u as [|x u IH]; intros p E; [now exists p|].
  destruct p as [|y p]; [discriminate|].
  cbn [String.append strip_prefix] in *.
  destruct (Ascii.eqb x y); [now apply IH | discriminate].
Qed.

Lemma strip_prefix_same (a p s : string) :
  strip_prefix (a ++ p) (a ++ s) = strip_prefix p s.
Proof.
  induction a as [|c a IH]; [reflexivity|].
  cbn [String.append strip_prefix]. now rewrite Ascii.eqb_refl.
Qed.

Lemma strip_prefix_refl (p : string) : strip_prefix p p = Some EmptyString.
Proof.
  rewrite <- (append_nil_r p) at 2. apply strip_prefix_append.
Qed.

Lemma opens_ref_false (u s : string) :
  opens_ref u = false -> strip_prefix "<ref" (u ++ s) = None.
Proof.
  intros H. destruct (strip_prefix "<ref" (u ++ s)) as [r|] eqn:E;
    [|reflexivity].
  apply strip_prefix_app_cases in E. unfold opens_ref in H.
  destruct E as [(r' & E) | (p2 & E)]; rewrite E in H;
    [|destruct (strip_prefix "<ref" u)]; discriminate.
Qed.

Lemma opens_ref_app (u b : string) :
  opens_ref u = false -> opens_ref (u ++ b) = false.
Proof.
  intros H. unfold opens_ref. rewrite (opens_ref_false u b H).
  destruct (strip_prefix (u ++ b) "<ref") as [r|] eqn:E; [|reflexivity].
  apply strip_prefix_of_prefix in E. destruct E as (r' & E).
  unfold opens_ref in H. rewrite E in H.
  destruct (strip_prefix "<ref" u); discriminate.
Qed.

Lemma ref_free_cons (c : ascii) (t : string) :
  ref_free (String c t) = true ->
  opens_ref (String c t) = false /\ ref_free t = true.
Proof.
  cbn [ref_free]. intros H. apply andb_true_iff in H.
  destruct H as [H1 H2]. apply negb_true_iff in H1. now split.
Qed.

Lemma ref_free_app (a b : string) :
  ref_free a = true -> ref_free b = true -> ref_free (a ++ b) = true.
Proof.
  intros Ha Hb. induction a as [|c a IH]; [exact Hb|].
  apply ref_free_cons in Ha. destruct Ha as [Ho Ha].
  change (String c a ++ b)%string with (String c (a ++ b)).
  cbn [ref_free].
  change (String c (a ++ b)) with (String c a ++ b)%string.
  rewrite (opens_ref_app _ b Ho), (IH Ha). reflexivity.
Qed.

Lemma ref_free_suffix (a b : string) :
  ref_free (a ++ b) = true -> ref_free b = true.
Proof.
  induction a as [|c a IH]; [auto|]. intros H.
  change (String c a ++ b)%string with (String c (a ++ b)) in H.
  apply ref_free_cons in H. now apply IH.
Qed.

Lemma ref_free_contains (t : string) :
  ref_free t = true -> contains "<ref" t = false.
Proof.
  induction t as [|c t IH]; [reflexivity|]. intros H.
  apply ref_free_cons in H. destruct H as [Ho Ht].
  cbn [contains].
  rewrite <- (append_nil_r (String c t)) at 1.
  rewrite (opens_ref_false _ EmptyString Ho). now apply IH.
Qed.

Lemma no_lt_ref_free (t : string) :
  no_char "<" t = true -> ref_free t = true.
Proof.
  induction t as [|c t IH]; [reflexivity|]. intros H.
  cbn [no_char string_forall] in H. apply andb_true_iff in H.
  destruct H as [Hc Ht]. unfold not_char in Hc. apply negb_true_iff in Hc.
  cbn [ref_free]. rewrite (IH Ht), andb_true_r.
  unfold opens_ref. cbn [strip_prefix]. rewrite Hc.
  now rewrite Ascii.eqb_sym, Hc.
Qed.

(** Text in which no [<ref] starts is kept by a substitution whose
    pattern starts with [<ref]. *)
Lemma sub_ref_free (p : string -> option string) (t s : string) :
  (forall u, strip_prefix "<ref" u = None -> p u = None) ->
  ref_free t = true ->
  Re.sub p (t ++ s) = (t ++ Re.sub p s)%string.
Proof.
  intros Hp. induction t as [|c t IH]; intros Ht; [reflexivity|].
  apply ref_free_cons in Ht. destruct Ht as [Ho Ht].
  change (String c t ++ s)%string with (String c (t ++ s)).
  rewrite sub_nomatch.
  - rewrite (IH Ht). reflexivity.
  - apply Hp. change (String c (t ++ s)) with (String c t ++ s)%string.
    now apply opens_ref_false.
Qed.

Lemma ref_block_re_start (u : string) :
  strip_prefix "<ref" u = None -> ref_block_re u = None.
Proof. intros H. unfold ref_block_re, Re.lit. now rewrite H. Qed.

Lemma ref_selfclosing_re_start (u : string) :
  strip_prefix "<ref" u = None -> ref_selfclosing_re u = None.
Proof. intros H. unfold ref_selfclosing_re, Re.lit. now rewrite H. Qed.

Lemma after_first_contains (p s : string) :
  contains p s = false -> after_first p s = None.
Proof.
  induction s as [|c s IH]; cbn [contains after_first].
  - destruct (strip_prefix p EmptyString); [discriminate | reflexivity].
  - destruct (strip_prefix p (String c s)); [discriminate | exact IH].
Qed.

Lemma after_first_min_length (p s r : string) :
  after_first p s = Some r -> String.length p <= String.length s.
Proof.
  intros E. apply after_first_inv in E. destruct E as (before & ->).
  rewrite !length_append. lia.
Qed.

(** No end of [</ref>] but the empty one starts with [<]. *)
Lemma close_tag_overlap (a p2 s : string) :
  a <> EmptyString -> p2 <> EmptyString ->
  "</ref>" = (a ++ p2)%string ->
  strip_prefix p2 (String "<" s) = None.
Proof.
  intros Ha Hp E.
  destruct a as [|a1 a]; [congruence|]. simpl in E. injection E as <- E.
  destruct a as [|a2 a]; [simpl in E; now subst p2|].
  simpl in E. injection E as <- E.
  destruct a as [|a3 a]; [simpl in E; now subst p2|].
  simpl in E. injection E as <- E.
  destruct a as [|a4 a]; [simpl in E; now subst p2|].
  simpl in E. injection E as <- E.
  destruct a as [|a5 a]; [simpl in E; now subst p2|].
  simpl in E. injection E as <- E.
  destruct a as [|a6 a]; [simpl in E; now subst p2|].
  simpl in E. injection E as <- E.
  destruct a; destruct p2; simpl in E; congruence.
Qed.

(** The first [</ref>] of a text that holds one is its first [</ref>]
    whatever follows the text. *)
Lemma after_first_extend (p a x r : string) :
  after_first p a = Some r -> after_first p (a ++ x) = Some (r ++ x)%string.
Proof.
  induction a as [|c a IH]; intros E.
  - cbn [after_first] in E.
    destruct (strip_prefix p EmptyString) as [r0|] eqn:S; [|discriminate].
    injection E as <-. apply (strip_prefix_extend _ _ _ x) in S.
    cbn [String.append] in *. destruct x; cbn [after_first]; now rewrite S.
  - cbn [after_first] in E. cbn [String.append after_first].
    destruct (strip_prefix p (String c a)) as [r0|] eqn:S.
    + injection E as <-. apply (strip_prefix_extend _ _ _ x) in S.
      cbn [String.append] in S. now rewrite S.
    + destruct (strip_prefix p (String c (a ++ x))) as [r1|] eqn:S'.
      * exfalso.
        change (String c (a ++ x)) with (String c a ++ x)%string in S'.
        apply strip_prefix_app_cases in S'.
        destruct S' as [(r' & S') | (p2 & S')]; [congruence|].
        apply strip_prefix_inv in S'. apply after_first_min_length in E.
        rewrite S', length_append in E. cbn [String.length] in E. lia.
      * now apply IH.
Qed.

(** A text without [</ref>] before a [<]: the first [</ref>] is looked
    for from that [<] on. *)
Lemma after_first_close_skip (a s : string) :
  after_first "</ref>" a = None ->
  after_first "</ref>" (a ++ String "<" s)
  = after_first "</ref>" (String "<" s).
Proof.
  induction a as [|c a IH]; intros E; [reflexivity|].
  cbn [after_first] in E.
  destruct (strip_prefix "</ref>" (String c a)) as [r0|] eqn:S;
    [discriminate|].
  change (String c a ++ String "<" s)%string
    with (String c (a ++ String "<" s)).
  cbn [after_first].
  destruct (strip_prefix "</ref>" (String c (a ++ String "<" s)))
    as [r1|] eqn:S'; [|now apply IH].
  exfalso.
  change (String c (a ++ String "<" s))
    with (String c a ++ String "<" s)%string in S'.
  pose proof S' as S''. apply strip_prefix_app_cases in S''.
  destruct S'' as [(r' & F) | (p2 & F)]; [congruence|].
  apply strip_prefix_inv in F.
  destruct p2 as [|x p2].
  - rewrite append_nil_r in F. rewrite <- F, strip_prefix_refl in S.
    discriminate.
  - rewrite F, strip_prefix_same in S'.
    rewrite (close_tag_overlap (String c a) (String x p2) s) in S';
      [discriminate | discriminate | discriminate | exact F].
Qed.

Lemma after_first_ref_free (t r : string) :
  ref_free t = true -> after_first "</ref>" t = Some r -> ref_free r = true.
Proof.
  intros Ht E. apply after_first_inv in E. destruct E as (before & ->).
  apply ref_free_suffix in Ht. now apply ref_free_suffix in Ht.
Qed.

(** The first [</ref>] of a text before a [<] lies in the text or is
    looked for from that [<] on. *)
Lemma after_first_close_cases (t z r : string) :
  after_first "</ref>" (t ++ String "<" z) = Some r ->
  (exists r', after_first "</ref>" t = Some r'
              /\ r = (r' ++ String "<" z)%string)
  \/ after_first "</ref>" (String "<" z) = Some r.
Proof.
  intros E. destruct (after_first "</ref>" t) as [r'|] eqn:T.
  - left. exists r'. split; [reflexivity|].
    rewrite (after_first_extend _ _ (String "<" z) _ T) in E. congruence.
  - right. now rewrite after_first_close_skip in E.
Qed.

(** The first [</ref>] of a reference block is its own. *)
Lemma after_first_block (attrs body rest : string) :
  no_char "<" attrs = true -> contains "</ref>" body = false ->
  after_first "</ref>" ("<ref" ++ attrs ++ ">" ++ body ++ "</ref>" ++ rest)
  = Some rest.
Proof.
  intros Ha Hb.
  change ("<ref" ++ attrs ++ ">" ++ body ++ "</ref>" ++ rest)%string
    with (String "<" ("ref" ++ attrs ++ ">" ++ body ++ "</ref>" ++ rest))%string.
  cbn [after_first strip_prefix Ascii.eqb Bool.eqb].
  rewrite (after_first_text _ "ref") by reflexivity.
  rewrite after_first_text by assumption.
  rewrite (after_first_text _ ">") by reflexivity.
  change ("</ref>" ++ rest)%string with (String "<" ("/ref>" ++ rest)).
  rewrite after_first_close_skip by now apply after_first_contains.
  cbn [String.append after_first strip_prefix]. now rewrite !Ascii.eqb_refl.
Qed.

(** No [</ref>] starts in a self-closing tag. *)
Lemma after_first_tag (attrs rest : string) :
  no_char "<" attrs = true ->
  after_first "</ref>" ("<ref" ++ attrs ++ "/>" ++ rest)
  = after_first "</ref>" rest.
Proof.
  intros Ha.
  change ("<ref" ++ attrs ++ "/>" ++ rest)%string
    with (String "<" ("ref" ++ attrs ++ "/>" ++ rest))%string.
  cbn [after_first strip_prefix Ascii.eqb Bool.eqb].
  rewrite (after_first_text _ "ref") by reflexivity.
  rewrite after_first_text by assumption.
  now rewrite (after_first_text _ "/>") by reflexivity.
Qed.

(** What follows the first [</ref>] of a marked value is marked. *)
Lemma ref_marked_after_close (v r : string) :
  ref_marked v -> after_first "</ref>" v = Some r -> ref_marked r.
Proof.
  intros Hv. revert r. induction Hv as
      [t Ht | t attrs body rest Ht Ha1 Ha2 Hb Hrest IH
       | t attrs rest Ht Ha1 Ha2 Ha3 Hrest IH]; intros r E.
  - apply marked_text. now apply (after_first_ref_free t).
  - change ("<ref" ++ attrs ++ ">" ++ body ++ "</ref>" ++ rest)%string
      with (String "<" ("ref" ++ attrs ++ ">" ++ body ++ "</ref>" ++ rest))%string
      in E.
    apply after_first_close_cases in E.
    destruct E as [(r' & T & ->) | E].
    + apply (marked_block r'); auto. now apply (after_first_ref_free t).
    + change (String "<" ("ref" ++ attrs ++ ">" ++ body ++ "</ref>" ++ rest))%string
        with ("<ref" ++ attrs ++ ">" ++ body ++ "</ref>" ++ rest)%string in E.
      rewrite after_first_block in E by assumption. now injection E as <-.
  - change ("<ref" ++ attrs ++ "/>" ++ rest)%string
      with (String "<" ("ref" ++ attrs ++ "/>" ++ rest))%string in E.
    apply after_first_close_cases in E.
    destruct E as [(r' & T & ->) | E].
    + apply (marked_selfclosing r'); auto. now apply (after_first_ref_free t).
    + change (String "<" ("ref" ++ attrs ++ "/>" ++ rest))%string
        with ("<ref" ++ attrs ++ "/>" ++ rest)%string in E.
      rewrite after_first_tag in E by assumption. now apply IH.
Qed.

Lemma self_marked_prepend (t u : string) :
  ref_free t = true -> self_marked u -> self_marked (t ++ u).
Proof.
  intros Ht Hu. destruct Hu as [t' Ht' | t' attrs rest Ht' Ha1 Ha2 Ha3 Hrest].
  - apply self_text. now apply ref_free_app.
  - rewrite <- append_assoc. apply self_tag; auto. now apply ref_free_app.
Qed.

(** After the first substitution only text in which no [<ref] starts
    and self-closing tags are left. *)
Lemma sub_block_marked (n : nat) (v : string) :
  String.length v <= n -> ref_marked v ->
  self_marked (Re.sub ref_block_re v).
Proof.
  revert v. induction n as [|n IH]; intros v Hn Hv.
  - destruct v; [|simpl in Hn; lia]. apply self_text. reflexivity.
  - destruct Hv as
        [t Ht | t attrs body rest Ht Ha1 Ha2 Hb Hrest
         | t attrs rest Ht Ha1 Ha2 Ha3 Hrest].
    + rewrite <- (append_nil_r t).
      rewrite sub_ref_free by (auto using ref_block_re_start).
      cbn. rewrite append_nil_r. now apply self_text.
    + rewrite sub_ref_free by (auto using ref_block_re_start).
      apply self_marked_prepend; [assumption|].
      replace ("<ref" ++ attrs ++ ">" ++ body ++ "</ref>" ++ rest)%string
        with (String "<" ("ref" ++ attrs ++ ">" ++ body ++ "</ref>") ++ rest)%string
        by now norm_append.
      rewrite sub_match.
      * apply IH; [|assumption].
        rewrite !length_append in Hn. simpl in Hn. lia.
      * replace (String "<" ("ref" ++ attrs ++ ">" ++ body ++ "</ref>") ++ rest)%string
          with ("<ref" ++ attrs ++ String ">" (body ++ "</ref>" ++ rest))%string
          by now norm_append.
        rewrite ref_block_re_open by assumption.
        change ("</ref>" ++ rest)%string with (String "<" ("/ref>" ++ rest)).
        rewrite after_first_close_skip by now apply after_first_contains.
        cbn [String.append after_first strip_prefix]. now rewrite !Ascii.eqb_refl.
    + rewrite sub_ref_free by (auto using ref_block_re_start).
      apply self_marked_prepend; [assumption|].
      assert (Hm : ref_block_re ("<ref" ++ attrs ++ "/>" ++ rest)%string
                   = after_first "</ref>" rest).
      { replace ("<ref" ++ attrs ++ "/>" ++ rest)%string
          with ("<ref" ++ (attrs ++ "/") ++ String ">" rest)%string
          by now norm_append.
        apply ref_block_re_open.
        rewrite no_char_append, Ha2. reflexivity. }
      destruct (after_first "</ref>" rest) as [r|] eqn:Er.
      * destruct (after_first_inv _ _ _ Er) as [before Hb].
        pose proof (ref_marked_after_close _ _ Hrest Er) as Hr.
        pose proof (after_first_length _ _ _ Er) as Hl.
        rewrite Hb in Hm |- *.
        replace ("<ref" ++ attrs ++ "/>" ++ before ++ "</ref>" ++ r)%string
          with (String "<" ("ref" ++ attrs ++ "/>" ++ before ++ "</ref>") ++ r)%string
          in Hm |- * by now norm_append.
        rewrite sub_match by exact Hm.
        apply IH; [|assumption].
        rewrite !length_append in Hn. simpl in Hn. lia.
      * change ("<ref" ++ attrs ++ "/>" ++ rest)%string
          with (String "<" ("ref" ++ attrs ++ "/>" ++ rest))%string in Hm |- *.
        rewrite sub_nomatch by exact Hm.
        replace ("ref" ++ attrs ++ "/>" ++ rest)%string
          with (("ref" ++ attrs ++ "/>") ++ rest)%string by now norm_append.
        rewrite sub_text;
          [ | auto using ref_block_re_other
            | rewrite !no_char_append, Ha1; reflexivity ].
        replace (String "<" (("ref" ++ attrs ++ "/>") ++ Re.sub ref_block_re rest))%string
          with (EmptyString ++ "<ref" ++ attrs ++ "/>" ++ Re.sub ref_block_re rest)%string
          by now norm_append.
        apply self_tag; auto.
        apply IH; [|assumption].
        rewrite !length_append in Hn. simpl in Hn. lia.
Qed.

(** After the second substitution no [<ref] starts anywhere. *)
Lemma sub_selfclosing_marked (u : string) :
  self_marked u -> ref_free (Re.sub ref_selfclosing_re u) = true.
Proof.
  induction 1 as [t Ht | t attrs rest Ht Ha1 Ha2 Ha3 Hrest IH].
  - rewrite <- (append_nil_r t).
    rewrite sub_ref_free by (auto using ref_selfclosing_re_start).
    cbn. now rewrite append_nil_r.
  - rewrite sub_ref_free by (auto using ref_selfclosing_re_start).
    apply ref_free_app; [exact Ht|].
    replace ("<ref" ++ attrs ++ "/>" ++ rest)%string
      with (String "<" ("ref" ++ attrs ++ "/>") ++ rest)%string
      by now norm_append.
    rewrite sub_match; [exact IH|].
    replace (String "<" ("ref" ++ attrs ++ "/>") ++ rest)%string
      with ("<ref" ++ attrs ++ "/>" ++ rest)%string by now norm_append.
    now apply ref_selfclosing_re_tag.
Qed.

(** C5, as stated, fails: a reference that is never closed is kept by
    both substitutions, also next to a reference block. *)
Lemma unclosed_ref_counterexample :
  ~ (forall (L : Library) (value : string),
        has_reference value -> contains "<ref" (_clean_wikitext value) = false).
Proof.
  intros claim.
  specialize (claim plain_library "<ref>a</ref><ref>b").
  assert (Hr : has_reference "<ref>a</ref><ref>b") by (left; discriminate).
  apply claim in Hr. discriminate.
Qed.

(** C5, amended.  When every [<ref] of the value starts a reference
    block that is closed or a self-closing reference tag, other tags
    being allowed around the references and inside the blocks, the two
    substitutions remove every reference: in the text they hand to the
    wikitext parser no [<ref] starts, and the cleaned text is what the
    parser makes of that text, trimmed. *)
Theorem clean_wikitext_without_refs `{Library} (value : string) :
  ref_marked value ->
  ref_free (remove_refs value) = true
  /\ contains "<ref" (remove_refs value) = false
  /\ _clean_wikitext value = strip (strip_code (remove_refs value)).
Proof.
  intros Hv.
  assert (Hno : ref_free (remove_refs value) = true).
  { unfold remove_refs. apply sub_selfclosing_marked.
    now apply (sub_block_marked (String.length value)). }
  split; [exact Hno|]. split; [now apply ref_free_contains | reflexivity].
Qed.

Lemma clean_wikitext_without_refs_witness :
  remove_refs value_with_markup = "17.2<br> (21C62)"
  /\ contains "<ref" (remove_refs value_with_markup) = false
  /\ @_clean_wikitext plain_library value_with_markup = "17.2<br> (21C62)".
Proof.
  split; [reflexivity|].
  destruct (@clean_wikitext_without_refs plain_library value_with_markup)
    as (_ & C & E).
  - apply (marked_block "17.2<br>" " name=a" "Release <i>notes</i>"
             " (21C62)<ref name=b />");
      try reflexivity.
    apply (marked_selfclosing " (21C62)" " name=b " EmptyString); try reflexivity.
    apply marked_text. reflexivity.
  - split; [exact C | reflexivity].
Defined.

(** ** Reading back what [json.dumps] wrote *)

Lemma json_induction (P : json -> Prop) :
  P JNull -> (forall b, P (JBool b)) -> (forall n, P (JInt n)) ->
  (forall s, P (JStr s)) ->
  (forall items, Forall P items -> P (JList items)) ->
  (forall entries, Forall (fun kv => P (snd kv)) entries -> P (JDict entries)) ->
  forall v, P v.
Proof.
  intros Hnull Hbool Hint Hstr Hlist Hdict.
  fix IH 1. intros [ | b | n | s | items | entries].
  - exact Hnull.
  - apply Hbool.
  - apply Hint.
  - apply Hstr.
  - apply Hlist. induction items as [|x items IHitems]; constructor.
    + apply IH.
    + exact IHitems.
  - apply Hdict. induction entries as [|[k x] entries IHentries]; constructor.
    + apply IH.
    + exact IHentries.
Qed.

(** One character of a string literal is read back as it was. *)
Lemma scan_string_char (c : ascii) (fuel : nat) (t : string) :
  scan_string (S fuel) (escape_char c ++ t)
  = match scan_string fuel t with
    | Some (u, r) => Some (String c u, r)
    | None => None
    end.
Proof.
  destruct c as [[] [] [] [] [] [] [] []]; reflexivity.
Qed.

Lemma scan_string_escape (s rest : string) (fuel : nat) :
  String.length s < fuel ->
  scan_string fuel (escape s ++ String quote rest) = Some (s, rest).
Proof.
  revert fuel. induction s as [|c s IH]; intros fuel Hf.
  - destruct fuel; [lia | reflexivity].
  - destruct fuel as [|fuel]; [lia|].
    cbn [escape]. rewrite append_assoc, scan_string_char.
    rewrite IH by (simpl in Hf; lia). reflexivity.
Qed.

Lemma escape_char_length (c : ascii) : 1 <= String.length (escape_char c).
Proof.
  destruct c as [[] [] [] [] [] [] [] []]; simpl; lia.
Qed.

Lemma escape_length (s : string) : String.length s <= String.length (escape s).
Proof.
  induction s as [|c s IH]; simpl; [lia|].
  rewrite length_append. pose proof (escape_char_length c). lia.
Qed.

Lemma scan_encode_str (s rest : string) :
  scan_string (String.length (escape s ++ String quote rest))
    (escape s ++ String quote rest) = Some (s, rest).
Proof.
  apply scan_string_escape. rewrite length_append. simpl.
  pose proof (escape_length s). lia.
Qed.

(** *** Integers *)

Lemma to_uint_no_leading_zero (p : positive) (d : Decimal.uint) :
  Pos.to_uint p <> Decimal.D0 d.
Proof.
  intros E.
  assert (Hn : Decimal.unorm (Pos.to_uint p) = Pos.to_uint p).
  { rewrite <- DecimalPos.Unsigned.to_of, DecimalPos.Unsigned.of_to.
    reflexivity. }
  rewrite E, DecimalFacts.unorm_D0 in Hn.
  assert (Hd : d = Decimal.Nil \/ d <> Decimal.Nil)
    by (destruct d; [now left | right; discriminate ..]).
  destruct Hd as [-> | Hd].
  - now apply (DecimalPos.Unsigned.to_uint_nonzero p).
  - pose proof (DecimalFacts.nb_digits_unorm d Hd) as Hl.
    rewrite Hn in Hl. cbn [Decimal.nb_digits] in Hl. lia.
Qed.

Lemma string_of_uint_digits (d : Decimal.uint) :
  string_forall is_digit (DecimalString.NilEmpty.string_of_uint d) = true.
Proof. induction d; simpl; auto. Qed.

(** The decimal writing of a positive number: digits, the first of them
    not [0]. *)
Lemma string_of_pos (p : positive) :
  exists c t,
    DecimalString.NilZero.string_of_uint (Pos.to_uint p) = String c t
    /\ is_digit c = true /\ Ascii.eqb c "0" = false
    /\ Ascii.eqb c "-" = false
    /\ string_forall is_digit t = true.
Proof.
  pose proof (to_uint_no_leading_zero p) as Hz.
  pose proof (DecimalPos.Unsigned.to_uint_nonnil p) as Hn.
  destruct (Pos.to_uint p) as [| d | d | d | d | d | d | d | d | d | d];
    [congruence | exfalso; now apply (Hz d) | ..];
    simpl; do 2 eexists; (split; [reflexivity|]);
    repeat split; apply string_of_uint_digits.
Qed.

Lemma delimited_float_tail (rest : string) :
  delimited rest = true -> float_tail rest = false.
Proof.
  destruct rest as [|c [|d r]]; try reflexivity. simpl delimited.
  intros H. apply orb_true_iff in H.
  destruct H as [H | H]; apply Ascii.eqb_eq in H; subst c; reflexivity.
Qed.

Lemma delimited_not_digit (rest : string) :
  delimited rest = true ->
  match rest with
  | String c _ => is_digit c = false
  | EmptyString => True
  end.
Proof.
  destruct rest as [|c r]; [trivial|]. simpl delimited.
  intros H. apply orb_true_iff in H.
  destruct H as [H | H]; apply Ascii.eqb_eq in H; subst c; reflexivity.
Qed.

Lemma scan_unsigned_digits (c : ascii) (t rest : string) (sign : string) :
  is_digit c = true -> Ascii.eqb c "0" = false ->
  string_forall is_digit t = true -> delimited rest = true ->
  scan_unsigned sign (String c t ++ rest)
  = match DecimalString.NilZero.int_of_string (sign ++ String c t) with
    | Some d => Some (JInt (Z.of_int d), rest)
    | None => None
    end.
Proof.
  intros Hc H0 Ht Hr. unfold scan_unsigned. cbn [String.append]. rewrite H0.
  change (String c (t ++ rest)) with (String c t ++ rest)%string.
  rewrite span_append;
    [ | simpl; now rewrite Hc, Ht | now apply delimited_not_digit ].
  now rewrite delimited_float_tail.
Qed.

Lemma scan_number_str_of_Z (n : Z) (rest : string) :
  delimited rest = true ->
  scan_number (str_of_Z n ++ rest) = Some (JInt n, rest).
Proof.
  intros Hr. destruct n as [|p|p].
  - change (str_of_Z 0) with "0". unfold scan_number, scan_unsigned.
    cbn [String.append Ascii.eqb Bool.eqb].
    now rewrite delimited_float_tail.
  - unfold str_of_Z. cbn [Z.to_int DecimalString.NilZero.string_of_int].
    destruct (string_of_pos p) as (c & t & E & Hc & H0 & Hm & Ht).
    assert (Hi : DecimalString.NilZero.int_of_string (String c t)
                 = Some (Z.to_int (Z.pos p))).
    { rewrite <- E. apply (DecimalString.NilZero.isi (Decimal.Pos (Pos.to_uint p)));
        intros [= Hn]; now apply (DecimalPos.Unsigned.to_uint_nonnil p). }
    rewrite E. unfold scan_number. cbn [String.append]. rewrite Hm.
    change (String c (t ++ rest)) with (String c t ++ rest)%string.
    rewrite scan_unsigned_digits by assumption.
    cbn [String.append]. rewrite Hi. now rewrite DecimalZ.of_to.
  - unfold str_of_Z. cbn [Z.to_int DecimalString.NilZero.string_of_int].
    destruct (string_of_pos p) as (c & t & E & Hc & H0 & Hm & Ht).
    assert (Hi : DecimalString.NilZero.int_of_string (String "-" (String c t))
                 = Some (Z.to_int (Z.neg p))).
    { rewrite <- E. apply (DecimalString.NilZero.isi (Decimal.Neg (Pos.to_uint p)));
        intros [= Hn]; now apply (DecimalPos.Unsigned.to_uint_nonnil p). }
    rewrite E. unfold scan_number. cbn [String.append Ascii.eqb Bool.eqb].
    change (String c (t ++ rest)) with (String c t ++ rest)%string.
    rewrite scan_unsigned_digits by assumption.
    cbn [String.append]. rewrite Hi. now rewrite DecimalZ.of_to.
Qed.

(** The first character of the writing of an integer. *)
Lemma str_of_Z_head (n : Z) :
  exists c t, str_of_Z n = String c t
              /\ (is_digit c = true \/ c = "-"%char).
Proof.
  destruct n as [|p|p].
  - exists "0"%char, EmptyString. split; [reflexivity | now left].
  - unfold str_of_Z. cbn [Z.to_int DecimalString.NilZero.string_of_int].
    destruct (string_of_pos p) as (c & t & E & Hc & _). rewrite E. eauto.
  - unfold str_of_Z. cbn [Z.to_int DecimalString.NilZero.string_of_int].
    do 2 eexists. split; [reflexivity | now right].
Qed.

Lemma scan_value_number (c : ascii) (t : string) (fuel : nat) :
  is_digit c = true \/ c = "-"%char ->
  scan_value (S fuel) (String c t) = scan_number (String c t).
Proof.
  intros [Hc | ->]; [|reflexivity].
  destruct (is_digit_cases c Hc)
    as [->|[->|[->|[->|[->|[->|[->|[->|[->| ->]]]]]]]]]; reflexivity.
Qed.

(** *** Values *)

Lemma digit_head (c : ascii) :
  is_digit c = true \/ c = "-"%char ->
  is_json_space c = false /\ Ascii.eqb c "]" = false /\ Ascii.eqb c "}" = false.
Proof.
  intros [Hc | ->]; [|repeat split].
  destruct (is_digit_cases c Hc)
    as [->|[->|[->|[->|[->|[->|[->|[->|[->| ->]]]]]]]]]; repeat split.
Qed.

(** What [encode] writes starts with a character that is neither
    whitespace nor a closing bracket. *)
Lemma encode_head (level : nat) (v : json) :
  exists c t,
    encode level v = String c t
    /\ is_json_space c = false
    /\ Ascii.eqb c "]" = false /\ Ascii.eqb c "}" = false.
Proof.
  destruct v as [ | [] | n | s | [|x items] | [|kv entries]];
    try (do 2 eexists; split; [reflexivity | repeat split]).
  destruct (str_of_Z_head n) as (c & t & E & Hc).
  exists c, t. split; [exact E | now apply digit_head].
Qed.

Lemma skip_ws_head (c : ascii) (t : string) :
  is_json_space c = false -> skip_ws (String c t) = String c t.
Proof. intros Hc. simpl. now rewrite Hc. Qed.

Lemma skip_ws_spaces (n : nat) (c : ascii) (t : string) :
  is_json_space c = false -> skip_ws (spaces n ++ String c t) = String c t.
Proof.
  intros Hc. induction n as [|n IH]; [now apply skip_ws_head|]. exact IH.
Qed.

Lemma skip_ws_indent (n : nat) (c : ascii) (t : string) :
  is_json_space c = false ->
  skip_ws (newline_indent n ++ String c t) = String c t.
Proof. intros Hc. unfold newline_indent. now apply skip_ws_spaces. Qed.

Lemma reads_back_atoms :
  reads_back JNull /\ (forall b, reads_back (JBool b))
  /\ (forall n, reads_back (JInt n)) /\ (forall s, reads_back (JStr s)).
Proof.
  repeat split.
  - intros level rest [|fuel] _ Hf _; [lia | reflexivity].
  - intros b level rest [|fuel] _ Hf _; [lia|]. destruct b; reflexivity.
  - intros n level rest [|fuel] _ Hf Hr; [lia|]. cbn [encode].
    destruct (str_of_Z_head n) as (c & t & E & Hc).
    rewrite <- (scan_number_str_of_Z n rest Hr). rewrite E.
    now apply scan_value_number.
  - intros s level rest [|fuel] _ Hf _; [lia|]. cbn [encode].
    unfold encode_str. cbn [String.append scan_value].
    change (Ascii.eqb quote quote) with true. cbv iota.
    rewrite append_assoc. cbn [String.append].
    now rewrite scan_encode_str.
Qed.

Ltac norm_app :=
  repeat first [rewrite append_assoc | progress cbn [String.append]].

Lemma delimited_indent (n : nat) (t : string) :
  delimited (newline_indent n ++ t) = true.
Proof. reflexivity. Qed.

Lemma concat_encode_head (sep : string) (level : nat) (y : json) (ys : list json) :
  exists c t,
    String.concat sep (map (encode level) (y :: ys)) = String c t
    /\ is_json_space c = false
    /\ Ascii.eqb c "]" = false /\ Ascii.eqb c "}" = false.
Proof.
  destruct (encode_head level y) as (c & t & E & H).
  destruct ys as [|z ys]; cbn [map String.concat]; rewrite E.
  - eauto.
  - cbn [String.append]. eauto.
Qed.

(** The items of an array are read back in order. *)
Lemma scan_items_encode (xs : list json) :
  Forall reads_back xs ->
  forall x acc level rest fuel,
    reads_back x ->
    forallb unique_keys (x :: xs) = true ->
    list_sum (map (fun y => S (size y)) (x :: xs)) < fuel ->
    scan_items fuel acc
      (String.concat ("," ++ newline_indent (S level))
         (map (encode (S level)) (x :: xs))
       ++ newline_indent level ++ String "]" rest)
    = Some (JList (List.rev acc ++ x :: xs), rest).
Proof.
  induction 1 as [|y ys Hy Hys IH]; intros x acc level rest fuel Hx Hu Hf.
  - destruct fuel as [|fuel]; [lia|].
    cbn [map String.concat scan_items].
    cbn [forallb] in Hu. rewrite andb_true_r in Hu.
    rewrite (Hx (S level) _ fuel Hu); [ | simpl in Hf; lia | apply delimited_indent ].
    rewrite (skip_ws_indent level "]" rest) by reflexivity.
    cbn [Ascii.eqb Bool.eqb]. reflexivity.
  - destruct fuel as [|fuel]; [lia|].
    cbn [forallb] in Hu. apply andb_true_iff in Hu. destruct Hu as [Hux Hu].
    specialize (IH y (x :: acc) level rest fuel Hy Hu).
    assert (Hf' : size x < fuel
                  /\ list_sum (map (fun y => S (size y)) (y :: ys)) < fuel)
      by (simpl in Hf |- *; lia).
    destruct Hf' as [Hfx Hfy]. specialize (IH Hfy).
    change (String.concat ("," ++ newline_indent (S level))
              (map (encode (S level)) (x :: y :: ys)))
      with (encode (S level) x
            ++ ("," ++ newline_indent (S level))
            ++ String.concat ("," ++ newline_indent (S level))
                 (map (encode (S level)) (y :: ys)))%string.
    destruct (concat_encode_head ("," ++ newline_indent (S level)) (S level) y ys)
      as (c & t & E & Hc & _).
    rewrite E in IH |- *. norm_app. cbn [String.append] in IH. cbn [scan_items].
    rewrite (Hx (S level) _ fuel Hux); [ | assumption | reflexivity ].
    rewrite skip_ws_head by reflexivity.
    cbn [Ascii.eqb Bool.eqb].
    rewrite (skip_ws_indent (S level) c) by assumption.
    rewrite IH. cbn [List.rev]. now rewrite <- app_assoc.
Qed.

Lemma reads_back_list (items : list json) :
  Forall reads_back items -> reads_back (JList items).
Proof.
  intros Hitems level rest fuel Hu Hf Hr.
  destruct fuel as [|fuel]; [lia|].
  destruct items as [|x xs]; [reflexivity|].
  apply Forall_inv in Hitems as Hx. apply Forall_inv_tail in Hitems.
  destruct (concat_encode_head ("," ++ newline_indent (S level)) (S level) x xs)
    as (c & t & E & Hc & Hb & _).
  pose proof (scan_items_encode xs Hitems x [] level rest fuel Hx Hu) as Hs.
  cbn [encode]. rewrite E in Hs |- *. norm_app. cbn [String.append] in Hs.
  cbn [scan_value].
  change (Ascii.eqb "[" quote) with false.
  change (Ascii.eqb "[" "{") with false.
  change (Ascii.eqb "[" "[") with true. cbv iota.
  rewrite (skip_ws_indent (S level) c) by assumption.
  rewrite Hb. apply Hs. cbn [size] in Hf. lia.
Qed.

Lemma distinct_NoDup (keys : list string) : distinct keys = true -> NoDup keys.
Proof.
  induction keys as [|k keys IH]; simpl; intros H; constructor.
  - apply andb_true_iff in H. destruct H as [H _].
    apply negb_true_iff in H. intros Hin.
    assert (E : existsb (String.eqb k) keys = true).
    { apply existsb_exists. exists k. split; [assumption | apply String.eqb_refl]. }
    congruence.
  - apply andb_true_iff in H. now apply IH.
Qed.

Lemma dict_set_new {V : Type} (k : string) (v : V) (acc : list (string * V)) :
  ~ In k (map fst acc) -> dict_set k v acc = acc ++ [(k, v)].
Proof.
  induction acc as [|[k' v'] acc IH]; simpl; intros Hin; [reflexivity|].
  destruct (String.eqb_spec k k') as [->|Hne]; [tauto|].
  rewrite IH by tauto. reflexivity.
Qed.

Lemma concat_member_head (sep : string) (level : nat) (kx : string * json)
    (kvs : list (string * json)) :
  exists t,
    String.concat sep (map (encode_member level) (kx :: kvs)) = String quote t.
Proof.
  destruct kvs as [|kv kvs]; cbn [map String.concat]; unfold encode_member at 1;
    unfold encode_str; cbn [String.append]; eauto.
Qed.

Lemma skip_ws_encode (level : nat) (v : json) (tail : string) :
  skip_ws (encode level v ++ tail) = (encode level v ++ tail)%string.
Proof.
  destruct (encode_head level v) as (c & t & E & Hc & _).
  rewrite E. cbn [String.append]. now apply skip_ws_head.
Qed.

(** One member of an object is read back, up to what follows it. *)
Lemma scan_member (level : nat) (k : string) (x : json) (tail : string)
    (fuel : nat) (acc : list (string * json)) :
  reads_back x -> unique_keys x = true -> size x < fuel ->
  delimited tail = true ->
  scan_members (S fuel) acc (encode_member (S level) (k, x) ++ tail)
  = match skip_ws tail with
    | String e r3 =>
        if Ascii.eqb e "}" then Some (JDict (dict_set k x acc), r3)
        else if Ascii.eqb e "," then
          scan_members fuel (dict_set k x acc) (skip_ws r3)
        else None
    | EmptyString => None
    end.
Proof.
  intros Hx Hu Hf Ht. unfold encode_member, encode_str. cbn [fst snd].
  norm_app. cbn [scan_members].
  change (Ascii.eqb quote quote) with true. cbv iota.
  rewrite scan_encode_str.
  rewrite skip_ws_head by reflexivity.
  change (Ascii.eqb ":" ":") with true. cbv iota.
  change (skip_ws (String " " (encode (S level) x ++ tail)))
    with (skip_ws (encode (S level) x ++ tail)).
  rewrite skip_ws_encode.
  now rewrite (Hx (S level) tail fuel Hu Hf Ht).
Qed.

(** The members of an object are read back in order. *)
Lemma scan_members_encode (kvs : list (string * json)) :
  Forall (fun kv => reads_back (snd kv)) kvs ->
  forall kx acc level rest fuel,
    reads_back (snd kx) ->
    NoDup (map fst acc ++ map fst (kx :: kvs)) ->
    forallb (fun kv => unique_keys (snd kv)) (kx :: kvs) = true ->
    list_sum (map (fun kv => S (size (snd kv))) (kx :: kvs)) < fuel ->
    scan_members fuel acc
      (String.concat ("," ++ newline_indent (S level))
         (map (encode_member (S level)) (kx :: kvs))
       ++ newline_indent level ++ String "}" rest)
    = Some (JDict (acc ++ kx :: kvs), rest).
Proof.
  induction 1 as [|ky kys Hy Hys IH];
    intros [k x] acc level rest fuel Hx Hnd Hu Hf.
  - destruct fuel as [|fuel]; [lia|].
    cbn [map String.concat].
    cbn [forallb snd] in Hu. rewrite andb_true_r in Hu. cbn [snd] in Hx.
    rewrite scan_member; [ | assumption | assumption | simpl in Hf; lia
                            | apply delimited_indent ].
    rewrite (skip_ws_indent level "}" rest) by reflexivity.
    change (Ascii.eqb "}" "}") with true. cbv iota.
    rewrite dict_set_new; [reflexivity|].
    cbn [map fst] in Hnd. apply NoDup_remove_2 in Hnd.
    intros Hin. apply Hnd. apply in_or_app. now left.
  - destruct fuel as [|fuel]; [lia|].
    cbn [forallb snd] in Hu. apply andb_true_iff in Hu. destruct Hu as [Hux Hu].
    cbn [snd] in Hx.
    assert (Hf' : size x < fuel
                  /\ list_sum (map (fun kv => S (size (snd kv))) (ky :: kys)) < fuel)
      by (simpl in Hf |- *; lia).
    destruct Hf' as [Hfx Hfy].
    assert (Hk : ~ In k (map fst acc)).
    { cbn [map fst] in Hnd. apply NoDup_remove_2 in Hnd.
      intros Hin. apply Hnd. apply in_or_app. now left. }
    specialize (IH ky (acc ++ [(k, x)]) level rest fuel Hy).
    rewrite map_app, <- app_assoc in IH. specialize (IH Hnd Hu Hfy).
    change (String.concat ("," ++ newline_indent (S level))
              (map (encode_member (S level)) ((k, x) :: ky :: kys)))
      with (encode_member (S level) (k, x)
            ++ ("," ++ newline_indent (S level))
            ++ String.concat ("," ++ newline_indent (S level))
                 (map (encode_member (S level)) (ky :: kys)))%string.
    destruct (concat_member_head ("," ++ newline_indent (S level)) (S level) ky kys)
      as (t & E).
    rewrite E in IH |- *.
    rewrite !append_assoc. cbn [String.append] in IH |- *.
    rewrite scan_member; [ | assumption | assumption | assumption | reflexivity ].
    rewrite skip_ws_head by reflexivity.
    change (Ascii.eqb "," "}") with false.
    change (Ascii.eqb "," ",") with true. cbv iota.
    rewrite (skip_ws_indent (S level) quote) by reflexivity.
    rewrite dict_set_new by assumption.
    rewrite IH. now rewrite <- app_assoc.
Qed.

Lemma reads_back_dict (entries : list (string * json)) :
  Forall (fun kv => reads_back (snd kv)) entries -> reads_back (JDict entries).
Proof.
  intros Hentries level rest fuel Hu Hf Hr.
  destruct fuel as [|fuel]; [lia|].
  destruct entries as [|kx kvs]; [reflexivity|].
  apply Forall_inv in Hentries as Hx. apply Forall_inv_tail in Hentries.
  cbn [unique_keys] in Hu. apply andb_true_iff in Hu. destruct Hu as [Hd Hu].
  apply distinct_NoDup in Hd.
  pose proof (scan_members_encode kvs Hentries kx [] level rest fuel Hx Hd Hu) as Hs.
  destruct (concat_member_head ("," ++ newline_indent (S level)) (S level) kx kvs)
    as (t & E).
  cbn [encode].
  change (map (fun kv => (encode_str (fst kv) ++ ": " ++ encode (S level) (snd kv))%string)
            (kx :: kvs))
    with (map (encode_member (S level)) (kx :: kvs)).
  rewrite E in Hs |- *. norm_app. cbn [String.append] in Hs.
  cbn [scan_value].
  change (Ascii.eqb "{" quote) with false.
  change (Ascii.eqb "{" "{") with true. cbv iota.
  rewrite (skip_ws_indent (S level) quote) by reflexivity.
  change (Ascii.eqb quote "}") with false. cbv iota.
  apply Hs. cbn [size] in Hf. lia.
Qed.

(** Every value is read back from its text. *)
Lemma reads_back_all (v : json) : reads_back v.
Proof.
  induction v using json_induction.
  - apply reads_back_atoms.
  - apply reads_back_atoms.
  - apply reads_back_atoms.
  - apply reads_back_atoms.
  - now apply reads_back_list.
  - now apply reads_back_dict.
Qed.

Lemma concat_size {A : Type} (f : A -> string) (g : A -> nat) (sep : string)
    (l : list A) :
  1 <= String.length sep ->
  Forall (fun a => g a <= String.length (f a)) l ->
  list_sum (map (fun a => S (g a)) l)
  <= S (String.length (String.concat sep (map f l))).
Proof.
  intros Hsep. induction 1 as [|a l Ha Hl IH]; [simpl; lia|].
  destruct l as [|b l].
  - simpl. lia.
  - change (String.concat sep (map f (a :: b :: l)))
      with (f a ++ sep ++ String.concat sep (map f (b :: l)))%string.
    rewrite !length_append.
    change (list_sum (map (fun a => S (g a)) (a :: b :: l)))
      with (S (g a) + list_sum (map (fun a => S (g a)) (b :: l))).
    lia.
Qed.

Lemma size_le_length (v : json) :
  forall level, size v <= String.length (encode level v).
Proof.
  induction v as [ | b | n | s | items IH | entries IH] using json_induction;
    intros level; try (simpl; lia).
  - destruct items as [|x xs]; [simpl; lia|].
    cbn [encode size]. rewrite !length_append.
    pose proof (concat_size (encode (S level)) size
                  ("," ++ newline_indent (S level)) (x :: xs)) as Hc.
    cbn [String.length String.append] in *.
    assert (Hall : Forall (fun a => size a <= String.length (encode (S level) a))
                     (x :: xs)).
    { apply Forall_forall. intros a Ha. rewrite Forall_forall in IH. now apply IH. }
    specialize (Hc ltac:(lia) Hall). lia.
  - destruct entries as [|kx kvs]; [simpl; lia|].
    cbn [encode size]. rewrite !length_append.
    pose proof (concat_size (encode_member (S level)) (fun kv => size (snd kv))
                  ("," ++ newline_indent (S level)) (kx :: kvs)) as Hc.
    change (map (fun kv => (encode_str (fst kv) ++ ": " ++ encode (S level) (snd kv))%string)
              (kx :: kvs))
      with (map (encode_member (S level)) (kx :: kvs)).
    cbn [String.length String.append] in *.
    assert (Hall : Forall (fun kv => size (snd kv)
                                     <= String.length (encode_member (S level) kv))
                     (kx :: kvs)).
    { apply Forall_forall. intros kv Hkv. rewrite Forall_forall in IH.
      unfold encode_member. rewrite !length_append.
      specialize (IH kv Hkv (S level)). lia. }
    specialize (Hc ltac:(lia) Hall). lia.
Qed.

(** [json.loads(json.dumps(v, ensure_ascii=False, indent=2))] is [v]. *)
Lemma loads_dumps (v : json) :
  unique_keys v = true -> loads (dumps v) = Some v.
Proof.
  intros Hu. unfold loads, dumps.
  rewrite <- (append_nil_r (encode 0 v)) at 2.
  rewrite skip_ws_encode.
  rewrite (reads_back_all v 0 EmptyString); auto.
  pose proof (size_le_length v 0). lia.
Qed.

(** ** The values of a snapshot are Python values *)

Lemma assoc_unique (k : string) (entries : list (string * json)) (v : json) :
  forallb (fun kv => unique_keys (snd kv)) entries = true ->
  assoc k entries = Some v -> unique_keys v = true.
Proof.
  induction entries as [|[k' v'] entries IH]; simpl; [discriminate|].
  intros H. apply andb_true_iff in H. destruct H as [Hv H].
  destruct (String.eqb k k'); [now intros [= <-] | auto].
Qed.

Lemma py_get_unique (d : json) (k : string) (default v : json) :
  unique_keys d = true -> unique_keys default = true ->
  py_get d k default = Ok v -> unique_keys v = true.
Proof.
  destruct d; simpl; try discriminate. intros Hd Hdef [= <-].
  apply andb_true_iff in Hd. destruct Hd as [_ Hd].
  destruct (assoc k entries) eqn:E; [eapply assoc_unique; eauto | assumption].
Qed.

Lemma py_get_dyn_unique (d k v : json) :
  unique_keys d = true -> py_get_dyn d k = Ok v -> unique_keys v = true.
Proof.
  destruct d; simpl; try discriminate. intros Hd.
  apply andb_true_iff in Hd. destruct Hd as [_ Hd].
  destruct k; try discriminate; intros [= <-]; try reflexivity.
  destruct (assoc s entries) eqn:E; [eapply assoc_unique; eauto | reflexivity].
Qed.

Lemma subscript_0_unique (d v : json) :
  unique_keys d = true -> subscript_0 d = Ok v -> unique_keys v = true.
Proof.
  destruct d as [ | | | s | items | ]; simpl; try discriminate.
  - destruct s; [discriminate | now intros _ [= <-]].
  - destruct items; [discriminate|]. simpl. intros H [= <-].
    now apply andb_true_iff in H.
Qed.

Lemma py_iter_unique (d : json) (items : list json) :
  unique_keys d = true -> py_iter d = Ok items ->
  forall x, In x items -> unique_keys x = true.
Proof.
  destruct d as [ | | | s | l | entries]; simpl; try discriminate;
    intros Hd [= <-] x Hx.
  - induction s as [|c s IH]; simpl in Hx; [tauto|].
    destruct Hx as [<- | Hx]; [reflexivity | auto].
  - rewrite forallb_forall in Hd. auto.
  - apply in_map_iff in Hx. destruct Hx as [kv [<- _]]. reflexivity.
Qed.

Lemma max_loop_in `{Library} key best best_key items r :
  max_loop key best best_key items = Ok r -> r = best \/ In r items.
Proof.
  revert best best_key. induction items as [|x items IH]; simpl;
    intros best best_key E.
  - injection E as <-. now left.
  - inv_bind E. inv_bind E. destruct x1; apply IH in E; intuition.
Qed.

Lemma py_max_unique `{Library} iterable key r :
  unique_keys iterable = true -> py_max iterable key = Ok r ->
  unique_keys r = true.
Proof.
  intros Hu E. unfold py_max in E. inv_bind E.
  pose proof (py_iter_unique _ _ Hu Hx) as Hall.
  destruct x as [|a items]; [discriminate|]. inv_bind E.
  apply max_loop_in in E. destruct E as [-> | E]; apply Hall; simpl; auto.
Qed.

Lemma find_product_unique name products r :
  (forall x, In x products -> unique_keys x = true) ->
  find_product name products = Ok r -> unique_keys r = true.
Proof.
  induction products as [|p products IH]; simpl; intros Hall E.
  - now injection E as <-.
  - inv_bind E. destruct (eq_str x name); [injection E as <-|]; auto.
Qed.

Lemma wikipedia_release_unique `{Library} page v d c r :
  wikipedia_release page v d c = Ok r -> release_unique r = true.
Proof.
  unfold wikipedia_release. intros E. inv_bind E. injection E as <-.
  unfold release_unique. cbn [version version_code release_date].
  destruct v as [[|? ?]|], c as [[|? ?]|], x as [?|]; reflexivity.
Qed.

Lemma from_wikipedia_unique `{Library} w page sv sd bv bd sc bc i :
  _from_wikipedia w page sv sd bv bd sc bc = Ok i -> unique_pair i.
Proof.
  unfold _from_wikipedia. intros E. inv_binds E. injection E as <-.
  exists x6, x7. repeat split; eapply wikipedia_release_unique; eauto.
Qed.

Lemma chrome_channel_unique `{Library} w channel r :
  world_unique w -> _fetch w channel = Ok r -> release_unique r = true.
Proof.
  intros Hw E. unfold _fetch in E. inv_binds E. injection E as <-.
  apply Hw in Hx. pose proof (subscript_0_unique _ _ Hx Hx0) as He.
  unfold release_unique. cbn [version version_code release_date unique_keys].
  rewrite (py_get_unique _ _ JNull _ He eq_refl Hx1).
  rewrite (py_get_unique _ _ JNull _ He eq_refl Hx3). reflexivity.
Qed.

Lemma fetch_chrome_unique `{Library} w i :
  world_unique w -> fetch_chrome w = Ok i -> unique_pair i.
Proof.
  intros Hw E. unfold fetch_chrome in E. inv_binds E. injection E as <-.
  exists x, x0. repeat split; eapply chrome_channel_unique; eauto.
Qed.

Lemma fetch_firefox_unique w i :
  world_unique w -> fetch_firefox w = Ok i -> unique_pair i.
Proof.
  intros Hw E. unfold fetch_firefox in E. inv_binds E. injection E as <-.
  apply Hw in Hx, Hx0, Hx1.
  pose proof (py_get_unique _ _ JNull _ Hx eq_refl Hx2) as H2.
  pose proof (py_get_unique _ _ JNull _ Hx eq_refl Hx3) as H3.
  pose proof (py_get_dyn_unique _ _ _ Hx0 Hx4) as H4.
  pose proof (py_get_dyn_unique _ _ _ Hx1 Hx5) as H5.
  do 2 eexists. split; [reflexivity|].
  unfold release_unique. cbn [version version_code release_date].
  now rewrite H2, H3, H4, H5.
Qed.

Lemma fetch_opera_unique `{Library} w i : fetch_opera w = Ok i -> unique_pair i.
Proof.
  unfold fetch_opera. intros E. inv_binds E. injection E as <-.
  do 2 eexists. split; [reflexivity|].
  destruct x as [[?|] [?|]], x0 as [[?|] [?|]]; split; reflexivity.
Qed.

Lemma edge_channel_unique `{Library} data name r :
  unique_keys data = true -> edge_channel data name = Ok r ->
  release_unique r = true.
Proof.
  intros Hd E. unfold edge_channel in E. inv_bind E. inv_bind E.
  pose proof (find_product_unique _ _ _ (py_iter_unique _ _ Hd Hx) Hx0) as Hc.
  destruct (negb (py_truthy x0)); [now injection E as <-|].
  inv_binds E. injection E as <-.
  pose proof (py_get_unique _ _ (JList []) _ Hc eq_refl Hx1) as Hr.
  pose proof (py_max_unique _ _ _ Hr Hx2) as Hm.
  unfold release_unique. cbn [version version_code release_date unique_keys].
  rewrite (py_get_unique _ _ JNull _ Hm eq_refl Hx3).
  rewrite (py_get_unique _ _ JNull _ Hm eq_refl Hx5). reflexivity.
Qed.

Lemma dict_set_forall {V : Type} (P : V -> Prop) k v (l : list (string * V)) :
  P v -> Forall (fun kv => P (snd kv)) l ->
  Forall (fun kv => P (snd kv)) (dict_set k v l).
Proof.
  intros Hv. induction 1 as [|[k' v'] l Hk Hl IH]; simpl.
  - repeat constructor. exact Hv.
  - destruct (String.eqb k k'); constructor; auto.
Qed.

Lemma edge_loop_unique `{Library} data names channels result :
  unique_keys data = true ->
  Forall (fun kv => release_unique (snd kv) = true) channels ->
  edge_loop data names channels = Ok result ->
  Forall (fun kv => release_unique (snd kv) = true) result.
Proof.
  intros Hd. revert channels. induction names as [|name names IH]; simpl;
    intros channels Hc E.
  - now injection E as <-.
  - inv_bind E. apply IH in E; [assumption|].
    apply (dict_set_forall (fun r => release_unique r = true)); [|assumption].
    eapply edge_channel_unique; eauto.
Qed.

Lemma dict_item_forall {V : Type} (P : V -> Prop) (l : list (string * V)) k v :
  Forall (fun kv => P (snd kv)) l -> dict_item l k = Ok v -> P v.
Proof.
  unfold dict_item. induction 1 as [|[k' v'] l Hk Hl IH]; simpl; [discriminate|].
  destruct (String.eqb k k'); [now intros [= <-] | exact IH].
Qed.

Lemma fetch_edge_unique `{Library} w i :
  world_unique w -> fetch_edge w = Ok i -> unique_pair i.
Proof.
  intros Hw E. unfold fetch_edge in E. inv_binds E. injection E as <-.
  apply Hw in Hx.
  pose proof (edge_loop_unique _ _ _ _ Hx (Forall_nil _) Hx0) as Hall.
  exists x1, x2. split; [reflexivity|].
  split; eapply (dict_item_forall (fun r => release_unique r = true)); eauto.
Qed.

Lemma unique_pair_convert (i : item) :
  unique_pair i -> unique_keys (_convert i) = true.
Proof.
  intros (stable & beta & -> & Hs & Hb).
  unfold release_unique in Hs, Hb.
  apply andb_true_iff in Hs. destruct Hs as [Hs Hs3].
  apply andb_true_iff in Hs. destruct Hs as [Hs1 Hs2].
  apply andb_true_iff in Hb. destruct Hb as [Hb Hb3].
  apply andb_true_iff in Hb. destruct Hb as [Hb1 Hb2].
  simpl. now rewrite Hs1, Hs2, Hs3, Hb1, Hb2, Hb3.
Qed.

(** What the aggregator returns has no dict with a key twice. *)
Lemma collect_all_unique `{Library} (w : World) (snapshot : item) :
  world_unique w -> collect_all w = Ok snapshot ->
  unique_keys (_serialize snapshot) = true.
Proof.
  intros Hw E. unfold collect_all in E. inv_binds E. injection E as <-.
  unfold fetch_windows, fetch_macos, fetch_android, fetch_ios, fetch_ipados,
    fetch_safari, fetch_whale, from_wikipedia_default in *.
  repeat match goal with
         | Hf : _from_wikipedia _ _ _ _ _ _ _ _ = Ok _ |- _ =>
             apply from_wikipedia_unique, unique_pair_convert in Hf
         | Hf : fetch_chrome _ = Ok _ |- _ =>
             apply (fetch_chrome_unique _ _ Hw), unique_pair_convert in Hf
         | Hf : fetch_firefox _ = Ok _ |- _ =>
             apply (fetch_firefox_unique _ _ Hw), unique_pair_convert in Hf
         | Hf : fetch_opera _ = Ok _ |- _ =>
             apply fetch_opera_unique, unique_pair_convert in Hf
         | Hf : fetch_edge _ = Ok _ |- _ =>
             apply (fetch_edge_unique _ _ Hw), unique_pair_convert in Hf
         end.
  unfold _serialize. cbn [_convert unique_keys map fst snd forallb].
  repeat match goal with
         | Hu : unique_keys _ = true |- _ => rewrite Hu; clear Hu
         end.
  reflexivity.
Qed.

(** C9. The text written for a serialized object is read back as the
    same value: every key with its value in the same place, a null as a
    null.  This holds for every object whose values are Python values
    (no dict with a key twice), and so for the document [main] writes
    from responses that are; a record whose fields are all null comes
    back with its four keys, three of them null. *)
Theorem serialize_round_trip `{Library} :
  (forall data : item,
      unique_keys (_serialize data) = true ->
      loads (dumps (_serialize data)) = Some (_serialize data))
  /\ (forall (w : World) (output : string),
         world_unique w -> main w = Ok output ->
         exists snapshot,
           collect_all w = Ok snapshot
           /\ output = dumps (_serialize snapshot)
           /\ loads output = Some (_serialize snapshot))
  /\ (forall origin : string,
         loads (dumps (_serialize
                         (Release {| version := JNull; version_code := JNull;
                                     release_date := JNull; source := origin |})))
         = Some (JDict [("version", JNull); ("version_code", JNull);
                        ("release_date", JNull); ("source", JStr origin)])).
Proof.
  split; [|split].
  - intros data Hu. now apply loads_dumps.
  - intros w output Hw E. unfold main in E. inv_bind E. injection E as <-.
    exists x. split; [assumption|]. split; [reflexivity|].
    apply loads_dumps. eapply collect_all_unique; eauto.
  - intros origin. now apply loads_dumps.
Qed.

Lemma quiet_world_unique : world_unique quiet_world.
Proof.
  intros url v. unfold quiet_world, get_json.
  destruct (strip_prefix "https://product-details.mozilla.org/" url);
    [|destruct (strip_prefix "https://chromiumdash.appspot.com/" url)];
    intros [= <-]; reflexivity.
Qed.

Lemma serialize_round_trip_witness :
  exists snapshot,
    @collect_all plain_library quiet_world = Ok snapshot
    /\ loads (dumps (_serialize snapshot)) = Some (_serialize snapshot).
Proof.
  destruct (proj1 (proj2 (@serialize_round_trip plain_library))
              quiet_world (dumps (_serialize quiet_snapshot))
              quiet_world_unique eq_refl)
    as (snapshot & Hc & Ho & Hl).
  exists snapshot. split; [assumption|]. now rewrite <- Ho.
Defined.

(** * Further properties *)

(** ** Requests and the run as a whole *)

Lemma from_wikipedia_request `{Library} w page sv sd bv bd sc bc i :
  _from_wikipedia w page sv sd bv bd sc bc = Ok i ->
  exists data, get_wikipedia w page = Ok data.
Proof.
  intros E. unfold _from_wikipedia in E. inv_bind E.
  unfold _fetch_wikipedia_wikitext in Hx. inv_bind Hx. eauto.
Qed.

Lemma fetch_chrome_requests `{Library} w i :
  fetch_chrome w = Ok i ->
  exists stable beta,
    get_json w "https://chromiumdash.appspot.com/fetch_milestones?channel=Stable"
    = Ok stable
    /\ get_json w "https://chromiumdash.appspot.com/fetch_milestones?channel=Beta"
       = Ok beta.
Proof.
  intros E. unfold fetch_chrome in E.
  apply bind_ok in E. destruct E as (s & Hs & E).
  apply bind_ok in E. destruct E as (b & Hb & _).
  unfold _fetch in Hs, Hb.
  apply bind_ok in Hs. destruct Hs as (ds & Hs & _).
  apply bind_ok in Hb. destruct Hb as (db & Hb & _).
  exists ds, db. split; assumption.
Qed.

Lemma fetch_firefox_requests w i :
  fetch_firefox w = Ok i ->
  exists versions history_stable history_dev,
    get_json w "https://product-details.mozilla.org/1.0/firefox_versions.json"
    = Ok versions
    /\ get_json w
         "https://product-details.mozilla.org/1.0/firefox_history_major_releases.json"
       = Ok history_stable
    /\ get_json w
         "https://product-details.mozilla.org/1.0/firefox_history_development_releases.json"
       = Ok history_dev.
Proof.
  intros E. unfold fetch_firefox in E.
  apply bind_ok in E. destruct E as (v & Hv & E).
  apply bind_ok in E. destruct E as (hs & Hhs & E).
  apply bind_ok in E. destruct E as (hd & Hhd & _).
  exists v, hs, hd. repeat split; assumption.
Qed.

Lemma fetch_edge_request `{Library} w i :
  fetch_edge w = Ok i -> exists data, get_json w EDGE_URL = Ok data.
Proof.
  intros E. unfold fetch_edge in E.
  apply bind_ok in E. destruct E as (d & Hd & _). now exists d.
Qed.

Lemma fetch_opera_requests `{Library} w i :
  fetch_opera w = Ok i ->
  exists stable beta,
    get_text w "https://get.geo.opera.com/pub/opera/desktop/" = Ok stable
    /\ get_text w "https://get.geo.opera.com/pub/opera-beta/" = Ok beta.
Proof.
  intros E. unfold fetch_opera in E.
  apply bind_ok in E. destruct E as (s & Hs & E).
  apply bind_ok in E. destruct E as (b & Hb & _).
  unfold _parse_opera_listing in Hs, Hb.
  apply bind_ok in Hs. destruct Hs as (ts & Hs & _).
  apply bind_ok in Hb. destruct Hb as (tb & Hb & _).
  exists ts, tb. split; assumption.
Qed.

(** What [collect_all] returns holds what the eleven fetchers
    returned. *)
Lemma collect_all_fetchers `{Library} (w : World) (snapshot : item) :
  collect_all w = Ok snapshot ->
  exists windows macos android ios ipados chrome firefox opera edge safari whale,
    fetch_windows w = Ok windows /\ fetch_macos w = Ok macos
    /\ fetch_android w = Ok android /\ fetch_ios w = Ok ios
    /\ fetch_ipados w = Ok ipados /\ fetch_chrome w = Ok chrome
    /\ fetch_firefox w = Ok firefox /\ fetch_opera w = Ok opera
    /\ fetch_edge w = Ok edge /\ fetch_safari w = Ok safari
    /\ fetch_whale w = Ok whale
    /\ snapshot
       = Dict
           [("generated_at", Plain (JStr (utcnow_isoformat w ++ "Z")));
            ("operating_systems",
             Dict [("windows", windows); ("macos", macos); ("android", android);
                   ("ios", ios); ("ipados", ipados)]);
            ("browsers",
             Dict [("chrome", chrome); ("firefox", firefox); ("opera", opera);
                   ("edge", edge); ("safari", safari); ("whale", whale)])].
Proof.
  intros E. unfold collect_all in E.
  apply bind_ok in E. destruct E as (windows & H1 & E).
  apply bind_ok in E. destruct E as (macos & H2 & E).
  apply bind_ok in E. destruct E as (android & H3 & E).
  apply bind_ok in E. destruct E as (ios & H4 & E).
  apply bind_ok in E. destruct E as (ipados & H5 & E).
  apply bind_ok in E. destruct E as (chrome & H6 & E).
  apply bind_ok in E. destruct E as (firefox & H7 & E).
  apply bind_ok in E. destruct E as (opera & H8 & E).
  apply bind_ok in E. destruct E as (edge & H9 & E).
  apply bind_ok in E. destruct E as (safari & H10 & E).
  apply bind_ok in E. destruct E as (whale & H11 & E).
  injection E as <-.
  exists windows, macos, android, ios, ipados, chrome, firefox, opera, edge,
    safari, whale.
  repeat (split; [assumption|]). reflexivity.
Qed.

(** Every request of a run that returns was answered. *)
Lemma collect_all_requests `{Library} (w : World) (snapshot : item) :
  collect_all w = Ok snapshot ->
  (forall page, In page wikipedia_pages -> exists d, get_wikipedia w page = Ok d)
  /\ (forall url, In url json_urls -> exists d, get_json w url = Ok d)
  /\ (forall url, In url listing_urls -> exists t, get_text w url = Ok t).
Proof.
  intros E. apply collect_all_fetchers in E.
  destruct E as (windows & macos & android & ios & ipados & chrome & firefox
                 & opera & edge & safari & whale & H1 & H2 & H3 & H4 & H5 & H6
                 & H7 & H8 & H9 & H10 & H11 & _).
  apply from_wikipedia_request in H1, H2, H3, H4, H5, H10, H11.
  apply fetch_chrome_requests in H6. destruct H6 as (? & ? & C1 & C2).
  apply fetch_firefox_requests in H7. destruct H7 as (? & ? & ? & F1 & F2 & F3).
  apply fetch_opera_requests in H8. destruct H8 as (? & ? & O1 & O2).
  apply fetch_edge_request in H9.
  split; [|split].
  - intros page Hin. unfold wikipedia_pages in Hin. simpl in Hin.
    repeat (destruct Hin as [<- | Hin]; [assumption|]). contradiction.
  - intros url Hin. unfold json_urls in Hin. simpl in Hin.
    repeat (destruct Hin as [<- | Hin]; [eauto|]). contradiction.
  - intros url Hin. unfold listing_urls in Hin. simpl in Hin.
    repeat (destruct Hin as [<- | Hin]; [eauto|]). contradiction.
Qed.

(** X1.  A run gives no partial result: when one of the fifteen
    requests fails (one of the seven Wikipedia pages, one of the six JSON
    addresses, one of the two Opera listings), [collect_all] returns no
    snapshot and [main] writes no document. *)
Theorem failed_request_aborts `{Library} (w : World) :
  (exists page e, In page wikipedia_pages /\ get_wikipedia w page = Raise e)
  \/ (exists url e, In url json_urls /\ get_json w url = Raise e)
  \/ (exists url e, In url listing_urls /\ get_text w url = Raise e) ->
  (forall snapshot, collect_all w <> Ok snapshot)
  /\ (forall output, main w <> Ok output).
Proof.
  intros Hfail.
  assert (Hc : forall snapshot, collect_all w <> Ok snapshot).
  { intros snapshot E. apply collect_all_requests in E.
    destruct E as (Hw & Hj & Ht).
    destruct Hfail as [(page & e & Hin & He) | [(url & e & Hin & He)
                                               | (url & e & Hin & He)]].
    - destruct (Hw page Hin) as (d & Hd). congruence.
    - destruct (Hj url Hin) as (d & Hd). congruence.
    - destruct (Ht url Hin) as (d & Hd). congruence. }
  split; [exact Hc|].
  intros output E. unfold main in E.
  apply bind_ok in E. destruct E as (snapshot & Hs & _).
  exact (Hc snapshot Hs).
Qed.

Lemma failed_request_aborts_witness :
  (forall snapshot, @collect_all plain_library edge_world <> Ok snapshot)
  /\ (forall output, @main plain_library edge_world <> Ok output).
Proof.
  apply (@failed_request_aborts plain_library edge_world).
  left. exists "iPadOS", HTTPError. split; [|reflexivity].
  unfold wikipedia_pages. simpl. tauto.
Defined.

Lemma convert_pair (i : item) :
  channel_pair i -> pair_object (_convert i).
Proof.
  intros (stable & beta & ->). simpl.
  exists (asdict stable), (asdict beta).
  split; [reflexivity|].
  split; unfold asdict, record_object; eauto.
Qed.

(** X2.  The document [main] writes: the clock's text followed by [Z]
    under [generated_at], then the five operating systems and the six
    browsers in the order of the source, each a [{stable, beta}] object
    of two records with the four fields of the dataclass. *)
Theorem main_document `{Library} (w : World) (output : string) :
  main w = Ok output ->
  exists windows macos android ios ipados chrome firefox opera edge safari whale,
    output
    = dumps
        (JDict
           [("generated_at", JStr (utcnow_isoformat w ++ "Z"));
            ("operating_systems",
             JDict [("windows", windows); ("macos", macos);
                    ("android", android); ("ios", ios); ("ipados", ipados)]);
            ("browsers",
             JDict [("chrome", chrome); ("firefox", firefox); ("opera", opera);
                    ("edge", edge); ("safari", safari); ("whale", whale)])])
    /\ Forall pair_object
         [windows; macos; android; ios; ipados; chrome; firefox; opera; edge;
          safari; whale].
Proof.
  intros E. unfold main in E.
  apply bind_ok in E. destruct E as (snapshot & Hs & E). injection E as <-.
  apply collect_all_fetchers in Hs.
  destruct Hs as (windows & macos & android & ios & ipados & chrome & firefox
                  & opera & edge & safari & whale & H1 & H2 & H3 & H4 & H5 & H6
                  & H7 & H8 & H9 & H10 & H11 & ->).
  apply from_wikipedia_pair in H1, H2, H3, H4, H5, H10, H11.
  apply fetch_chrome_pair in H6. apply fetch_firefox_pair in H7.
  apply fetch_opera_pair in H8. apply fetch_edge_pair in H9.
  exists (_convert windows), (_convert macos), (_convert android),
    (_convert ios), (_convert ipados), (_convert chrome), (_convert firefox),
    (_convert opera), (_convert edge), (_convert safari), (_convert whale).
  split; [reflexivity|].
  repeat (apply Forall_cons; [now apply convert_pair|]). apply Forall_nil.
Qed.

Lemma main_document_witness :
  exists windows macos android ios ipados chrome firefox opera edge safari whale,
    dumps (_serialize quiet_snapshot)
    = dumps
        (JDict
           [("generated_at", JStr "2024-01-01T00:00:00Z");
            ("operating_systems",
             JDict [("windows", windows); ("macos", macos);
                    ("android", android); ("ios", ios); ("ipados", ipados)]);
            ("browsers",
             JDict [("chrome", chrome); ("firefox", firefox); ("opera", opera);
                    ("edge", edge); ("safari", safari); ("whale", whale)])])
    /\ Forall pair_object
         [windows; macos; android; ios; ipados; chrome; firefox; opera; edge;
          safari; whale].
Proof.
  apply (@main_document plain_library quiet_world
           (dumps (_serialize quiet_snapshot))).
  reflexivity.
Defined.

(** ** The Wikipedia sources *)

Lemma parse_wiki_date_returns `{Library} (value : string) :
  exists date, _parse_wiki_date value = Ok date.
Proof.
  unfold _parse_wiki_date.
  destruct (Re.search start_date_re value) as [[[year month] day]|] eqn:E.
  - unfold Re.search in E. apply search_from_inv in E.
    destruct E as (before & after & bol' & _ & E).
    apply start_date_re_inv in E.
    destruct E as (rest & _ & _ & _ & Hm & Hd).
    destruct (format_two_digits month Hm) as [Im _].
    destruct (format_two_digits day Hd) as [Id _].
    rewrite Im, Id. cbn [bind]. eauto.
  - eauto.
Qed.

Lemma extract_checked_str (text : string) (keys : list string) :
  extract_checked (JStr text) keys = Ok (_extract_wikitext_field text keys).
Proof. destruct keys; reflexivity. Qed.

Lemma fetch_wikipedia_wikitext_response (w : World) (page wikitext : string)
    (data : json) :
  get_wikipedia w page = Ok data -> holds_wikitext data wikitext ->
  _fetch_wikipedia_wikitext w page = Ok (JStr wikitext).
Proof.
  intros E (top & parse & inner & -> & Hp & Hw & Hs).
  unfold _fetch_wikipedia_wikitext. rewrite E.
  cbn [bind subscript_key]. rewrite Hp. cbn [bind subscript_key].
  rewrite Hw. cbn [bind subscript_key]. now rewrite Hs.
Qed.

Lemma api_response_holds (title wikitext : string) :
  holds_wikitext (api_response title wikitext) wikitext.
Proof. unfold api_response. do 3 eexists. repeat split. Qed.

(** One channel's record: what each field is made from. *)
Lemma wikipedia_release_fields `{Library} (page : string)
    (version_raw date_raw code_raw : option string) (r : ReleaseInfo) :
  wikipedia_release page version_raw date_raw code_raw = Ok r ->
  version r = if_truthy version_raw (fun t => JStr (_clean_wikitext t)) JNull
  /\ version_code r
     = if_truthy code_raw (fun t => JStr (_clean_wikitext t)) (version r)
  /\ (exists date, if_truthy date_raw _parse_wiki_date (Ok None) = Ok date
                   /\ release_date r = opt_str date)
  /\ source r = ("https://en.wikipedia.org/wiki/" ++ page)%string.
Proof.
  intros E. unfold wikipedia_release in E.
  apply bind_ok in E. destruct E as (date & Hd & E). injection E as <-.
  cbn [version version_code release_date source].
  split; [reflexivity|]. split; [reflexivity|].
  split; [|reflexivity]. exists date. split; [exact Hd | reflexivity].
Qed.

Lemma wikipedia_release_returns `{Library} (page : string)
    (version_raw date_raw code_raw : option string) :
  exists r, wikipedia_release page version_raw date_raw code_raw = Ok r.
Proof.
  unfold wikipedia_release.
  assert (Hd : exists date, if_truthy date_raw _parse_wiki_date (Ok None)
                            = Ok date).
  { destruct date_raw as [[|c s]|]; simpl; eauto using parse_wiki_date_returns. }
  destruct Hd as (date & ->). cbn [bind]. eauto.
Qed.

Lemma from_wikipedia_inv `{Library} w page sv sd bv bd sc bc i :
  _from_wikipedia w page sv sd bv bd sc bc = Ok i ->
  exists wikitext svr sdr scr bvr bdr bcr stable beta,
    _fetch_wikipedia_wikitext w page = Ok wikitext
    /\ extract_checked wikitext sv = Ok svr
    /\ extract_checked wikitext sd = Ok sdr
    /\ extract_checked wikitext (or_empty sc) = Ok scr
    /\ extract_checked wikitext bv = Ok bvr
    /\ extract_checked wikitext bd = Ok bdr
    /\ extract_checked wikitext (or_empty bc) = Ok bcr
    /\ wikipedia_release page svr sdr scr = Ok stable
    /\ wikipedia_release page bvr bdr bcr = Ok beta
    /\ i = Dict [("stable", Release stable); ("beta", Release beta)].
Proof.
  intros E. unfold _from_wikipedia in E.
  apply bind_ok in E. destruct E as (wikitext & H0 & E).
  apply bind_ok in E. destruct E as (svr & H1 & E).
  apply bind_ok in E. destruct E as (sdr & H2 & E).
  apply bind_ok in E. destruct E as (scr & H3 & E).
  apply bind_ok in E. destruct E as (bvr & H4 & E).
  apply bind_ok in E. destruct E as (bdr & H5 & E).
  apply bind_ok in E. destruct E as (bcr & H6 & E).
  apply bind_ok in E. destruct E as (stable & H7 & E).
  apply bind_ok in E. destruct E as (beta & H8 & E).
  injection E as <-.
  exists wikitext, svr, sdr, scr, bvr, bdr, bcr, stable, beta.
  repeat (split; [assumption|]). reflexivity.
Qed.

Lemma from_wikipedia_no_code `{Library} w page sv sd bv bd stable beta :
  _from_wikipedia w page sv sd bv bd None None
  = Ok (Dict [("stable", Release stable); ("beta", Release beta)]) ->
  version_code stable = version stable /\ version_code beta = version beta
  /\ source stable = ("https://en.wikipedia.org/wiki/" ++ page)%string
  /\ source beta = ("https://en.wikipedia.org/wiki/" ++ page)%string.
Proof.
  intros E. apply from_wikipedia_inv in E.
  destruct E as (wikitext & svr & sdr & scr & bvr & bdr & bcr & s & b & _ & _
                 & _ & Hsc & _ & _ & Hbc & Hs & Hb & E).
  injection E as <- <-.
  simpl in Hsc, Hbc. injection Hsc as <-. injection Hbc as <-.
  apply wikipedia_release_fields in Hs, Hb.
  destruct Hs as (_ & Hs & _ & Hss). destruct Hb as (_ & Hb & _ & Hbs).
  simpl in Hs, Hb. auto.
Qed.

(** X3.  The seven Wikipedia fetchers pass no key for the version
    code: in what each of them returns the version code of each channel
    is the version of the channel, and both records name as their source
    the address of the page of that fetcher. *)
Theorem wikipedia_code_is_version `{Library} (w : World)
    (fetch : World -> result item) (page : string)
    (stable beta : ReleaseInfo) :
  In (fetch, page) wikipedia_sources ->
  fetch w = Ok (Dict [("stable", Release stable); ("beta", Release beta)]) ->
  version_code stable = version stable
  /\ version_code beta = version beta
  /\ source stable = ("https://en.wikipedia.org/wiki/" ++ page)%string
  /\ source beta = ("https://en.wikipedia.org/wiki/" ++ page)%string.
Proof.
  intros Hin E. unfold wikipedia_sources in Hin. simpl in Hin.
  repeat (destruct Hin as [Hp | Hin];
          [injection Hp as <- <-; exact (from_wikipedia_no_code _ _ _ _ _ _ _ _ E)|]).
  contradiction.
Qed.

Lemma wikipedia_code_is_version_witness :
  exists stable beta,
    @fetch_safari plain_library api_world
    = Ok (Dict [("stable", Release stable); ("beta", Release beta)])
    /\ version_code stable = version stable
    /\ version_code beta = version beta
    /\ source stable = "https://en.wikipedia.org/wiki/Safari_(web_browser)"
    /\ source beta = "https://en.wikipedia.org/wiki/Safari_(web_browser)".
Proof.
  eexists _, _. split; [reflexivity|].
  exact (@wikipedia_code_is_version plain_library api_world
           (@fetch_safari plain_library) "Safari_(web_browser)" _ _
           (or_intror (or_intror (or_intror (or_intror (or_intror
              (or_introl eq_refl))))))
           eq_refl).
Defined.

Lemma if_truthy_text `{Library} (raw : option string) :
  text_or_null (if_truthy raw (fun t => JStr (_clean_wikitext t)) JNull).
Proof.
  destruct raw as [[|c s]|]; simpl; unfold text_or_null; eauto.
Qed.

Lemma opt_str_text (o : option string) : text_or_null (opt_str o).
Proof. destruct o; simpl; unfold text_or_null; eauto. Qed.

Lemma wikipedia_release_text `{Library} page vr dr cr r :
  wikipedia_release page vr dr cr = Ok r ->
  text_or_null (version r) /\ text_or_null (version_code r)
  /\ text_or_null (release_date r)
  /\ (vr = None -> version r = JNull)
  /\ (vr = None -> cr = None -> version_code r = JNull)
  /\ (dr = None -> release_date r = JNull).
Proof.
  intros E. apply wikipedia_release_fields in E.
  destruct E as (Hv & Hc & (date & Hd & Hr) & _).
  rewrite Hc, Hv, Hr.
  split; [apply if_truthy_text|].
  split; [destruct cr as [[|c s]|]; simpl;
          try apply if_truthy_text; unfold text_or_null; eauto|].
  split; [apply opt_str_text|].
  split; [now intros ->|].
  split; [now intros -> ->|].
  intros ->. simpl in Hd. now injection Hd as <-.
Qed.

(** X4.  Once Wikipedia has answered with an object that holds a
    wikitext under [parse], [wikitext] and [*], whatever else the answer
    holds, no fetcher built on [_from_wikipedia] raises, whatever the
    text and the lists of keys: it returns the two records, every field
    of which is a text or null, and a field none of whose keys is found
    is null. *)
Theorem from_wikipedia_returns `{Library} (w : World) (page wikitext : string)
    (data : json)
    (sv sd bv bd : list string) (sc bc : option (list string)) :
  get_wikipedia w page = Ok data ->
  holds_wikitext data wikitext ->
  exists stable beta,
    _from_wikipedia w page sv sd bv bd sc bc
    = Ok (Dict [("stable", Release stable); ("beta", Release beta)])
    /\ Forall text_or_null
         [version stable; version_code stable; release_date stable;
          version beta; version_code beta; release_date beta]
    /\ (_extract_wikitext_field wikitext sv = None -> version stable = JNull)
    /\ (_extract_wikitext_field wikitext sv = None ->
        _extract_wikitext_field wikitext (or_empty sc) = None ->
        version_code stable = JNull)
    /\ (_extract_wikitext_field wikitext sd = None -> release_date stable = JNull)
    /\ (_extract_wikitext_field wikitext bv = None -> version beta = JNull)
    /\ (_extract_wikitext_field wikitext bv = None ->
        _extract_wikitext_field wikitext (or_empty bc) = None ->
        version_code beta = JNull)
    /\ (_extract_wikitext_field wikitext bd = None -> release_date beta = JNull).
Proof.
  intros E Hd. pose proof (fetch_wikipedia_wikitext_response _ _ _ _ E Hd) as F.
  unfold _from_wikipedia. rewrite F. cbn [bind].
  rewrite !extract_checked_str. cbn [bind].
  destruct (wikipedia_release_returns page
              (_extract_wikitext_field wikitext sv)
              (_extract_wikitext_field wikitext sd)
              (_extract_wikitext_field wikitext (or_empty sc))) as (s & Hs).
  destruct (wikipedia_release_returns page
              (_extract_wikitext_field wikitext bv)
              (_extract_wikitext_field wikitext bd)
              (_extract_wikitext_field wikitext (or_empty bc))) as (b & Hb).
  rewrite Hs, Hb. cbn [bind]. exists s, b.
  apply wikipedia_release_text in Hs, Hb.
  destruct Hs as (S1 & S2 & S3 & S4 & S5 & S6).
  destruct Hb as (B1 & B2 & B3 & B4 & B5 & B6).
  split; [reflexivity|].
  split; [repeat (apply Forall_cons; [assumption|]); apply Forall_nil|].
  repeat split; assumption.
Qed.

Lemma from_wikipedia_returns_witness :
  exists stable beta,
    @fetch_macos plain_library api_world
    = Ok (Dict [("stable", Release stable); ("beta", Release beta)])
    /\ version beta = JNull /\ release_date beta = JNull.
Proof.
  destruct (@from_wikipedia_returns plain_library api_world "macOS" _ _
              ["latest_release_version"; "latest_release"]
              ["latest_release_date"; "latest_release_date"]
              ["latest_preview_version"; "latest_beta_version"]
              ["latest_preview_date"; "latest_beta_release_date"]
              None None eq_refl (api_response_holds _ _))
    as (stable & beta & E & _ & _ & _ & _ & Hv & _ & Hd).
  exists stable, beta. split; [exact E|].
  split; [apply Hv | apply Hd]; reflexivity.
Defined.

(** X5.  An answer of Wikipedia without the key [parse], such as the
    error object it sends for a page that does not exist, makes the
    fetcher raise a [KeyError]; for the page of Windows, which is
    fetched first, the whole run ends with that error and nothing is
    written. *)
Theorem wikipedia_error_page `{Library} (w : World) (page : string)
    (entries : list (string * json))
    (sv sd bv bd : list string) (sc bc : option (list string)) :
  get_wikipedia w page = Ok (JDict entries) ->
  assoc "parse" entries = None ->
  _from_wikipedia w page sv sd bv bd sc bc = Raise KeyError
  /\ (page = "Windows_11" ->
      collect_all w = Raise KeyError /\ main w = Raise KeyError).
Proof.
  intros E Hp.
  assert (F : forall sv sd bv bd sc bc,
             _from_wikipedia w page sv sd bv bd sc bc = Raise KeyError).
  { intros. unfold _from_wikipedia, _fetch_wikipedia_wikitext.
    rewrite E. cbn [bind subscript_key]. now rewrite Hp. }
  split; [apply F|].
  intros ->.
  assert (C : collect_all w = Raise KeyError).
  { unfold collect_all, fetch_windows, from_wikipedia_default. now rewrite F. }
  split; [exact C|]. unfold main. now rewrite C.
Qed.

Lemma wikipedia_error_page_witness :
  @fetch_windows plain_library error_page_world = Raise KeyError
  /\ @main plain_library error_page_world = Raise KeyError.
Proof.
  destruct (@wikipedia_error_page plain_library error_page_world "Windows_11"
              [("error", JDict [("code", JStr "missingtitle")])]
              ["latest_release_version"; "latest_release"]
              ["latest_release_date"; "latest_release_date"]
              ["latest_preview_version"; "latest_beta_version"]
              ["latest_preview_date"; "latest_beta_release_date"]
              None None eq_refl eq_refl) as (F & C).
  split; [exact F|]. exact (proj2 (C eq_refl)).
Defined.

(** ** The extractor of infobox fields *)

Lemma search_from_line {A : Type} (p : bool -> string -> option A)
    (bol : bool) (s : string) (r : A) :
  Re.search_from bol p s = Some r ->
  exists before after,
    s = (before ++ after)%string /\ p (line_start bol before) after = Some r.
Proof.
  revert bol. induction s as [|c s IH]; intros bol E.
  - simpl in E. destruct (p bol EmptyString) eqn:P; [|discriminate].
    injection E as ->. exists EmptyString, EmptyString. now split.
  - simpl in E. destruct (p bol (String c s)) eqn:P.
    + injection E as ->. exists EmptyString, (String c s). now split.
    + apply IH in E. destruct E as (before & after & -> & E).
      exists (String c before), after. now split.
Qed.

Lemma star_inv {A : Type} cls (k : string -> string -> option A) s r :
  Re.star cls k s = Some r ->
  exists cap rest,
    s = (cap ++ rest)%string /\ string_forall cls cap = true
    /\ k cap rest = Some r.
Proof.
  unfold Re.star. intros E. apply greedy_inv in E.
  destruct E as (cap & rest & E & Hc & _ & Hk). eauto.
Qed.

(** What a match of the pattern of a field is made of. *)
Lemma field_re_inv (key : string) (bol : bool) (s group1 : string) :
  field_re key bol s = Some group1 ->
  bol = true
  /\ exists ws1 ws2 ws3 after,
       s = ("|" ++ ws1 ++ key ++ ws2 ++ "=" ++ ws3 ++ group1 ++ after)%string
       /\ string_forall is_space ws1 = true
       /\ string_forall is_space ws2 = true
       /\ string_forall is_space ws3 = true
       /\ group1 <> EmptyString
       /\ no_char newline group1 = true
       /\ at_line_end after = true.
Proof.
  unfold field_re, Re.bol_anchor. intros E.
  destruct bol; [|discriminate]. split; [reflexivity|].
  apply lit_inv in E. destruct E as (r0 & -> & E).
  apply star_inv in E. destruct E as (ws1 & r1 & -> & H1 & E).
  apply lit_inv in E. destruct E as (r2 & -> & E).
  apply star_inv in E. destruct E as (ws2 & r3 & -> & H2 & E).
  apply lit_inv in E. destruct E as (r4 & -> & E).
  apply star_inv in E. destruct E as (ws3 & r5 & -> & H3 & E).
  apply plus_inv in E. destruct E as (g & after & -> & Hg & Hne & E).
  unfold Re.eol in E.
  exists ws1, ws2, ws3, after.
  destruct after as [|a after].
  - injection E as <-. repeat split; assumption.
  - destruct (Ascii.eqb a newline) eqn:Ea; [|discriminate].
    injection E as <-. repeat split; assumption.
Qed.

Lemma extract_field_inv (wikitext : string) (keys : list string) (r : string) :
  _extract_wikitext_field wikitext keys = Some r ->
  exists key before ws1 ws2 ws3 group1 after,
    In key keys
    /\ wikitext
       = (before ++ "|" ++ ws1 ++ key ++ ws2 ++ "=" ++ ws3 ++ group1
          ++ after)%string
    /\ line_start true before = true
    /\ string_forall is_space ws1 = true
    /\ string_forall is_space ws2 = true
    /\ string_forall is_space ws3 = true
    /\ group1 <> EmptyString
    /\ no_char newline group1 = true
    /\ at_line_end after = true
    /\ r = strip group1.
Proof.
  induction keys as [|key keys IH]; intros E; [discriminate|].
  cbn [_extract_wikitext_field] in E.
  destruct (Re.search (field_re key) wikitext) as [g|] eqn:S.
  - injection E as <-. unfold Re.search in S.
    apply search_from_line in S. destruct S as (before & s & -> & S).
    apply field_re_inv in S.
    destruct S as (Hl & ws1 & ws2 & ws3 & after & -> & H1 & H2 & H3 & Hne
                   & Hn & Ha).
    exists key, before, ws1, ws2, ws3, g, after.
    split; [now left|]. repeat split; assumption.
  - destruct (IH E) as (k & before & ws1 & ws2 & ws3 & g & after & Hin & R).
    exists k, before, ws1, ws2, ws3, g, after. split; [now right | exact R].
Qed.

Lemma string_forall_lstrip f (s : string) :
  string_forall f s = true -> string_forall f (lstrip s) = true.
Proof.
  intros E. destruct (lstrip_suffix s) as (a & Ha).
  rewrite Ha, string_forall_append in E.
  now apply andb_true_iff in E.
Qed.

Lemma string_forall_rstrip f (s : string) :
  string_forall f s = true -> string_forall f (rstrip s) = true.
Proof.
  intros E. destruct (rstrip_prefix s) as (b & Hb).
  rewrite Hb, string_forall_append in E.
  now apply andb_true_iff in E.
Qed.

Lemma string_forall_strip f (s : string) :
  string_forall f s = true -> string_forall f (strip s) = true.
Proof.
  intros E. unfold strip. now apply string_forall_rstrip, string_forall_lstrip.
Qed.

(** X6.  Whatever the extractor returns was read from the wikitext: at
    the start of a line a [|], one of the keys and [=], with only
    whitespace between them, then a non-empty run of characters up to
    the end of a line, which is returned trimmed.  So the value never
    holds a newline and has no whitespace at its ends. *)
Theorem extract_field_sound (wikitext : string) (keys : list string)
    (r : string) :
  _extract_wikitext_field wikitext keys = Some r ->
  (exists key before ws1 ws2 ws3 group1 after,
      In key keys
      /\ wikitext
         = (before ++ "|" ++ ws1 ++ key ++ ws2 ++ "=" ++ ws3 ++ group1
            ++ after)%string
      /\ line_start true before = true
      /\ string_forall is_space ws1 = true
      /\ string_forall is_space ws2 = true
      /\ string_forall is_space ws3 = true
      /\ group1 <> EmptyString
      /\ no_char newline group1 = true
      /\ at_line_end after = true
      /\ r = strip group1)
  /\ no_char newline r = true
  /\ strip r = r.
Proof.
  intros E. pose proof (extract_field_inv _ _ _ E) as I.
  split; [exact I|].
  destruct I as (key & before & ws1 & ws2 & ws3 & g & after & _ & _ & _ & _ & _
                 & _ & _ & Hn & _ & ->).
  split; [now apply string_forall_strip | apply strip_idem].
Qed.

Lemma extract_field_sound_witness :
  no_char newline "| latest_release_date = 2023-09-18" = true
  /\ strip "| latest_release_date = 2023-09-18"
     = "| latest_release_date = 2023-09-18".
Proof.
  exact (proj2 (extract_field_sound infobox_empty_field
                  ["latest_release_version"; "latest_release"]
                  "| latest_release_date = 2023-09-18" eq_refl)).
Defined.

Lemma contains_prefix (p s : string) : contains p (p ++ s) = true.
Proof.
  destruct (p ++ s)%string as [|c t] eqn:E; simpl; rewrite <- E;
    now rewrite strip_prefix_append.
Qed.

Lemma contains_middle (p a b : string) : contains p (a ++ p ++ b) = true.
Proof. apply contains_append_r, contains_prefix. Qed.

Lemma no_char_middle (c : ascii) (a b : string) :
  no_char c (a ++ String c b) = false.
Proof.
  rewrite no_char_append. unfold no_char at 2. simpl.
  unfold not_char. rewrite Ascii.eqb_refl. simpl. apply andb_false_r.
Qed.

(** X7.  The extractor finds nothing when none of the keys occurs in
    the wikitext, when the wikitext has no [|], and when it has no
    [=]. *)
Theorem extract_field_absent (wikitext : string) (keys : list string) :
  (forall key, In key keys -> contains key wikitext = false)
  \/ no_char "|" wikitext = true
  \/ no_char "=" wikitext = true ->
  _extract_wikitext_field wikitext keys = None.
Proof.
  intros Hno.
  destruct (_extract_wikitext_field wikitext keys) as [r|] eqn:E;
    [|reflexivity].
  exfalso. apply extract_field_inv in E.
  destruct E as (key & before & ws1 & ws2 & ws3 & g & after & Hin & -> & _).
  destruct Hno as [Hk | [Hb | He]].
  - specialize (Hk key Hin).
    replace (before ++ "|" ++ ws1 ++ key ++ ws2 ++ "=" ++ ws3 ++ g ++ after)%string
      with ((before ++ "|" ++ ws1) ++ key ++ ws2 ++ "=" ++ ws3 ++ g ++ after)%string
      in Hk by (now rewrite !append_assoc).
    rewrite contains_middle in Hk. discriminate.
  - change ("|" ++ ws1 ++ key ++ ws2 ++ "=" ++ ws3 ++ g ++ after)%string
      with (String "|" (ws1 ++ key ++ ws2 ++ "=" ++ ws3 ++ g ++ after)) in Hb.
    rewrite no_char_middle in Hb. discriminate.
  - replace (before ++ "|" ++ ws1 ++ key ++ ws2 ++ "=" ++ ws3 ++ g ++ after)%string
      with ((before ++ "|" ++ ws1 ++ key ++ ws2)
            ++ String "=" (ws3 ++ g ++ after))%string
      in He by (now rewrite !append_assoc).
    rewrite no_char_middle in He. discriminate.
Qed.

Lemma extract_field_absent_witness :
  _extract_wikitext_field "| latest_release_version = 17.2"
    ["latest_preview_version"; "latest_beta_version"] = None.
Proof.
  apply extract_field_absent. left.
  intros key [<- | [<- | []]]; reflexivity.
Defined.

Lemma prefix_before_char (c : ascii) (u a r t : string) :
  (a ++ String c r)%string = (u ++ t)%string -> no_char c u = true ->
  exists x, a = (u ++ x)%string.
Proof.
  revert a. induction u as [|d u IH]; intros a E Hu.
  - now exists a.
  - simpl in Hu. apply andb_true_iff in Hu. destruct Hu as [Hd Hu].
    destruct a as [|e a]; simpl in E; injection E as -> E.
    + unfold not_char in Hd. now rewrite Ascii.eqb_refl in Hd.
    + destruct (IH a E Hu) as (x & ->). now exists x.
Qed.

Lemma spaces_no_bar (ws : string) :
  string_forall is_space ws = true -> no_char "|" ws = true.
Proof.
  unfold no_char. induction ws as [|c ws IH]; simpl; [reflexivity|].
  intros E. apply andb_true_iff in E. destruct E as [Hc Hw].
  rewrite (IH Hw), andb_true_r.
  unfold not_char. destruct (Ascii.eqb_spec "|" c) as [<-|]; [discriminate|].
  reflexivity.
Qed.

Lemma contains_tail (p : string) (c : ascii) (s : string) :
  contains p (String c s) = false -> contains p s = false.
Proof.
  simpl. destruct (strip_prefix p (String c s)); [discriminate | auto].
Qed.

(** The pattern of a key does not match where the key would have to
    lie in a text before a [|] that does not hold it. *)
Lemma field_re_miss (key : string) (bol : bool) (c : ascii) (b s : string) :
  contains key (String c b) = false -> no_char "|" key = true ->
  field_re key bol (String c b ++ String "|" s) = None.
Proof.
  intros Hc Hk.
  destruct (field_re key bol (String c b ++ String "|" s)) as [g|] eqn:E;
    [|reflexivity].
  exfalso. apply field_re_inv in E.
  destruct E as (_ & ws1 & ws2 & ws3 & after & E & H1 & _).
  simpl in E. injection E as -> E.
  replace (ws1 ++ key ++ ws2 ++ String "=" (ws3 ++ g ++ after))%string
    with ((ws1 ++ key) ++ ws2 ++ String "=" (ws3 ++ g ++ after))%string
    in E by (now rewrite append_assoc).
  apply prefix_before_char in E.
  - destruct E as (x & ->). apply contains_tail in Hc.
    rewrite append_assoc, contains_middle in Hc. discriminate.
  - rewrite no_char_append, Hk, (spaces_no_bar _ H1). reflexivity.
Qed.

Lemma field_re_skip_to (key before s : string) (bol : bool) :
  contains key before = false -> no_char "|" key = true ->
  Re.search_from bol (field_re key) (before ++ String "|" s)
  = Re.search_from (line_start bol before) (field_re key) (String "|" s).
Proof.
  revert bol. induction before as [|c before IH]; intros bol Hc Hk;
    [reflexivity|].
  change ((String c before ++ String "|" s)%string)
    with (String c (before ++ String "|" s)).
  cbn [Re.search_from line_start].
  change (String c (before ++ String "|" s))
    with ((String c before ++ String "|" s)%string).
  rewrite (field_re_miss key bol c before s Hc Hk).
  apply IH; [now apply contains_tail in Hc | assumption].
Qed.

(** The pattern of a key on a line that holds the key and a value. *)
Lemma field_re_line (key ws1 ws2 ws3 value after : string) :
  head_not_space key = true ->
  string_forall is_space ws1 = true -> string_forall is_space ws2 = true ->
  string_forall is_space ws3 = true ->
  head_not_space value = true -> no_char newline value = true ->
  at_line_end after = true ->
  field_re key true
    ("|" ++ ws1 ++ key ++ ws2 ++ "=" ++ ws3 ++ value ++ after)
  = Some value.
Proof.
  intros Hk H1 H2 H3 Hv Hn Ha.
  unfold field_re, Re.bol_anchor. rewrite lit_append.
  destruct key as [|k key]; [discriminate|]. simpl in Hk.
  apply negb_true_iff in Hk.
  rewrite (star_det _ _ _ ws1
             (String k key ++ ws2 ++ "=" ++ ws3 ++ value ++ after)%string).
  2:{ intros cap c r Hc. apply lit_char_mismatch.
      destruct (Ascii.eqb_spec k c) as [->|]; [congruence | reflexivity]. }
  2:{ apply span_append; [assumption | exact Hk]. }
  rewrite lit_append.
  rewrite (star_det _ _ _ ws2 ("=" ++ ws3 ++ value ++ after)%string).
  2:{ intros cap c r Hc. apply lit_char_mismatch. now apply space_not_equals. }
  2:{ apply span_append; [assumption | reflexivity]. }
  rewrite lit_append.
  destruct value as [|v value]; [discriminate|]. simpl in Hv.
  apply negb_true_iff in Hv.
  unfold Re.star.
  apply (greedy_longest _ _ _ _ _ ws3 (String v value ++ after)%string).
  - apply span_append; [assumption | exact Hv].
  - split; [lia|]. rewrite length_append. lia.
  - apply (plus_longest _ _ _ (String v value) after).
    + apply span_append; [exact Hn|].
      destruct after as [|a after]; [exact I|]. simpl in Ha.
      unfold not_char. apply negb_false_iff.
      apply Ascii.eqb_eq in Ha. subst a. reflexivity.
    + discriminate.
    + unfold Re.eol. destruct after as [|a after]; [reflexivity|].
      simpl in Ha. now rewrite Ha.
Qed.

Lemma search_field_absent (key wikitext : string) :
  contains key wikitext = false ->
  Re.search (field_re key) wikitext = None.
Proof.
  intros Hc.
  destruct (Re.search (field_re key) wikitext) as [g|] eqn:E; [|reflexivity].
  exfalso. unfold Re.search in E. apply search_from_line in E.
  destruct E as (before & s & -> & E). apply field_re_inv in E.
  destruct E as (_ & ws1 & ws2 & ws3 & after & -> & _).
  replace (before ++ "|" ++ ws1 ++ key ++ ws2 ++ "=" ++ ws3 ++ g ++ after)%string
    with ((before ++ "|" ++ ws1) ++ key ++ ws2 ++ "=" ++ ws3 ++ g ++ after)%string
    in Hc by (now rewrite !append_assoc).
  rewrite contains_middle in Hc. discriminate.
Qed.

Lemma extract_field_skip (wikitext : string) (skipped keys : list string) :
  (forall k, In k skipped -> contains k wikitext = false) ->
  _extract_wikitext_field wikitext (skipped ++ keys)
  = _extract_wikitext_field wikitext keys.
Proof.
  induction skipped as [|k skipped IH]; intros Hs; [reflexivity|].
  cbn [app _extract_wikitext_field].
  rewrite (search_field_absent k wikitext) by (apply Hs; now left).
  apply IH. intros k' Hin. apply Hs. now right.
Qed.

(** X8.  The aliases of a field are tried in order, and the first one
    that the wikitext holds decides.  When the keys before [key] do not
    occur in the wikitext, [key] occurs first in a line
    [| key = value], at the start of that line and with whitespace only
    around the key and the [=], and the value starts with a character
    that is not whitespace and runs to the end of the line, the
    extractor returns the value, trimmed; the keys after [key] are not
    looked at. *)
Theorem extract_field_alias
    (before key ws1 ws2 ws3 value after : string)
    (skipped later : list string) :
  let wikitext :=
    (before ++ "|" ++ ws1 ++ key ++ ws2 ++ "=" ++ ws3 ++ value ++ after)%string
  in
  (forall k, In k skipped -> contains k wikitext = false) ->
  contains key before = false -> no_char "|" key = true ->
  line_start true before = true ->
  head_not_space key = true ->
  string_forall is_space ws1 = true -> string_forall is_space ws2 = true ->
  string_forall is_space ws3 = true ->
  head_not_space value = true -> no_char newline value = true ->
  at_line_end after = true ->
  _extract_wikitext_field wikitext (skipped ++ key :: later)
  = Some (strip value).
Proof.
  intros wikitext Hs Hc Hk Hl Hh H1 H2 H3 Hv Hn Ha.
  rewrite extract_field_skip by exact Hs.
  cbn [_extract_wikitext_field]. unfold Re.search, wikitext.
  change ("|" ++ ws1 ++ key ++ ws2 ++ "=" ++ ws3 ++ value ++ after)%string
    with (String "|" (ws1 ++ key ++ ws2 ++ "=" ++ ws3 ++ value ++ after)).
  rewrite field_re_skip_to by assumption. rewrite Hl.
  rewrite (search_from_here _ _ _ value); [reflexivity|].
  now apply field_re_line.
Qed.

Lemma extract_field_alias_witness :
  _extract_wikitext_field
    ("{{Infobox OS" ++ String newline
     ("| developer = Apple" ++ String newline
      ("| latest_release = 17.2 " ++ String newline "}}")))
    ["latest_release_version"; "latest_release"; "version"]
  = Some "17.2".
Proof.
  apply (extract_field_alias
           ("{{Infobox OS" ++ String newline
            ("| developer = Apple" ++ String newline EmptyString))
           "latest_release" " " " " " " "17.2 " (String newline "}}")
           ["latest_release_version"] ["version"]); try reflexivity.
  intros k [<- | []]. reflexivity.
Defined.

(** ** What the removal of references keeps *)

Lemma subsequence_refl (s : string) : subsequence s s.
Proof. induction s; constructor; assumption. Qed.

Lemma subsequence_trans (a b c : string) :
  subsequence a b -> subsequence b c -> subsequence a c.
Proof.
  intros Hab Hbc. revert a Hab.
  induction Hbc as [|x b c Hbc IH|x b c Hbc IH]; intros a Hab.
  - exact Hab.
  - apply subsequence_skip. now apply IH.
  - inversion Hab; subst.
    + apply subsequence_skip. now apply IH.
    + apply subsequence_keep. now apply IH.
Qed.

Lemma subsequence_length (a b : string) :
  subsequence a b -> String.length a <= String.length b.
Proof. induction 1; simpl; lia. Qed.

Lemma sub_from_subsequence (p : string -> option string) (skip : nat)
    (s : string) :
  subsequence (Re.sub_from p skip s) s.
Proof.
  revert skip. induction s as [|c s IH]; intros skip; cbn [Re.sub_from].
  - constructor.
  - destruct skip as [|n]; [|apply subsequence_skip, IH].
    destruct (p (String c s)) as [rest|].
    + destruct (String.length (String c s) - String.length rest) as [|n].
      * apply subsequence_keep, IH.
      * apply subsequence_skip, IH.
    + apply subsequence_keep, IH.
Qed.

Lemma remove_refs_text (value : string) :
  no_char "<" value = true -> remove_refs value = value.
Proof.
  intros Hv. unfold remove_refs.
  assert (B : Re.sub ref_block_re value = value).
  { rewrite <- (append_nil_r value) at 1.
    rewrite sub_text; [apply append_nil_r | apply ref_block_re_other | exact Hv]. }
  rewrite B. rewrite <- (append_nil_r value) at 1.
  rewrite sub_text;
    [apply append_nil_r | apply ref_selfclosing_re_other | exact Hv].
Qed.

(** X9.  The two substitutions at the head of the cleaner only delete:
    what they leave is the value with some characters left out, in the
    same order, so it is never longer; a value without [<] is left as it
    is, and its cleaned form is the parser's text of it, trimmed. *)
Theorem remove_refs_deletes_only `{Library} (value : string) :
  subsequence (remove_refs value) value
  /\ String.length (remove_refs value) <= String.length value
  /\ (no_char "<" value = true ->
      remove_refs value = value
      /\ _clean_wikitext value = strip (strip_code value)).
Proof.
  assert (S : subsequence (remove_refs value) value).
  { unfold remove_refs, Re.sub.
    eapply subsequence_trans; apply sub_from_subsequence. }
  split; [exact S|]. split; [now apply subsequence_length|].
  intros Hv. split; [now apply remove_refs_text|].
  unfold _clean_wikitext. now rewrite remove_refs_text.
Qed.

Lemma remove_refs_deletes_only_witness :
  remove_refs "17.2 (21C62)" = "17.2 (21C62)"
  /\ @_clean_wikitext plain_library "17.2 (21C62)"
     = strip (@strip_code plain_library "17.2 (21C62)").
Proof.
  exact (proj2 (proj2 (@remove_refs_deletes_only plain_library "17.2 (21C62)"))
           eq_refl).
Defined.

(** ** The date of a [Start date] template *)

Lemma zero_pad2_digits (d : string) :
  digits_1_2 d ->
  string_forall is_digit (zero_pad2 d) = true
  /\ String.length (zero_pad2 d) = 2.
Proof.
  intros [[Hne Hd] Hl].
  destruct d as [|a [|b [|c d]]]; simpl in *; try congruence; try lia.
  - now rewrite Hd.
  - now rewrite Hd.
Qed.

Lemma span_digits_dash (d rest : string) :
  string_forall is_digit d = true ->
  span is_digit (d ++ String "-" rest) = (d, String "-" rest).
Proof. intros Hd. now apply span_append. Qed.

(** The pattern of an ISO date on a date of that shape. *)
Lemma iso_date_re_shape (bol : bool) (y m d : string) :
  string_forall is_digit y = true -> String.length y = 4 ->
  string_forall is_digit m = true -> String.length m = 2 ->
  string_forall is_digit d = true -> String.length d = 2 ->
  iso_date_re bol (y ++ "-" ++ m ++ "-" ++ d)%string
  = Some (y ++ "-" ++ m ++ "-" ++ d)%string.
Proof.
  intros Hy Ly Hm Lm Hd Ld. unfold iso_date_re.
  apply (greedy_longest _ _ _ _ _ y ("-" ++ m ++ "-" ++ d)%string).
  - now apply span_digits_dash.
  - lia.
  - rewrite lit_append.
    apply (greedy_longest _ _ _ _ _ m ("-" ++ d)%string).
    + now apply span_digits_dash.
    + lia.
    + rewrite lit_append.
      apply (greedy_longest _ _ _ _ _ d EmptyString).
      * rewrite <- (append_nil_r d) at 1. now apply span_append.
      * lia.
      * reflexivity.
Qed.

(** X10.  A date taken from a [Start date] template has the shape of
    an ISO date: it has ten characters and the pattern the listing
    parser uses for dates, [\d{4}-\d{2}-\d{2}], matches the whole of
    it. *)
Theorem parse_wiki_date_template_iso `{Library}
    (value year month day : string) :
  Re.search start_date_re value = Some (year, month, day) ->
  exists date,
    _parse_wiki_date value = Ok (Some date)
    /\ String.length date = 10
    /\ Re.match_ iso_date_re date = Some date.
Proof.
  intros E. unfold _parse_wiki_date. rewrite E.
  unfold Re.search in E. apply search_from_inv in E.
  destruct E as (before & after & bol' & _ & E).
  apply start_date_re_inv in E.
  destruct E as (rest & _ & [_ Hy] & Ly & Hm & Hd).
  destruct (format_two_digits month Hm) as [Im Fm].
  destruct (format_two_digits day Hd) as [Id Fd].
  rewrite Im, Id. cbn [bind]. rewrite Fm, Fd.
  destruct (zero_pad2_digits month Hm) as [Dm Lm].
  destruct (zero_pad2_digits day Hd) as [Dd Ld].
  eexists. split; [reflexivity|]. split.
  - rewrite !length_append. cbn [String.length]. lia.
  - unfold Re.match_. now apply iso_date_re_shape.
Qed.

Lemma parse_wiki_date_template_iso_witness :
  exists date,
    @_parse_wiki_date plain_library "{{Start date|2023|9|5}}" = Ok (Some date)
    /\ String.length date = 10
    /\ Re.match_ iso_date_re date = Some date.
Proof.
  exact (@parse_wiki_date_template_iso plain_library
           "{{Start date|2023|9|5}}" "2023" "9" "5" eq_refl).
Defined.

(** ** The JSON sources *)

Lemma py_get_inv (d : json) (k : string) (default v : json) :
  py_get d k default = Ok v ->
  exists entries,
    d = JDict entries
    /\ v = match assoc k entries with Some x => x | None => default end.
Proof.
  destruct d; simpl; try discriminate. intros E. injection E as <-. eauto.
Qed.

Lemma py_get_dyn_inv (d k v : json) :
  py_get_dyn d k = Ok v ->
  exists entries,
    d = JDict entries /\ hashable k = true /\ v = history_date entries k.
Proof.
  destruct d; simpl; try discriminate.
  destruct k; simpl; try discriminate; intros E; injection E as <-; eauto.
Qed.

(** X11.  [fetch_firefox] returns exactly when the three answers are
    objects and the two versions can be looked up in a table (they are
    not lists or objects).  The version code of each channel is then its
    version, and the date is the entry of the channel's own history
    table for that version: null when the version is missing from the
    table or is not a text. *)
Theorem fetch_firefox_fields (w : World) (i : item) :
  fetch_firefox w = Ok i
  <-> exists versions history_stable history_dev,
        get_json w FIREFOX_URL = Ok (JDict versions)
        /\ get_json w
             "https://product-details.mozilla.org/1.0/firefox_history_major_releases.json"
           = Ok (JDict history_stable)
        /\ get_json w
             "https://product-details.mozilla.org/1.0/firefox_history_development_releases.json"
           = Ok (JDict history_dev)
        /\ hashable (field versions "LATEST_FIREFOX_VERSION") = true
        /\ hashable (field versions "LATEST_FIREFOX_RELEASED_DEVEL_VERSION")
           = true
        /\ i = Dict
                 [("stable", Release
                     {| version := field versions "LATEST_FIREFOX_VERSION";
                        version_code := field versions "LATEST_FIREFOX_VERSION";
                        release_date :=
                          history_date history_stable
                            (field versions "LATEST_FIREFOX_VERSION");
                        source := FIREFOX_URL |});
                  ("beta", Release
                     {| version :=
                          field versions "LATEST_FIREFOX_RELEASED_DEVEL_VERSION";
                        version_code :=
                          field versions "LATEST_FIREFOX_RELEASED_DEVEL_VERSION";
                        release_date :=
                          history_date history_dev
                            (field versions
                               "LATEST_FIREFOX_RELEASED_DEVEL_VERSION");
                        source := FIREFOX_URL |})].
Proof.
  unfold fetch_firefox, _request_json, FIREFOX_URL. split.
  - intros E.
    apply bind_ok in E. destruct E as (v & Hv & E).
    apply bind_ok in E. destruct E as (hs & Hhs & E).
    apply bind_ok in E. destruct E as (hd & Hhd & E).
    apply bind_ok in E. destruct E as (sv & Hsv & E).
    apply bind_ok in E. destruct E as (bv & Hbv & E).
    apply bind_ok in E. destruct E as (sdate & Hsd & E).
    apply bind_ok in E. destruct E as (bdate & Hbd & E).
    injection E as <-.
    apply py_get_inv in Hsv. destruct Hsv as (versions & -> & ->).
    apply py_get_inv in Hbv. destruct Hbv as (versions' & Hv' & ->).
    injection Hv' as <-.
    apply py_get_dyn_inv in Hsd. destruct Hsd as (h1 & -> & Hh1 & ->).
    apply py_get_dyn_inv in Hbd. destruct Hbd as (h2 & -> & Hh2 & ->).
    exists versions, h1, h2. repeat (split; [assumption|]). reflexivity.
  - intros (versions & h1 & h2 & Hv & H1 & H2 & Hs & Hb & ->).
    rewrite Hv, H1, H2. cbn [bind py_get]. fold (field versions "LATEST_FIREFOX_VERSION").
    fold (field versions "LATEST_FIREFOX_RELEASED_DEVEL_VERSION").
    destruct (field versions "LATEST_FIREFOX_VERSION");
      destruct (field versions "LATEST_FIREFOX_RELEASED_DEVEL_VERSION");
      try discriminate; reflexivity.
Qed.

Lemma fetch_firefox_fields_witness :
  fetch_firefox firefox_world
  = Ok (Dict
          [("stable", Release
              {| version := JStr "121.0"; version_code := JStr "121.0";
                 release_date := JNull; source := FIREFOX_URL |});
           ("beta", Release
              {| version := JStr "122.0b3"; version_code := JStr "122.0b3";
                 release_date := JStr "2023-12-22"; source := FIREFOX_URL |})]).
Proof.
  apply (proj2 (fetch_firefox_fields firefox_world _)).
  exists [("LATEST_FIREFOX_VERSION", JStr "121.0");
          ("LATEST_FIREFOX_RELEASED_DEVEL_VERSION", JStr "122.0b3")],
    [("120.0", JStr "2023-11-21"); ("122.0b3", JStr "2023-12-22")],
    [("120.0", JStr "2023-11-21"); ("122.0b3", JStr "2023-12-22")].
  repeat split.
Defined.

Lemma chrome_fetch_inv `{Library} (w : World) (channel : string)
    (r : ReleaseInfo) :
  _fetch w channel = Ok r
  <-> exists entry rest,
        get_json w (CHROME_URL ++ "?channel=" ++ channel)
        = Ok (JList (JDict entry :: rest))
        /\ r = chrome_record entry
                 (if String.eqb channel "Stable" then "stable_date"
                  else "beta_date").
Proof.
  unfold _fetch, _request_json. split.
  - intros E.
    apply bind_ok in E. destruct E as (data & Hd & E).
    apply bind_ok in E. destruct E as (entry & He & E).
    apply bind_ok in E. destruct E as (v & Hv & E).
    apply bind_ok in E. destruct E as (m & Hm & E).
    apply bind_ok in E. destruct E as (d & Hdt & E).
    injection E as <-.
    apply py_get_inv in Hv. destruct Hv as (entries & -> & ->).
    apply py_get_inv in Hm. destruct Hm as (e1 & E1 & ->). injection E1 as <-.
    apply py_get_inv in Hdt. destruct Hdt as (e2 & E2 & ->). injection E2 as <-.
    destruct data as [| | |s|l|]; try discriminate.
    + destruct s; discriminate.
    + destruct l as [|x rest]; [discriminate|]. injection He as ->.
      exists entries, rest. split; [exact Hd | reflexivity].
  - intros (entry & rest & Hd & ->).
    change (CHROME_URL ++ "?channel=" ++ channel)%string
      with ("https://chromiumdash.appspot.com/fetch_milestones?channel="
            ++ channel)%string in Hd.
    rewrite Hd. reflexivity.
Qed.

(** X12.  [fetch_chrome] returns exactly when the answer for each
    channel is a list whose first element is an object.  Only that first
    milestone is read: the version from [version], the version code from
    the text of [milestone], and the date from [stable_date] for the
    stable channel and from [beta_date] for the beta channel. *)
Theorem fetch_chrome_fields `{Library} (w : World) (i : item) :
  fetch_chrome w = Ok i
  <-> exists stable stable_rest beta beta_rest,
        get_json w (CHROME_URL ++ "?channel=Stable")
        = Ok (JList (JDict stable :: stable_rest))
        /\ get_json w (CHROME_URL ++ "?channel=Beta")
           = Ok (JList (JDict beta :: beta_rest))
        /\ i = Dict [("stable", Release (chrome_record stable "stable_date"));
                     ("beta", Release (chrome_record beta "beta_date"))].
Proof.
  unfold fetch_chrome. split.
  - intros E.
    apply bind_ok in E. destruct E as (s & Hs & E).
    apply bind_ok in E. destruct E as (b & Hb & E).
    injection E as <-.
    apply chrome_fetch_inv in Hs. destruct Hs as (es & rs & Hs & ->).
    apply chrome_fetch_inv in Hb. destruct Hb as (eb & rb & Hb & ->).
    exists es, rs, eb, rb. repeat split; assumption.
  - intros (es & rs & eb & rb & Hs & Hb & ->).
    rewrite (proj2 (chrome_fetch_inv w "Stable" _)) by eauto.
    rewrite (proj2 (chrome_fetch_inv w "Beta" _)) by eauto.
    reflexivity.
Qed.

Lemma fetch_chrome_fields_witness :
  @fetch_chrome plain_library chrome_world
  = Ok (Dict
          [("stable", Release
              {| version := JStr "121.0.6167.85"; version_code := JStr "121";
                 release_date := JStr "2024-01-23T00:00:00";
                 source := CHROME_URL |});
           ("beta", Release
              {| version := JStr "121.0.6167.85"; version_code := JStr "121";
                 release_date := JStr "2023-12-13T00:00:00";
                 source := CHROME_URL |})]).
Proof.
  apply (proj2 (@fetch_chrome_fields plain_library chrome_world _)).
  do 4 eexists. repeat split.
Defined.

(** *** Edge *)

Lemma ascii_compare_refl (a : ascii) : Ascii.compare a a = Eq.
Proof. unfold Ascii.compare. apply N.compare_refl. Qed.

Lemma ascii_compare_lt_trans (a b c : ascii) :
  Ascii.compare a b = Lt -> Ascii.compare b c = Lt -> Ascii.compare a c = Lt.
Proof.
  unfold Ascii.compare. rewrite !N.compare_lt_iff. lia.
Qed.

Lemma string_compare_lt_trans (a b c : string) :
  String.compare a b = Lt -> String.compare b c = Lt ->
  String.compare a c = Lt.
Proof.
  revert b c. induction a as [|x a IH]; intros [|y b] [|z c]; simpl;
    try discriminate; auto.
  destruct (Ascii.compare x y) eqn:Exy; try discriminate;
    destruct (Ascii.compare y z) eqn:Eyz; try discriminate; intros H1 H2.
  - apply Ascii.compare_eq_iff in Exy, Eyz. subst.
    rewrite ascii_compare_refl. now apply (IH b).
  - apply Ascii.compare_eq_iff in Exy. subst. now rewrite Eyz.
  - apply Ascii.compare_eq_iff in Eyz. subst. now rewrite Exy.
  - now rewrite (ascii_compare_lt_trans _ _ _ Exy Eyz).
Qed.

Lemma string_ltb_trans (a b c : string) :
  String.ltb a b = true -> String.ltb b c = true -> String.ltb a c = true.
Proof.
  unfold String.ltb.
  destruct (String.compare a b) eqn:Eab; try discriminate.
  destruct (String.compare b c) eqn:Ebc; try discriminate.
  now rewrite (string_compare_lt_trans _ _ _ Eab Ebc).
Qed.

(** [a <= b] and [b < c] give [a < c]. *)
Lemma string_le_ltb_trans (a b c : string) :
  String.ltb b a = false -> String.ltb b c = true -> String.ltb a c = true.
Proof.
  intros Hba Hbc.
  destruct (String.compare a b) eqn:Eab.
  - apply String.compare_eq_iff in Eab. now subst.
  - apply (string_ltb_trans a b c); [|exact Hbc].
    unfold String.ltb. now rewrite Eab.
  - unfold String.ltb in Hba. rewrite String.compare_antisym, Eab in Hba.
    discriminate.
Qed.

(** [max] returns the first item that no later item exceeds. *)
Lemma max_loop_first `{Library} (key : json -> result json)
    (items : list json) (best best_key r : json) :
  key best = Ok best_key ->
  max_loop key best best_key items = Ok r ->
  exists before after kr,
    best :: items = before ++ r :: after
    /\ key r = Ok kr
    /\ Forall (fun later => exists kl, key later = Ok kl
                                       /\ py_gt kl kr = Ok false) after.
Proof.
  revert best best_key. induction items as [|x items IH];
    intros best bk Hb E; simpl in E.
  - injection E as <-. exists [], [], bk. repeat split; auto.
  - apply bind_ok in E. destruct E as (kx & Hx & E).
    apply bind_ok in E. destruct E as (gt & Hgt & E).
    destruct gt.
    + destruct (IH x kx Hx E) as (before & after & kr & Hl & Hk & Ha).
      exists (best :: before), after, kr. rewrite Hl. repeat split; auto.
    + destruct (IH best bk Hb E) as (before & after & kr & Hl & Hk & Ha).
      destruct before as [|b before]; simpl in Hl; injection Hl as Hbest Hitems.
      * subst best items. exists [], (x :: after), kr. repeat split; auto.
        apply Forall_cons; [|exact Ha].
        exists kx. split; [exact Hx|]. congruence.
      * subst b items. exists (best :: x :: before), after, kr.
        repeat split; auto.
Qed.

Lemma py_max_first `{Library} (iterable : json) (key : json -> result json)
    (r : json) :
  py_max iterable key = Ok r ->
  exists before after kr,
    py_iter iterable = Ok (before ++ r :: after)
    /\ key r = Ok kr
    /\ Forall (fun later => exists kl, key later = Ok kl
                                       /\ py_gt kl kr = Ok false) after.
Proof.
  unfold py_max. intros E.
  apply bind_ok in E. destruct E as (items & Hi & E).
  destruct items as [|x items]; [discriminate|].
  apply bind_ok in E. destruct E as (kx & Hx & E).
  destruct (max_loop_first key items x kx r Hx E)
    as (before & after & kr & Hl & Hk & Ha).
  exists before, after, kr. rewrite Hi, Hl. repeat split; auto.
Qed.

(** On keys that are texts [max] returns the first of the items with
    the greatest key: the items before it have a smaller key, no item
    after it has a greater one. *)
Lemma max_loop_texts `{Library} (key : json -> result json)
    (time : json -> option string) (items : list json) (best r : json)
    (tb : string) :
  orders_texts ->
  (forall x t, time x = Some t -> key x = Ok (JStr t)) ->
  time best = Some tb -> Forall (fun x => time x <> None) items ->
  max_loop key best (JStr tb) items = Ok r ->
  exists before after tr,
    best :: items = before ++ r :: after
    /\ time r = Some tr
    /\ Forall (fun x => exists t, time x = Some t /\ String.ltb t tr = true)
         before
    /\ Forall (fun x => exists t, time x = Some t /\ String.ltb tr t = false)
         after.
Proof.
  intros Ho Hk. revert best tb. induction items as [|x items IH];
    intros best tb Hb Ht E.
  - simpl in E. injection E as <-. exists [], [], tb. repeat split; auto.
  - apply Forall_cons_iff in Ht. destruct Ht as [Hx Ht].
    destruct (time x) as [tx|] eqn:Tx; [clear Hx | congruence].
    cbn [max_loop] in E. rewrite (Hk x tx Tx) in E. cbn [bind] in E.
    rewrite Ho in E. cbn [bind] in E.
    destruct (String.ltb tb tx) eqn:G.
    + destruct (IH x tx Tx Ht E) as (before & after & tr & Hl & Hr & Fb & Fa).
      exists (best :: before), after, tr. rewrite Hl.
      split; [reflexivity|]. split; [exact Hr|]. split; [|exact Fa].
      apply Forall_cons; [|exact Fb]. exists tb. split; [exact Hb|].
      destruct before as [|b before]; simpl in Hl; injection Hl as Hh Hi.
      * subst x. congruence.
      * subst b. apply Forall_cons_iff in Fb.
        destruct Fb as [(t & Tt & Lt) _].
        assert (t = tx) by congruence. subst t.
        now apply (string_ltb_trans tb tx tr).
    + destruct (IH best tb Hb Ht E) as (before & after & tr & Hl & Hr & Fb & Fa).
      destruct before as [|b before]; simpl in Hl; injection Hl as Hh Hi.
      * subst best items. assert (tr = tb) by congruence. subst tr.
        exists [], (x :: after), tb.
        split; [reflexivity|]. split; [exact Hr|]. split; [exact Fb|].
        apply Forall_cons; [|exact Fa]. exists tx. now split.
      * subst b items. exists (best :: x :: before), after, tr.
        split; [reflexivity|]. split; [exact Hr|]. split; [|exact Fa].
        apply Forall_cons_iff in Fb. destruct Fb as [(t & Tt & Lt) Fb].
        assert (t = tb) by congruence. subst t.
        apply Forall_cons; [now exists tb|].
        apply Forall_cons; [|exact Fb]. exists tx. split; [exact Tx|].
        now apply (string_le_ltb_trans tx tb tr).
Qed.

Lemma release_time_key (x : json) (t : string) :
  release_time x = Some t ->
  py_get x "PublishedTime" (JStr EmptyString) = Ok (JStr t).
Proof.
  destruct x as [| | | | |entries]; simpl; try discriminate.
  destruct (assoc "PublishedTime" entries) as [[| | |s| |]|];
    try discriminate; now intros [= ->].
Qed.

Lemma chars_str (s : string) (v : json) :
  In v (chars s) -> exists t, v = JStr t.
Proof.
  induction s as [|c s IH]; simpl; [contradiction|].
  intros [<- | F]; eauto.
Qed.

(** [next] returns the first product of the name, or nothing when
    every product has another name. *)
Lemma find_product_cases (name : string) (products : list json)
    (found : json) :
  find_product name products = Ok found ->
  (found = JNull /\ Forall (other_product name) products)
  \/ exists skipped entries others,
       products = skipped ++ JDict entries :: others
       /\ found = JDict entries
       /\ Forall (other_product name) skipped
       /\ assoc "Product" entries = Some (JStr name).
Proof.
  revert found. induction products as [|p products IH]; simpl; intros found E.
  - injection E as <-. left. split; [reflexivity | apply Forall_nil].
  - apply bind_ok in E. destruct E as (v & Hv & E).
    apply py_get_inv in Hv. destruct Hv as (entries & -> & ->).
    destruct (eq_str _ name) eqn:Q.
    + injection E as <-. right. exists [], entries, products.
      split; [reflexivity|]. split; [reflexivity|].
      split; [apply Forall_nil|].
      destruct (assoc "Product" entries) as [[| | |t| |]|]; try discriminate.
      simpl in Q. apply String.eqb_eq in Q. now subst.
    + assert (O : other_product name (JDict entries)).
      { exists entries. split; [reflexivity | exact Q]. }
      destruct (IH _ E) as [[-> F] | (sk & e & ot & -> & -> & F & Ha)].
      * left. split; [reflexivity|]. now apply Forall_cons.
      * right. exists (JDict entries :: sk), e, ot.
        split; [reflexivity|]. split; [reflexivity|].
        split; [now apply Forall_cons | exact Ha].
Qed.

(** X13.  What [fetch_edge] stores for a channel, on an interpreter
    that orders texts as Python does: the null record when every product
    of the answer has another name, and otherwise the fields of one
    release of the first product of that name, taken from its non-empty
    list [Releases] of objects.  When the times of the releases are
    texts, that release is the one [max] picks by [PublishedTime]: every
    release before it in the list has a smaller time and no release
    after it has a greater one, so that of several releases with the
    greatest time the first is taken. *)
Theorem edge_channel_release `{Library} (data : json) (channel_name : string)
    (r : ReleaseInfo) :
  orders_texts ->
  edge_channel data channel_name = Ok r ->
  edge_release_of data channel_name r.
Proof.
  intros Ho E. unfold edge_channel in E. unfold edge_release_of. cbv zeta.
  apply bind_ok in E. destruct E as (products & Hp & E).
  apply bind_ok in E. destruct E as (found & Hf & E).
  apply find_product_cases in Hf.
  destruct Hf as [[-> F] | (skipped & product & others & -> & -> & F & Ha)].
  - simpl in E. injection E as <-. left. split; [reflexivity|]. eauto.
  - right.
    assert (T : py_truthy (JDict product) = true).
    { destruct product; [discriminate | reflexivity]. }
    rewrite T in E. cbn [negb] in E.
    apply bind_ok in E. destruct E as (releases & Hr & E).
    apply bind_ok in E. destruct E as (release & Hm & E).
    apply bind_ok in E. destruct E as (v & Hv & E).
    apply bind_ok in E. destruct E as (id & Hid & E).
    apply bind_ok in E. destruct E as (time & Ht & E).
    injection E as <-.
    apply py_get_inv in Hv. destruct Hv as (rel & -> & ->).
    apply py_get_inv in Hid. destruct Hid as (rel1 & E1 & ->).
    injection E1 as <-.
    apply py_get_inv in Ht. destruct Ht as (rel2 & E2 & ->).
    injection E2 as <-.
    simpl in Hr. injection Hr as <-.
    pose proof Hm as Hm'. apply py_max_first in Hm'.
    destruct Hm' as (before0 & after0 & kr & Hi & _ & _).
    assert (R : exists items,
               assoc "Releases" product = Some (JList items)
               /\ py_iter (JList items) = Ok items).
    { destruct (assoc "Releases" product) as [[| | |s|l|e]|];
        simpl in Hi; try discriminate.
      - exfalso. injection Hi as Hi.
        assert (F' : In (JDict rel) (chars s)) by (rewrite Hi; apply in_elt).
        apply chars_str in F'. destruct F' as (t & F'). discriminate.
      - exists l. now split.
      - exfalso. injection Hi as Hi.
        assert (F' : In (JDict rel) (map (fun kv => JStr (fst kv)) e))
          by (rewrite Hi; apply in_elt).
        apply in_map_iff in F'. destruct F' as (kv & F' & _). discriminate. }
    destruct R as (items & R & _). rewrite R in Hm, Hi.
    cbn [py_iter] in Hi. injection Hi as Hi.
    assert (Dec : forall l : list json,
               Forall (fun x => release_time x <> None) l
               \/ ~ Forall (fun x => release_time x <> None) l).
    { intros l. destruct (Forall_dec (fun x => release_time x <> None)) with (l := l)
        as [Y | N]; [|now left | now right].
      intros x. destruct (release_time x); [left; discriminate | right; congruence]. }
    destruct (Dec items) as [Y | N].
    + unfold py_max in Hm. cbn [py_iter bind] in Hm.
      destruct items as [|x items]; [discriminate|].
      apply bind_ok in Hm. destruct Hm as (kx & Hx & Hm).
      apply Forall_cons_iff in Y. destruct Y as [Yx Y].
      destruct (release_time x) as [tx|] eqn:Tx; [clear Yx | congruence].
      rewrite (release_time_key x tx Tx) in Hx. injection Hx as <-.
      destruct (max_loop_texts _ release_time items x (JDict rel) tx Ho
                  release_time_key Tx Y Hm)
        as (before & after & tr & Hl & Hr & Fb & Fa).
      exists skipped, product, others, (x :: items), before, rel, after.
      repeat (split; [assumption || reflexivity|]).
      intros _. exists tr. repeat split; assumption.
    + exists skipped, product, others, items, before0, rel, after0.
      repeat (split; [assumption || reflexivity|]).
      intros Y. contradiction.
Qed.

Lemma edge_channel_release_witness :
  @edge_release_of plain_library edge_releases "Stable"
    {| version := JStr "120.0.2210.61";
       version_code := JStr "2";
       release_date := JStr "2023-12-07T18:00:00";
       source := EDGE_URL |}.
Proof.
  apply (@edge_channel_release plain_library edge_releases "Stable").
  - intros a b. reflexivity.
  - reflexivity.
Defined.

Lemma find_product_other (name : string) (products : list json) :
  Forall (other_product name) products ->
  find_product name products = Ok JNull.
Proof.
  induction 1 as [|p products (entries & -> & Q) _ IH]; [reflexivity|].
  simpl. unfold field in Q. now rewrite Q.
Qed.

(** The loop over the two channels and the two lookups that follow
    it. *)
Lemma fetch_edge_channels `{Library} (w : World) :
  fetch_edge w
  = (data <- _request_json w EDGE_URL ;;
     stable <- edge_channel data "Stable" ;;
     beta <- edge_channel data "Beta" ;;
     Ok (Dict [("stable", Release stable); ("beta", Release beta)])).
Proof.
  unfold fetch_edge. destruct (_request_json w EDGE_URL) as [data|e];
    [|reflexivity].
  cbn [bind edge_loop].
  destruct (edge_channel data "Stable") as [s|e]; [|reflexivity].
  cbn [bind].
  destruct (edge_channel data "Beta") as [b|e]; reflexivity.
Qed.

(** X14.  When the answer of Edge is a list of objects none of which
    is the product of a channel, [fetch_edge] raises nothing: it returns
    for that channel the record whose version, version code and date are
    null.  The two lookups in the dict of channels at its end always
    find their key. *)
Theorem fetch_edge_without_product `{Library} (w : World)
    (products : list json) :
  get_json w EDGE_URL = Ok (JList products) ->
  Forall (other_product "Microsoft Edge Stable") products ->
  Forall (other_product "Microsoft Edge Beta") products ->
  fetch_edge w
  = Ok (Dict [("stable", Release edge_null_record);
              ("beta", Release edge_null_record)]).
Proof.
  intros E Hs Hb. rewrite fetch_edge_channels. unfold _request_json.
  rewrite E. cbn [bind]. unfold edge_channel. cbn [py_iter bind].
  change ("Microsoft Edge " ++ "Stable")%string with "Microsoft Edge Stable".
  change ("Microsoft Edge " ++ "Beta")%string with "Microsoft Edge Beta".
  rewrite (find_product_other _ _ Hs), (find_product_other _ _ Hb).
  reflexivity.
Qed.

Lemma fetch_edge_without_product_witness :
  @fetch_edge plain_library edge_other_world
  = Ok (Dict [("stable", Release edge_null_record);
              ("beta", Release edge_null_record)]).
Proof.
  apply (@fetch_edge_without_product plain_library edge_other_world
           [JDict [("Product", JStr "Microsoft Edge Dev")];
            JDict [("Name", JStr "Microsoft Edge Stable")]]).
  - reflexivity.
  - repeat (apply Forall_cons; [eexists; split; reflexivity|]). apply Forall_nil.
  - repeat (apply Forall_cons; [eexists; split; reflexivity|]). apply Forall_nil.
Defined.

(** ** The Opera listing *)

Lemma latest_of_listing_cases (soup : node) :
  components_within_limit (listing_versions soup) = true ->
  (listing_versions soup = [] /\ latest_of_listing soup = Ok (None, None))
  \/ exists v date,
       In (v, date) (listing_versions soup)
       /\ latest_of_listing soup = Ok (Some v, date).
Proof.
  unfold latest_of_listing, components_within_limit. intros Hl.
  rewrite forallb_forall in Hl.
  assert (K : forall e, In e (listing_versions soup) ->
                        version_key e = Ok (version_tuple e)).
  { intros e He. apply (listing_versions_keys soup e He). now apply Hl. }
  destruct (listing_versions soup) as [|x l]; [now left|]. right.
  destruct (py_sort_reverse_spec version_key version_tuple x l K)
    as ([v date] & t & S & P & _).
  exists v, date. split.
  - apply (Permutation_in _ (Permutation_sym P)). now left.
  - now rewrite S.
Qed.

Lemma forallb_false {A : Type} (f : A -> bool) (l : list A) :
  forallb f l = false -> exists x, In x l /\ f x = false.
Proof.
  induction l as [|a l IH]; simpl; [discriminate|].
  destruct (f a) eqn:Fa; simpl.
  - intros H. destruct (IH H) as (x & Hx & Fx). exists x. auto.
  - intros _. exists a. auto.
Qed.

Lemma mapM_raise {A B : Type} (f : A -> result B) (l : list A) (e : exn) :
  (forall x, In x l -> (exists y, f x = Ok y) \/ f x = Raise e) ->
  (exists x, In x l /\ f x = Raise e) ->
  mapM f l = Raise e.
Proof.
  induction l as [|a l IH]; intros Hall (x & Hx & Fx); [destruct Hx|].
  cbn [mapM]. destruct (Hall a (or_introl eq_refl)) as [(y & Fa) | Fa];
    rewrite Fa; [|reflexivity].
  cbn [bind]. destruct Hx as [-> | Hx]; [congruence|].
  rewrite IH; [reflexivity | intros; apply Hall; now right | eauto].
Qed.

Lemma latest_of_listing_long (soup : node) :
  components_within_limit (listing_versions soup) = false ->
  latest_of_listing soup = Raise ValueError.
Proof.
  unfold latest_of_listing, components_within_limit. intros Hl.
  apply forallb_false in Hl. destruct Hl as (e & He & Fe).
  assert (M : mapM version_key (listing_versions soup) = Raise ValueError).
  { apply mapM_raise.
    - intros x Hx. destruct (parts_within_limit (fst x)) eqn:Px.
      + left. exists (version_tuple x). now apply (listing_versions_keys soup).
      + right. now apply (listing_versions_long soup).
    - exists e. split; [exact He|]. now apply (listing_versions_long soup). }
  destruct (listing_versions soup) as [|x l]; [destruct He|].
  unfold py_sort_reverse. now rewrite M.
Qed.

(** X15.  From the parsed page on, the listing parser raises nothing
    but the [ValueError] of [int]: it raises exactly when a collected
    version has a component of more digits than [int] accepts.
    Otherwise it returns, a version exactly when the page has a version
    link, and then a pair that the loop collected; without a version
    link both the version and the date are absent. *)
Theorem latest_of_listing_returns (soup : node) :
  (components_within_limit (listing_versions soup) = true ->
   exists v date,
     latest_of_listing soup = Ok (v, date)
     /\ (v = None <-> listing_versions soup = [])
     /\ (v = None -> date = None)
     /\ (forall s, v = Some s -> In (s, date) (listing_versions soup)))
  /\ (components_within_limit (listing_versions soup) = false ->
      latest_of_listing soup = Raise ValueError).
Proof.
  split; [|apply latest_of_listing_long].
  intros Hl.
  destruct (latest_of_listing_cases soup Hl) as [[L E] | (v & date & Hin & E)].
  - exists None, None. split; [exact E|]. split; [tauto|].
    split; [reflexivity | discriminate].
  - exists (Some v), date. split; [exact E|]. split; [|split].
    + split; [discriminate|]. intros L. rewrite L in Hin. contradiction.
    + discriminate.
    + intros s Hs. now injection Hs as <-.
Qed.

Lemma latest_of_listing_returns_witness :
  (exists v date, latest_of_listing opera_listing = Ok (v, date))
  /\ latest_of_listing long_component_listing = Raise ValueError.
Proof.
  destruct (latest_of_listing_returns opera_listing) as [R _].
  destruct (R ltac:(vm_compute; reflexivity)) as (v & date & E & _).
  split; [now exists v, date|].
  apply (proj2 (latest_of_listing_returns long_component_listing)).
  vm_compute. reflexivity.
Defined.

(** X16.  [fetch_opera] returns once the two listing pages are
    fetched, the HTML parser has accepted them and no version they list
    has a component of more digits than [int] accepts.  The version code
    of each channel is its version, every field is a text or null, and a
    page without a version link gives a null version and a null date. *)
Theorem fetch_opera_returns `{Library} (w : World)
    (stable_page beta_page : string) (stable_soup beta_soup : node) :
  get_text w "https://get.geo.opera.com/pub/opera/desktop/" = Ok stable_page ->
  get_text w "https://get.geo.opera.com/pub/opera-beta/" = Ok beta_page ->
  html_parser stable_page = Ok stable_soup ->
  html_parser beta_page = Ok beta_soup ->
  components_within_limit (listing_versions stable_soup) = true ->
  components_within_limit (listing_versions beta_soup) = true ->
  exists stable beta,
    fetch_opera w
    = Ok (Dict [("stable", Release stable); ("beta", Release beta)])
    /\ version_code stable = version stable
    /\ version_code beta = version beta
    /\ Forall text_or_null
         [version stable; release_date stable; version beta; release_date beta]
    /\ (listing_versions stable_soup = [] ->
        version stable = JNull /\ release_date stable = JNull)
    /\ (listing_versions beta_soup = [] ->
        version beta = JNull /\ release_date beta = JNull).
Proof.
  intros Es Eb Ps Pb Ls Lb.
  unfold fetch_opera, _parse_opera_listing, _request_text.
  rewrite Es, Eb. cbn [bind]. rewrite Ps, Pb. cbn [bind].
  assert (C : forall soup,
             components_within_limit (listing_versions soup) = true ->
             exists r, latest_of_listing soup = Ok r
                       /\ (listing_versions soup = [] -> r = (None, None))).
  { intros soup Hl.
    destruct (latest_of_listing_cases soup Hl)
      as [[L E] | (v & date & Hin & E)].
    - exists (None, None). now split.
    - exists (Some v, date). split; [exact E|].
      intros L. rewrite L in Hin. contradiction. }
  destruct (C stable_soup Ls) as (s & -> & Hs).
  destruct (C beta_soup Lb) as (b & -> & Hb).
  cbn [bind]. eexists _, _. split; [reflexivity|].
  cbn [version version_code release_date].
  split; [reflexivity|]. split; [reflexivity|].
  split; [repeat (apply Forall_cons; [apply opt_str_text|]); apply Forall_nil|].
  split; intros L.
  - now rewrite (Hs L).
  - now rewrite (Hb L).
Qed.

Lemma fetch_opera_returns_witness :
  exists stable beta,
    @fetch_opera plain_library quiet_world
    = Ok (Dict [("stable", Release stable); ("beta", Release beta)])
    /\ version stable = JNull /\ release_date stable = JNull
    /\ version_code beta = version beta.
Proof.
  destruct (@fetch_opera_returns plain_library quiet_world EmptyString
              EmptyString (Tag "[document]" [] []) (Tag "[document]" [] [])
              eq_refl eq_refl eq_refl eq_refl eq_refl eq_refl)
    as (stable & beta & E & _ & Cb & _ & Ls & _).
  exists stable, beta. split; [exact E|].
  destruct (Ls eq_refl) as [V D]. repeat split; assumption.
Defined.

Lemma iso_date_re_inv (bol : bool) (s d : string) :
  iso_date_re bol s = Some d ->
  String.length d = 10 /\ exists after, s = (d ++ after)%string.
Proof.
  unfold iso_date_re. intros E.
  apply greedy_inv in E. destruct E as (y & r1 & -> & _ & Ly & E).
  apply lit_inv in E. destruct E as (r2 & -> & E).
  apply greedy_inv in E. destruct E as (m & r3 & -> & _ & Lm & E).
  apply lit_inv in E. destruct E as (r4 & -> & E).
  apply greedy_inv in E. destruct E as (dd & r5 & -> & _ & Ld & E).
  injection E as <-. split.
  - repeat first [rewrite length_append
                 | progress cbn [String.length String.append]].
    lia.
  - exists r5. norm_append. reflexivity.
Qed.

Lemma node_induction (P : node -> Prop) :
  (forall s, P (Text s)) -> (forall s, P (Hidden s)) ->
  (forall name attrs children,
      Forall P children -> P (Tag name attrs children)) ->
  forall n, P n.
Proof.
  intros Ht Hh Hg.
  refine (fix go (n : node) : P n :=
            match n with
            | Text s => Ht s
            | Hidden s => Hh s
            | Tag name attrs children =>
                Hg name attrs children
                  ((fix all (l : list node) : Forall P l :=
                      match l with
                      | [] => Forall_nil P
                      | c :: l' => Forall_cons c (go c) (all l')
                      end) children)
            end).
Qed.

(** The strings of a child are among the strings of its parent. *)
Lemma all_strings_child (name : string) (attrs : list (string * string))
    (children : list node) (child : node) (s : string) :
  In child children -> In s (all_strings child) ->
  In s (all_strings (Tag name attrs children)).
Proof.
  intros Hc Hs. cbn [all_strings].
  induction children as [|c children IH]; [destruct Hc|].
  apply in_or_app. destruct Hc as [-> | Hc]; [now left | right; now apply IH].
Qed.

(** [find_all] pairs every link with the element it is a child of. *)
Lemma find_all_a_child (soup link parent : node) :
  In (link, parent) (find_all_a soup) ->
  exists name attrs children,
    parent = Tag name attrs children /\ In link children.
Proof.
  revert link parent. induction soup as [s | s | name attrs children IH]
    using node_induction; intros link parent Hin; try destruct Hin.
  cbn [find_all_a] in Hin.
  assert (G : forall cs,
             incl cs children -> 
             In (link, parent)
               ((fix below (cs : list node) : list (node * node) :=
                   match cs with
                   | [] => []
                   | c :: cs' =>
                       match c with
                       | Tag name0 _ _ =>
                           (if String.eqb name0 "a"
                            then [(c, Tag name attrs children)] else [])
                           ++ find_all_a c
                       | _ => []
                       end ++ below cs'
                   end) cs) ->
             exists name' attrs' children',
               parent = Tag name' attrs' children' /\ In link children').
  { induction cs as [|c cs IHcs]; intros Hi Hb; [destruct Hb|].
    apply in_app_or in Hb. destruct Hb as [Hb | Hb].
    - destruct c as [t | t | cname cattrs cchildren]; try destruct Hb.
      apply in_app_or in Hb. destruct Hb as [Hb | Hb].
      + destruct (String.eqb cname "a"); [|destruct Hb].
        destruct Hb as [Hb | []]. injection Hb as <- <-.
        exists name, attrs, children. split; [reflexivity|].
        apply Hi. now left.
      + rewrite Forall_forall in IH.
        apply (IH (Tag cname cattrs cchildren)); [apply Hi; now left | exact Hb].
    - apply IHcs; [|exact Hb]. intros x Hx. apply Hi. now right. }
  apply (G children); [apply incl_refl | exact Hin].
Qed.

(** X17.  The date of a collected pair is the first text of the shape
    [dddd-dd-dd] in the text of the element that holds the link, ten
    characters of that text, or absent when there is none.  The link is
    a child of that element, so the text that is searched holds the text
    of the link itself, and a date written in the link is taken like a
    date of the row.  All version links under one parent are collected
    with the same date. *)
Theorem listing_date_of_parent (soup : node) (v : string)
    (date : option string) :
  In (v, date) (listing_versions soup) ->
  exists link parent,
    In (link, parent) (find_all_a soup)
    /\ Re.match_ version_re (tag_get link "href" EmptyString) = Some v
    /\ date = Re.search iso_date_re (get_text_strip " " parent)
    /\ (forall s, In s (all_strings link) -> In s (all_strings parent))
    /\ (forall d, date = Some d ->
          String.length d = 10
          /\ exists before after,
               get_text_strip " " parent = (before ++ d ++ after)%string)
    /\ (forall link' v' date',
          In (v', date') (listing_entry (link', parent)) -> date' = date).
Proof.
  unfold listing_versions. intros Hin. apply in_flat_map in Hin.
  destruct Hin as ([link parent] & Ha & He).
  exists link, parent. split; [exact Ha|].
  unfold listing_entry in He.
  destruct (Re.match_ version_re (tag_get link "href" EmptyString)) as [v0|];
    [|contradiction].
  destruct He as [He | []]. injection He as -> <-.
  split; [reflexivity|]. split; [reflexivity|]. split; [|split].
  - intros s Hs. apply find_all_a_child in Ha.
    destruct Ha as (name & attrs & children & -> & Hc).
    now apply (all_strings_child name attrs children link).
  - intros d E. unfold Re.search in E. apply search_from_inv in E.
    destruct E as (before & s & bol' & Hs & E).
    apply iso_date_re_inv in E. destruct E as (L & after & ->).
    split; [exact L|]. now exists before, after.
  - intros link' v' date' He. unfold listing_entry in He.
    destruct (Re.match_ version_re (tag_get link' "href" EmptyString));
      [|contradiction].
    destruct He as [He | []]. now injection He as _ <-.
Qed.

Lemma listing_date_of_parent_witness :
  exists link parent,
    In (link, parent) (find_all_a dated_link_listing)
    /\ Some "2020-01-01" = Re.search iso_date_re (get_text_strip " " parent)
    /\ (forall s, In s (all_strings link) -> In s (all_strings parent)).
Proof.
  destruct (listing_date_of_parent dated_link_listing "91.0.4516.20"
              (Some "2020-01-01") (or_introl eq_refl))
    as (link & parent & Ha & _ & Hd & Hs & _).
  exists link, parent. repeat split; assumption.
Defined.

Lemma list_ltb_first_difference (p r r' : list Z) (x y : Z) :
  (x < y)%Z -> list_ltb (p ++ x :: r) (p ++ y :: r') = true.
Proof.
  intros Hxy. induction p as [|z p IH]; simpl.
  - destruct (Z.eqb_spec x y); [lia|]. now apply Z.ltb_lt.
  - now rewrite Z.eqb_refl.
Qed.

Lemma list_ltb_prefix (p r : list Z) (x : Z) :
  list_ltb p (p ++ x :: r) = true.
Proof.
  induction p as [|z p IH]; simpl; [reflexivity|]. now rewrite Z.eqb_refl.
Qed.

(** X18.  How the listing parser orders versions whose components have
    no more digits than [int] accepts.  The sort key of a dotted version
    is the list of the numbers its parts denote; two versions are
    ordered by the first part in which they differ, compared as numbers
    and not as text; and a version ranks below every version that
    extends it with further parts. *)
Theorem version_order (prefix rest rest' : list string) (a b : string)
    (date date' : option string) :
  Forall digits (prefix ++ a :: b :: rest ++ rest') ->
  Forall (fun part => String.length part <= INT_MAX_STR_DIGITS)
    (prefix ++ a :: b :: rest ++ rest') ->
  version_key (String.concat "." (prefix ++ a :: rest), date)
  = Ok (map (digits_value 0) (prefix ++ a :: rest))
  /\ ((digits_value 0 a < digits_value 0 b)%Z ->
      exists ka kb,
        version_key (String.concat "." (prefix ++ a :: rest), date) = Ok ka
        /\ version_key (String.concat "." (prefix ++ b :: rest'), date')
           = Ok kb
        /\ list_ltb ka kb = true)
  /\ exists k k',
       version_key (String.concat "." (prefix ++ [a]), date) = Ok k
       /\ version_key (String.concat "." (prefix ++ a :: b :: rest), date')
          = Ok k'
       /\ list_ltb k k' = true.
Proof.
  intros Hd Hl.
  apply Forall_app in Hd. destruct Hd as [Dp Hd].
  apply Forall_cons_iff in Hd. destruct Hd as [Da Hd].
  apply Forall_cons_iff in Hd. destruct Hd as [Db Hd].
  apply Forall_app in Hd. destruct Hd as [Dr Dr'].
  apply Forall_app in Hl. destruct Hl as [Lp Hl].
  apply Forall_cons_iff in Hl. destruct Hl as [La Hl].
  apply Forall_cons_iff in Hl. destruct Hl as [Lb Hl].
  apply Forall_app in Hl. destruct Hl as [Lr Lr'].
  assert (K : forall x l d,
             digits x -> String.length x <= INT_MAX_STR_DIGITS ->
             Forall digits l ->
             Forall (fun part => String.length part <= INT_MAX_STR_DIGITS) l ->
             version_key (String.concat "." (prefix ++ x :: l), d)
             = Ok (map (digits_value 0) prefix
                   ++ digits_value 0 x :: map (digits_value 0) l)).
  { intros x l d Hx Lx Dl Ll. rewrite version_key_concat.
    - now rewrite map_app.
    - destruct prefix; discriminate.
    - apply Forall_app. split; [exact Dp|]. now apply Forall_cons.
    - apply Forall_app. split; [exact Lp|]. now apply Forall_cons. }
  split; [|split].
  - rewrite K by assumption. now rewrite map_app.
  - intros Hlt. eexists _, _.
    split; [apply K; assumption|]. split; [apply K; assumption|].
    now apply list_ltb_first_difference.
  - eexists _, _.
    split; [apply K; auto|].
    split; [apply K; auto; now apply Forall_cons|].
    change (map (digits_value 0) prefix ++ digits_value 0 a :: map (digits_value 0) [])
      with (map (digits_value 0) prefix ++ [digits_value 0 a]).
    change (map (digits_value 0) prefix ++ digits_value 0 a :: map (digits_value 0) (b :: rest))
      with (map (digits_value 0) prefix
            ++ [digits_value 0 a] ++ digits_value 0 b :: map (digits_value 0) rest).
    rewrite app_assoc. apply list_ltb_prefix.
Qed.

Lemma version_order_witness :
  exists ka kb,
    version_key ("91.0.9", None) = Ok ka
    /\ version_key ("91.0.10.2", None) = Ok kb
    /\ list_ltb ka kb = true.
Proof.
  assert (D : forall s, s <> EmptyString -> string_forall is_digit s = true ->
                        digits s) by (intros s H1 H2; now split).
  refine (proj1 (proj2 (version_order ["91"; "0"] [] ["2"] "9" "10" None None
                          _ _)) _).
  - repeat (apply Forall_cons; [apply D; [discriminate | reflexivity]|]).
    apply Forall_nil.
  - repeat (apply Forall_cons; [unfold INT_MAX_STR_DIGITS; simpl; lia|]).
    apply Forall_nil.
  - reflexivity.
Defined.

(** ** The aliases of Safari *)

Lemma extract_field_twice (wikitext key : string) (keys : list string) :
  _extract_wikitext_field wikitext (key :: key :: keys)
  = _extract_wikitext_field wikitext (key :: keys).
Proof.
  cbn [_extract_wikitext_field].
  now destruct (Re.search (field_re key) wikitext).
Qed.

Lemma extract_field_first (wikitext key : string) (keys keys' : list string) :
  Re.search (field_re key) wikitext <> None ->
  _extract_wikitext_field wikitext (key :: keys)
  = _extract_wikitext_field wikitext (key :: keys').
Proof.
  cbn [_extract_wikitext_field].
  now destruct (Re.search (field_re key) wikitext).
Qed.

(** X19.  Wikipedia has answered with an object that holds a wikitext
    under [parse], [wikitext] and [*].  In [fetch_safari] the keys of the stable channel close the
    lists of keys of the beta channel.  So when the infobox names no
    preview or beta version and has the field [latest_release_version],
    the beta record repeats the version and the version code of the
    stable record; and when it names no preview or beta date, the beta
    record repeats the date of the stable record. *)
Theorem safari_beta_fallback `{Library} (w : World) (wikitext : string)
    (data : json) :
  get_wikipedia w "Safari_(web_browser)" = Ok data ->
  holds_wikitext data wikitext ->
  exists stable beta,
    fetch_safari w
    = Ok (Dict [("stable", Release stable); ("beta", Release beta)])
    /\ (contains "latest_preview_version" wikitext = false ->
        contains "latest_beta_version" wikitext = false ->
        Re.search (field_re "latest_release_version") wikitext <> None ->
        version beta = version stable
        /\ version_code beta = version_code stable)
    /\ (contains "latest_preview_date" wikitext = false ->
        contains "latest_beta_release_date" wikitext = false ->
        release_date beta = release_date stable).
Proof.
  intros E Hd. pose proof (fetch_wikipedia_wikitext_response _ _ _ _ E Hd) as F.
  unfold fetch_safari, _from_wikipedia. rewrite F. cbn [bind or_empty].
  rewrite !extract_checked_str. cbn [bind].
  rewrite extract_field_twice.
  set (sv := _extract_wikitext_field wikitext
               ["latest_release_version"; "latest_release"]).
  set (sd := _extract_wikitext_field wikitext ["latest_release_date"]).
  set (bv := _extract_wikitext_field wikitext
               ["latest_preview_version"; "latest_beta_version";
                "latest_release_version"]).
  set (bd := _extract_wikitext_field wikitext
               ["latest_preview_date"; "latest_beta_release_date";
                "latest_release_date"]).
  cbn [_extract_wikitext_field].
  destruct (wikipedia_release_returns "Safari_(web_browser)" sv sd None)
    as (s & Hs).
  destruct (wikipedia_release_returns "Safari_(web_browser)" bv bd None)
    as (b & Hb).
  rewrite Hs, Hb. cbn [bind]. exists s, b. split; [reflexivity|].
  apply wikipedia_release_fields in Hs, Hb.
  destruct Hs as (Sv & Sc & (ds & Sd & Sr) & _).
  destruct Hb as (Bv & Bc & (db & Bd & Br) & _).
  cbn [if_truthy] in Sc, Bc.
  split.
  - intros P1 P2 Hm.
    assert (Q : bv = sv).
    { unfold bv, sv.
      transitivity (_extract_wikitext_field wikitext ["latest_release_version"]).
      - apply (extract_field_skip wikitext
                 ["latest_preview_version"; "latest_beta_version"]
                 ["latest_release_version"]).
        intros k [<- | [<- | []]]; assumption.
      - now apply extract_field_first. }
    rewrite Sc, Bc, Sv, Bv, Q. now split.
  - intros P1 P2.
    assert (Q : bd = sd).
    { unfold bd, sd.
      apply (extract_field_skip wikitext
               ["latest_preview_date"; "latest_beta_release_date"]
               ["latest_release_date"]).
      intros k [<- | [<- | []]]; assumption. }
    rewrite Q in Bd. rewrite Sr, Br. congruence.
Qed.

Lemma safari_beta_fallback_witness :
  exists stable beta,
    @fetch_safari plain_library api_world
    = Ok (Dict [("stable", Release stable); ("beta", Release beta)])
    /\ version beta = version stable
    /\ version_code beta = version_code stable
    /\ release_date beta = release_date stable.
Proof.
  destruct (@safari_beta_fallback plain_library api_world _ _ eq_refl
              (api_response_holds _ _))
    as (stable & beta & E & V & D).
  exists stable, beta. split; [exact E|].
  destruct (V eq_refl eq_refl) as [Hv Hc]; [discriminate|].
  split; [exact Hv|]. split; [exact Hc|]. exact (D eq_refl eq_refl).
Defined.
